(** * Transformer language models (GPT decoder, BERT encoder) and their
      trainer adapters: a shallow embedding of [llm/llm/gpt_old.py],
      [llm/llm/gpt.py] and [llm/src/mosaic_bert.py].

    Tensors of numbers are lists of reals (floating point is idealised to
    real arithmetic); integer tensors that the adapters mutate live in an
    explicit store, so that aliasing and in-place writes are visible.
    Operations of the tensor library ([torch.roll], [F.cross_entropy],
    [nn.MultiheadAttention], [FlashMHA], ...) are written out from their
    documented behaviour, next to the code of the repository that calls
    them. *)

From Stdlib Require Import ZArith List Lia String DecimalString Reals Lra.
From stdpp Require Import base gmap list.

Open Scope Z_scope.

(** ** Exceptions and results

    An exception is its class and its message.  [ValueErrorOf msg x] is
    the [ValueError] whose message is [msg] followed by the number [x]
    as an f-string prints it (numbers are reals here, and have no
    decimal rendering of their own).  [ImportError] stands for the class
    and its subclass [ModuleNotFoundError]. *)

Inductive exn : Type :=
| AssertionError (msg : string)
| ValueError (msg : string)
| IndexError (msg : string)
| RuntimeError (msg : string)
| ZeroDivisionError (msg : string)
| ValueErrorOf (msg : string) (value : R)
| ImportError (msg : string).

Inductive result (A : Type) : Type :=
| Ok (a : A)
| Raise (e : exn).
Arguments Ok {A} a.
Arguments Raise {A} e.

Definition rbind {A B} (r : result A) (k : A -> result B) : result B :=
  match r with
  | Ok a => k a
  | Raise e => Raise e
  end.

Fixpoint rmapM {A B} (f : A -> result B) (l : list A) : result (list B) :=
  match l with
  | [] => Ok []
  | x :: l' => rbind (f x) (fun y => rbind (rmapM f l') (fun ys => Ok (y :: ys)))
  end.

(** Decimal rendering of integers, for the f-strings of error messages. *)
Definition show_nat (n : nat) : string :=
  NilEmpty.string_of_uint (Nat.to_uint n).

Definition show_Z (z : Z) : string :=
  NilEmpty.string_of_int (Z.to_int z).

(** ** The store of integer tensors

    A [LongTensor] is a handle: the address of its storage and its shape
    (two dimensions, row major).  Two handles with one [data_ptr] alias. *)

Abbreviation loc := positive.
Abbreviation heap := (gmap positive (list Z)).

Record LongTensor : Type := mkLong {
  data_ptr : loc;
  size0 : nat;
  size1 : nat
}.

(** Computations over the store that may raise; the store is kept when an
    exception is raised (writes made before it are not undone). *)
Definition M (A : Type) : Type := heap -> result A * heap.

Definition ret {A} (a : A) : M A := fun h => (Ok a, h).
Definition raise {A} (e : exn) : M A := fun h => (Raise e, h).
Definition bind {A B} (m : M A) (k : A -> M B) : M B :=
  fun h => match m h with
           | (Ok a, h') => k a h'
           | (Raise e, h') => (Raise e, h')
           end.
Definition lift {A} (r : result A) : M A := fun h => (r, h).

Notation "'let*' x := m 'in' k" := (bind m (fun x => k))
  (at level 10, x name, m at level 100, k at level 200).

Definition load (l : loc) : M (list Z) := fun h => (Ok (default [] (h !! l)), h).
Definition store (l : loc) (d : list Z) : M unit := fun h => (Ok tt, <[l := d]> h).
Definition alloc (d : list Z) : M loc :=
  fun h => let l := fresh (dom h) in (Ok l, <[l := d]> h).

(** Element [(b, i)] of a two-dimensional tensor, read from the store. *)
Definition item (h : heap) (t : LongTensor) (b i : nat) : option Z :=
  default [] (h !! data_ptr t) !! (b * size1 t + i)%nat.

(** ** Real vectors *)

Abbreviation vec := (list R).

Definition vsum (x : vec) : R := foldr Rplus 0%R x.
Definition dot (u v : vec) : R := vsum (zip_with Rmult u v).
Definition vadd (u v : vec) : vec := zip_with Rplus u v.
Definition vmul (u v : vec) : vec := zip_with Rmult u v.
Definition vscale (c : R) (v : vec) : vec := map (Rmult c) v.
Definition zeros (n : nat) : vec := replicate n 0%R.

(** ** Tensor-library operations of [torch] *)

Module torch.

(** [torch.roll(input, shifts)] without [dims]: the tensor is flattened,
    rolled, and restored to its shape; element [k] of the result is
    element [(k - shifts) mod n] of the flattened input. *)
Definition roll_flat (d : list Z) (shifts : Z) : list Z :=
  match d with
  | [] => []
  | _ => let r := Z.to_nat ((- shifts) mod Z.of_nat (length d)) in
         drop r d ++ take r d
  end.

(** The result is a new tensor: fresh storage, same shape. *)
Definition roll (t : LongTensor) (shifts : Z) : M LongTensor :=
  let* d := load (data_ptr t) in
  let* l := alloc (roll_flat d shifts) in
  ret (mkLong l (size0 t) (size1 t)).

(** A Python index [idx] into a dimension of [n] elements. *)
Definition normalize_index (idx : Z) (n : nat) (dim : nat) : result nat :=
  if (- Z.of_nat n <=? idx) && (idx <? Z.of_nat n)
  then Ok (Z.to_nat (idx mod Z.of_nat n))
  else Raise (IndexError ("index " ++ show_Z idx ++ " is out of bounds for dimension "
                          ++ show_nat dim ++ " with size " ++ show_nat n)%string).

(** [t[:, idx] = v]: an in-place write, into the storage of [t], of [v]
    at column [idx] of every row. *)
Definition setitem_column (t : LongTensor) (idx : Z) (v : Z) : M unit :=
  let* c := lift (normalize_index idx (size1 t) 1) in
  let* d := load (data_ptr t) in
  store (data_ptr t)
        (imap (fun k x => if decide (k mod size1 t = c)%nat then v else x) d).

(** [t.view(-1)]: the flattened elements (a view shares the storage; the
    callers here only read it). *)
Definition view_flat (t : LongTensor) : M (list Z) := load (data_ptr t).

(** [torch.ones(n, m)] and [torch.tril]: real (float) tensors. *)
Definition ones (n m : nat) : list vec := replicate n (replicate m 1%R).

Definition tril (t : list vec) : list vec :=
  imap (fun i row => imap (fun j v => if (j <=? i)%nat then v else 0%R) row) t.

(** [t.bool()]: which elements are not zero. *)
Definition to_bool (d : list Z) : list bool := map (fun z => negb (z =? 0)) d.

End torch.

(** The value of a two-dimensional integer tensor, once read. *)
Record LongValue : Type := mkValue {
  shape0 : nat;
  shape1 : nat;
  flat : list Z
}.

(** Row [b] of row-major data with rows of [n] elements. *)
Definition row {A} (n : nat) (d : list A) (b : nat) : list A := take n (drop (b * n) d).

Definition rows {A} (m n : nat) (d : list A) : list (list A) := map (row n d) (seq 0 m).

(** The batch as the data loader produces it: three integer tensors of one
    shape [(batch, seq)]. *)
Record Batch : Type := mkBatch {
  input_ids : LongTensor;
  attention_mask : LongTensor;
  labels : LongTensor
}.

(** The sentinel label that the loss ignores. *)
Definition IGNORE : Z := -100.

(** ** [torch.nn.functional] on real tensors

    A feature vector is a [vec]; a sequence is a list of feature vectors,
    one per position; a batch is a list of sequences. *)

Inductive scalar : Type :=
| Finite (r : R)
| NaN.

Module F.

(** [F.linear]: [x W^T + b]; row [o] of [weight] gives output feature [o]. *)
Definition linear (x : vec) (weight : list vec) (bias : option vec) : vec :=
  let y := map (fun w => dot w x) weight in
  match bias with
  | Some b => vadd y b
  | None => y
  end.

Definition mean (x : vec) : R := (vsum x / INR (length x))%R.

(** The biased variance, as layer normalisation uses it. *)
Definition var (x : vec) : R :=
  mean (map (fun v => ((v - mean x) * (v - mean x))%R) x).

(** [F.layer_norm] over the last dimension. *)
Definition layer_norm (x weight bias : vec) (eps : R) : vec :=
  vadd (vmul (map (fun v => ((v - mean x) / sqrt (var x + eps))%R) x) weight) bias.

(** [F.embedding] of one index; an index outside the table raises. *)
Definition embedding1 (weight : list vec) (id : Z) : result vec :=
  match (if 0 <=? id then weight !! Z.to_nat id else None) with
  | Some v => Ok v
  | None => Raise (IndexError "index out of range in self")
  end.

Definition embedding (ids : list Z) (weight : list vec) : result (list vec) :=
  rmapM (embedding1 weight) ids.

(** [F.dropout] on one feature vector.  [scale k] is what element [k] is
    multiplied by in this call: [1] in evaluation mode, and in training
    mode [0] where the element is dropped and [1 / (1 - p)] where it is
    kept. *)
Definition dropout (scale : nat -> R) (x : vec) : vec :=
  imap (fun k v => (v * scale k)%R) x.

(** Attention weights of one query over the keys: softmax of the scaled
    scores plus an additive (float) mask, where a position the boolean
    mask rules out weighs [0] (its score is minus infinity). *)
Definition attention_weights (attn_bias : nat -> R) (allowed : nat -> bool)
    (scaling : R) (q : vec) (ks : list vec) : vec :=
  let e := imap (fun j k => if allowed j
                            then exp (dot q k * scaling + attn_bias j)
                            else 0%R) ks in
  map (fun a => (a / vsum e)%R) e.

(** The attention output of one query: the weights, after dropout,
    applied to the values. *)
Definition attention_row (attn_bias : nat -> R) (allowed : nat -> bool)
    (drop_scale : nat -> R) (scaling : R) (head_dim : nat)
    (q : vec) (ks vs : list vec) : vec :=
  let p := dropout drop_scale (attention_weights attn_bias allowed scaling q ks) in
  foldr vadd (zeros head_dim) (zip_with vscale p vs).

(** Head [h] of a feature vector of [num_heads * head_dim] features. *)
Definition head (head_dim h : nat) (u : vec) : vec :=
  take head_dim (drop (h * head_dim) u).

(** Multi-head scaled dot-product attention over one sequence: head by
    head, the outputs of the heads concatenated. *)
Definition multi_head_attention (num_heads head_dim : nat)
    (attn_bias : nat -> nat -> R) (allowed : nat -> nat -> bool)
    (drop_scale : nat -> nat -> nat -> R) (qs ks vs : list vec) : list vec :=
  imap (fun i q =>
          concat (map (fun h =>
                         attention_row (attn_bias i) (allowed i) (drop_scale h i)
                                       (/ sqrt (INR head_dim))%R head_dim
                                       (head head_dim h q)
                                       (map (head head_dim h) ks)
                                       (map (head head_dim h) vs))
                      (seq 0 num_heads)))
       qs.

Definition log_softmax_at (x : vec) (k : nat) : R :=
  (nth k x 0 - ln (vsum (map exp x)))%R.

(** The first target that is neither ignored nor a class index. *)
Fixpoint bad_target (input : list vec) (target : list Z) (ignore_index : Z)
  : option Z :=
  match input, target with
  | x :: input', t :: target' =>
      if decide (t = ignore_index) then bad_target input' target' ignore_index
      else if (0 <=? t) && (t <? Z.of_nat (length x))
           then bad_target input' target' ignore_index
           else Some t
  | _, _ => None
  end.

(** [F.cross_entropy(input, target, ignore_index)] with the default
    reduction ['mean']: the sum over the rows of
    [- log_softmax(input[n])[target[n]]], counted as [0] where the target
    is [ignore_index], divided by the number of rows whose target is not
    [ignore_index] (not a number when there is none). *)
Definition cross_entropy (input : list vec) (target : list Z) (ignore_index : Z)
  : result scalar :=
  if negb (length input =? length target)%nat
  then Raise (ValueError ("Expected input batch_size (" ++ show_nat (length input)
                          ++ ") to match target batch_size ("
                          ++ show_nat (length target) ++ ").")%string)
  else match bad_target input target ignore_index with
       | Some t => Raise (IndexError ("Target " ++ show_Z t ++ " is out of bounds.")%string)
       | None =>
           let l := zip_with (fun x t => if decide (t = ignore_index) then 0%R
                                         else (- log_softmax_at x (Z.to_nat t))%R)
                             input target in
           let w := map (fun t => if decide (t = ignore_index) then 0%R else 1%R)
                        target in
           if decide (Forall (fun t => t = ignore_index) target)
           then Ok NaN
           else Ok (Finite (vsum l / vsum w))
       end.

End F.

(** ** Configuration *)

Record Config : Type := mkConfig {
  name : string;
  vocab_size : nat;
  d_model : nat;
  n_heads : nat;
  n_layers : nat;
  max_seq_len : nat;
  mlp_ratio : nat;
  init_std : R;
  emb_pdrop : R;
  resid_pdrop : R;
  attn_pdrop : R;
  attn_impl : string;
  device : string
}.

(** ** The architecture of a model: its tree of modules

    What [__init__] builds, what [Module.apply] walks and what
    [isinstance] inspects.  A parameter carries its shape and the
    initialiser that last wrote it; the numbers themselves are the concern
    of the [forward] functions further down. *)

Module nn.

Inductive init : Type :=
  | Default                      (* as the library's constructor left it *)
  | Normal (mean std : R)        (* drawn from a normal distribution *)
  | Zeros
  | Ones.

Record Param : Type := mkParam {
  shape : list nat;
  fill : init
}.

(** The classes of the modules without a case of their own below. *)
Inductive pyclass : Type :=
  | Dropout | GELU | MultiheadAttention | FlashAttention | FlashMHA
  | ModuleList | ModuleDict
  | TorchCausalAttention | FlashCausalAttention | GPTMLP | GPTBlock | GPT
  | FlashNonCausalAttention | BERTMLP | BERTBlock | MosaicBert.

(** [Linear], [Embedding] and [LayerNorm] are the three classes the
    initialisation tells apart.  [_is_residual] is the attribute the
    constructors attach to some [Linear] modules ([None]: not set).
    Every other module has its class, its own parameters and its named
    children. *)
Inductive module : Type :=
  | Linear (weight : Param) (bias : option Param) (_is_residual : option bool)
  | Embedding (weight : Param)
  | LayerNorm (weight bias : Param)
  | Composite (cls : pyclass) (_parameters : list (string * Param))
            (_modules : list (string * module)).

Definition class_eqb (c1 c2 : pyclass) : bool :=
  match c1, c2 with
  | Dropout, Dropout | GELU, GELU | MultiheadAttention, MultiheadAttention
  | FlashAttention, FlashAttention | FlashMHA, FlashMHA
  | ModuleList, ModuleList | ModuleDict, ModuleDict
  | TorchCausalAttention, TorchCausalAttention
  | FlashCausalAttention, FlashCausalAttention
  | GPTMLP, GPTMLP | GPTBlock, GPTBlock | GPT, GPT
  | FlashNonCausalAttention, FlashNonCausalAttention
  | BERTMLP, BERTMLP | BERTBlock, BERTBlock | MosaicBert, MosaicBert => true
  | _, _ => false
  end.

(** [isinstance(m, c)] for a class [c] of the second kind (none of them
    has a subclass). *)
Definition isinstance (m : module) (c : pyclass) : bool :=
  match m with
  | Composite c' _ _ => class_eqb c' c
  | _ => false
  end.

(** [Module.apply(fn)]: the children first, in order, then the module
    itself; the first exception stops the walk. *)
Fixpoint apply (fn : module -> result module) (m : module) : result module :=
  match m with
  | Composite c ps ch =>
      rbind ((fix walk (l : list (string * module)) : result (list (string * module)) :=
                match l with
                | [] => Ok []
                | (n, s) :: l' =>
                    rbind (apply fn s) (fun s' =>
                    rbind (walk l') (fun l'' => Ok ((n, s') :: l'')))
                end) ch)
            (fun ch' => fn (Composite c ps ch'))
  | _ => fn m
  end.

(** [Module.modules()]: the module and all its descendants. *)
Fixpoint modules (m : module) : list module :=
  m :: match m with
       | Composite _ _ ch =>
           (fix walk (l : list (string * module)) : list module :=
              match l with
              | [] => []
              | (_, s) :: l' => modules s ++ walk l'
              end) ch
       | _ => []
       end.

(** In-place initialisers of [torch.nn.init]: a parameter records the
    distribution it was last drawn from.  (The library refuses a
    negative [std]; that check is not modelled.) *)
Definition normal_ (p : Param) (mean std : R) : Param :=
  mkParam (shape p) (Normal mean std).
Definition zeros_ (p : Param) : Param := mkParam (shape p) Zeros.
Definition ones_ (p : Param) : Param := mkParam (shape p) Ones.

(** *** The machine

    Whether a tensor can be allocated on a device is a fact of the
    machine and of the build of the library, not of the program:
    [refuses device] is the exception that an allocation on [device]
    raises on the machine at hand, if it raises one (a device string the
    library does not know, a device the machine does not have).  The
    ['meta'] device holds shapes and no data, and an allocation on it
    succeeds on every machine.  Running out of memory is not modelled.

    Whether the fused attention package is installed is a fact of the
    machine too: [flash_attn] is the message of the [ImportError] that
    [from flash_attn.flash_attention import FlashMHA] raises there, if it
    raises one. *)
Record runtime : Type := mkRuntime {
  refuses : string -> option exn;
  flash_attn : option string
}.

Definition allocate (rt : runtime) (device : string) : result unit :=
  if String.eqb device "meta" then Ok tt
  else match refuses rt device with
       | Some e => Raise e
       | None => Ok tt
       end.

(** *** Library constructors

    The modules as the constructors leave them, once their tensors are
    allocated. *)
Definition Linear_new (in_features out_features : nat) (bias : bool) : module :=
  Linear (mkParam [out_features; in_features] Default)
         (if bias then Some (mkParam [out_features] Default) else None)
         None.

Definition Embedding_new (num_embeddings embedding_dim : nat) : module :=
  Embedding (mkParam [num_embeddings; embedding_dim] Default).

Definition LayerNorm_new (normalized_shape : nat) : module :=
  LayerNorm (mkParam [normalized_shape] Default) (mkParam [normalized_shape] Default).

(** [nn.Linear(in_features, out_features, bias=..., device=...)],
    [nn.Embedding(num_embeddings, embedding_dim, device=...)] and
    [nn.LayerNorm(normalized_shape, device=...)] allocate their
    parameters on [device]. *)
Definition Linear_init (rt : runtime) (in_features out_features : nat) (bias : bool)
    (device : string) : result module :=
  rbind (allocate rt device) (fun _ =>
  Ok (Linear_new in_features out_features bias)).

Definition Embedding_init (rt : runtime) (num_embeddings embedding_dim : nat)
    (device : string) : result module :=
  rbind (allocate rt device) (fun _ =>
  Ok (Embedding_new num_embeddings embedding_dim)).

Definition LayerNorm_init (rt : runtime) (normalized_shape : nat) (device : string)
  : result module :=
  rbind (allocate rt device) (fun _ =>
  Ok (LayerNorm_new normalized_shape)).

(** [nn.Dropout(p)] rejects a probability outside [[0, 1]]; it has no
    parameters and takes no device. *)
Definition Dropout_init (p : R) : result module :=
  if Rlt_dec p 0 then
    Raise (ValueErrorOf "dropout probability has to be between 0 and 1, but got " p)
  else if Rlt_dec 1 p then
    Raise (ValueErrorOf "dropout probability has to be between 0 and 1, but got " p)
  else Ok (Composite Dropout [] []).

(** [m._is_residual = True]. *)
Definition set_is_residual (m : module) : module :=
  match m with
  | Linear w b _ => Linear w b (Some true)
  | _ => m
  end.

(** [m.<child>._is_residual = True]. *)
Definition set_child_is_residual (child : string) (m : module) : module :=
  match m with
  | Composite c ps ch =>
      Composite c ps
        (map (fun p => if String.eqb (fst p) child
                       then (fst p, set_is_residual (snd p)) else p) ch)
  | _ => m
  end.

(** [nn.MultiheadAttention(embed_dim, num_heads, bias=True, device=...)]:
    the head size is computed and checked first, then the input
    projection is allocated, a pair of parameters of the module itself,
    and the output projection, a [Linear] child. *)
Definition MultiheadAttention_init (rt : runtime) (embed_dim num_heads : nat)
    (device : string) : result module :=
  if (num_heads =? 0)%nat then
    Raise (ZeroDivisionError "integer division or modulo by zero")
  else if negb ((embed_dim / num_heads * num_heads =? embed_dim)%nat) then
    Raise (AssertionError "embed_dim must be divisible by num_heads")
  else
    rbind (allocate rt device) (fun _ =>
    rbind (Linear_init rt embed_dim embed_dim true device) (fun out_proj =>
    Ok (Composite MultiheadAttention
          [("in_proj_weight"%string, mkParam [(3 * embed_dim)%nat; embed_dim] Default);
           ("in_proj_bias"%string, mkParam [(3 * embed_dim)%nat] Default)]
          [("out_proj"%string, out_proj)]))).

(** [FlashMHA(embed_dim, num_heads, bias=True, causal=..., device=...)]
    of the fused attention package: two assertions on the head size,
    then two [Linear] children and the kernel. *)
Definition FlashMHA_init (rt : runtime) (embed_dim num_heads : nat) (device : string)
  : result module :=
  if (num_heads =? 0)%nat then
    Raise (ZeroDivisionError "integer division or modulo by zero")
  else if negb ((embed_dim mod num_heads =? 0)%nat) then
    Raise (AssertionError "self.kdim must be divisible by num_heads")
  else if negb (((embed_dim / num_heads) mod 8 =? 0)%nat
                && (embed_dim / num_heads <=? 128)%nat) then
    Raise (AssertionError "Only support head_dim <= 128 and divisible by 8")
  else
    rbind (Linear_init rt embed_dim (3 * embed_dim) true device) (fun Wqkv =>
    let inner_attn := Composite FlashAttention [] [] in
    rbind (Linear_init rt embed_dim embed_dim true device) (fun out_proj =>
    Ok (Composite FlashMHA []
          [("Wqkv"%string, Wqkv);
           ("inner_attn"%string, inner_attn);
           ("out_proj"%string, out_proj)]))).

End nn.

(** ** Library layers and their parameter values *)

Abbreviation tensor3 := (list (list vec)).

(** Element-wise sum of two batches of sequences. *)
Definition tadd (x y : tensor3) : tensor3 := zip_with (zip_with vadd) x y.

(** A function of one feature vector, applied at every position. *)
Definition tmap (f : vec -> vec) (x : tensor3) : tensor3 := map (map f) x.

Module Linear.
Record t : Type := mk { weight : list vec; bias : option vec }.
Definition forward (m : t) (x : vec) : vec := F.linear x (weight m) (bias m).
End Linear.

Module LayerNorm.
Record t : Type := mk { weight : vec; bias : vec; eps : R }.
Definition forward (m : t) (x : vec) : vec :=
  F.layer_norm x (weight m) (bias m) (eps m).
End LayerNorm.

Module Embedding.
Record t : Type := mk { weight : list vec }.
Definition forward (m : t) (ids : list Z) : result (list vec) :=
  F.embedding ids (weight m).
End Embedding.

(** The random draw of one call of a dropout layer is made explicit:
    [scale b i k] multiplies feature [k] of position [i] of sequence [b]. *)
Module Dropout.
Record t : Type := mk { scale : nat -> nat -> nat -> R }.
Definition forward (m : t) (x : tensor3) : tensor3 :=
  imap (fun b => imap (fun i => F.dropout (scale m b i))) x.
(** Evaluation mode. *)
Definition eval : t := mk (fun _ _ _ => 1%R).
End Dropout.

(** [nn.MultiheadAttention] with [batch_first=True], called as
    [mha(x, x, x, attn_mask=..., need_weights=False)].  A floating-point
    [attn_mask] is added to the attention scores; its shape must be
    [(S, S)] for a sequence of [S] positions. *)
Module MultiheadAttention.
Record t : Type := mk {
  embed_dim : nat;
  num_heads : nat;
  in_proj_weight : list vec;
  in_proj_bias : vec;
  out_proj : Linear.t;
  dropout : nat -> nat -> nat -> nat -> R
}.

Definition head_dim (m : t) : nat := (embed_dim m / num_heads m)%nat.

Definition mask_shape_ok (S : nat) (attn_mask : list vec) : bool :=
  (length attn_mask =? S)%nat && forallb (fun r => (length r =? S)%nat) attn_mask.

Definition show_shape (attn_mask : list vec) : string :=
  ("torch.Size([" ++ show_nat (length attn_mask) ++ ", "
     ++ show_nat (length (nth 0 attn_mask [])) ++ "])")%string.

Definition attend (m : t) (attn_mask : list vec) (b : nat) (x : list vec) : list vec :=
  let d := embed_dim m in
  let qkv := map (fun xi => F.linear xi (in_proj_weight m) (Some (in_proj_bias m))) x in
  let qs := map (take d) qkv in
  let ks := map (fun u => take d (drop d u)) qkv in
  let vs := map (drop (2 * d)) qkv in
  map (Linear.forward (out_proj m))
      (F.multi_head_attention (num_heads m) (head_dim m)
         (fun i j => nth j (nth i attn_mask []) 0%R)
         (fun _ _ => true)
         (dropout m b) qs ks vs).

Definition forward (m : t) (S : nat) (x : tensor3) (attn_mask : list vec)
  : result (tensor3 * option tensor3) :=
  if mask_shape_ok S attn_mask
  then Ok (imap (attend m attn_mask) x, None)
  else Raise (RuntimeError ("The shape of the 2D attn_mask is " ++ show_shape attn_mask
                            ++ ", but should be (" ++ show_nat S ++ ", "
                            ++ show_nat S ++ ").")%string).
End MultiheadAttention.

(** [FlashMHA] of the fused attention package.  With [causal] a query
    attends to itself and to earlier positions only; a position that
    [key_padding_mask] marks [false] is taken out before the kernel runs
    (no query attends to it) and its own output row is filled with zeros
    before the output projection.  [None]: every position is valid. *)
Module FlashMHA.
Record t : Type := mk {
  embed_dim : nat;
  num_heads : nat;
  causal : bool;
  Wqkv : Linear.t;
  out_proj : Linear.t;
  attention_dropout : nat -> nat -> nat -> nat -> R
}.

Definition head_dim (m : t) : nat := (embed_dim m / num_heads m)%nat.

Definition valid (key_padding_mask : option (list (list bool))) (b j : nat) : bool :=
  match key_padding_mask with
  | None => true
  | Some kp => nth j (nth b kp []) false
  end.

Definition allowed (m : t) (key_padding_mask : option (list (list bool)))
    (b i j : nat) : bool :=
  valid key_padding_mask b j && (if causal m then (j <=? i)%nat else true).

Definition attend (m : t) (key_padding_mask : option (list (list bool)))
    (b : nat) (x : list vec) : list vec :=
  let d := embed_dim m in
  let qkv := map (Linear.forward (Wqkv m)) x in
  let qs := map (take d) qkv in
  let ks := map (fun u => take d (drop d u)) qkv in
  let vs := map (drop (2 * d)) qkv in
  let context :=
    imap (fun i c => if valid key_padding_mask b i
                     then c else zeros (num_heads m * head_dim m))
         (F.multi_head_attention (num_heads m) (head_dim m)
            (fun _ _ => 0%R)
            (allowed m key_padding_mask b)
            (attention_dropout m b) qs ks vs) in
  map (Linear.forward (out_proj m)) context.

Definition forward (m : t) (x : tensor3) (key_padding_mask : option (list (list bool)))
  : tensor3 * option tensor3 :=
  (imap (attend m key_padding_mask) x, None).
End FlashMHA.

(** ** [llm/llm/gpt_old.py] *)

Module gpt_old.

Module TorchCausalAttention.
Record t : Type := mk { cfg : Config; mha : MultiheadAttention.t }.

Definition __init__ (rt : nn.runtime) (cfg : Config) (device : string)
  : result nn.module :=
  rbind (nn.MultiheadAttention_init rt (d_model cfg) (n_heads cfg) device) (fun mha =>
  Ok (nn.Composite nn.TorchCausalAttention []
        [("mha"%string, nn.set_child_is_residual "out_proj" mha)])).

(** The buffer [self.mask], registered by [__init__] and never written
    again. *)
Definition mask (self : t) : list vec :=
  torch.tril (torch.ones (max_seq_len (cfg self)) (max_seq_len (cfg self))).

(** [S] is the size of dimension 1 of [x]. *)
Definition forward (self : t) (S : nat) (x : tensor3)
    (key_padding_mask : option (list (list bool)))
  : result (tensor3 * option tensor3) :=
  MultiheadAttention.forward (mha self) S x (mask self).
End TorchCausalAttention.

Module FlashCausalAttention.
(** [__init__] builds the layer with [causal=True]. *)
Record t : Type := mk {
  mha : FlashMHA.t;
  mha_causal : FlashMHA.causal mha = true
}.

Definition __init__ (rt : nn.runtime) (cfg : Config) (device : string)
  : result nn.module :=
  rbind (nn.FlashMHA_init rt (d_model cfg) (n_heads cfg) device) (fun mha =>
  Ok (nn.Composite nn.FlashCausalAttention []
        [("mha"%string, nn.set_child_is_residual "out_proj" mha)])).

Definition forward (self : t) (x : tensor3)
    (key_padding_mask : option (list (list bool)))
  : tensor3 * option tensor3 :=
  FlashMHA.forward (mha self) x key_padding_mask.
End FlashCausalAttention.

Module GPTMLP.
Record t : Type := mk {
  mlp_up : Linear.t;
  mlp_act : R -> R;          (* [nn.GELU(approximate='none')], element-wise *)
  mlp_down : Linear.t
}.

Definition __init__ (rt : nn.runtime) (cfg : Config) (device : string)
  : result nn.module :=
  rbind (nn.Linear_init rt (d_model cfg) (mlp_ratio cfg * d_model cfg) true device)
        (fun mlp_up =>
  let mlp_act := nn.Composite nn.GELU [] [] in
  rbind (nn.Linear_init rt (mlp_ratio cfg * d_model cfg) (d_model cfg) true device)
        (fun mlp_down =>
  Ok (nn.Composite nn.GPTMLP []
        [("mlp_up"%string, mlp_up);
         ("mlp_act"%string, mlp_act);
         ("mlp_down"%string, nn.set_is_residual mlp_down)]))).

Definition forward (self : t) (x : vec) : vec :=
  Linear.forward (mlp_down self)
    (map (mlp_act self) (Linear.forward (mlp_up self) x)).
End GPTMLP.

Module GPTBlock.
Inductive attention : Type :=
  | Torch (a : TorchCausalAttention.t)
  | Flash (a : FlashCausalAttention.t).

Record t : Type := mk {
  ln_1 : LayerNorm.t;
  causal_attn : attention;
  ln_2 : LayerNorm.t;
  mlp : GPTMLP.t;
  resid_attn_dropout : Dropout.t;
  resid_mlp_dropout : Dropout.t
}.

Definition __init__ (rt : nn.runtime) (cfg : Config) (device : string)
  : result nn.module :=
  rbind (nn.LayerNorm_init rt (d_model cfg) device) (fun ln_1 =>
  rbind (if String.eqb (attn_impl cfg) "torch" then
           TorchCausalAttention.__init__ rt cfg device
         else if String.eqb (attn_impl cfg) "flash" then
           FlashCausalAttention.__init__ rt cfg device
         else Raise (ValueError ("Unknown attn_impl=" ++ attn_impl cfg)%string))
        (fun causal_attn =>
  rbind (nn.LayerNorm_init rt (d_model cfg) device) (fun ln_2 =>
  rbind (GPTMLP.__init__ rt cfg device) (fun mlp =>
  rbind (nn.Dropout_init (resid_pdrop cfg)) (fun resid_attn_dropout =>
  rbind (nn.Dropout_init (resid_pdrop cfg)) (fun resid_mlp_dropout =>
  Ok (nn.Composite nn.GPTBlock []
        [("ln_1"%string, ln_1); ("causal_attn"%string, causal_attn);
         ("ln_2"%string, ln_2); ("mlp"%string, mlp);
         ("resid_attn_dropout"%string, resid_attn_dropout);
         ("resid_mlp_dropout"%string, resid_mlp_dropout)]))))))).

Definition attend (a : attention) (S : nat) (x : tensor3)
    (key_padding_mask : option (list (list bool)))
  : result (tensor3 * option tensor3) :=
  match a with
  | Torch a => TorchCausalAttention.forward a S x key_padding_mask
  | Flash a => Ok (FlashCausalAttention.forward a x key_padding_mask)
  end.

Definition forward (self : t) (S : nat) (x : tensor3)
    (key_padding_mask : option (list (list bool))) : result tensor3 :=
  let a := tmap (LayerNorm.forward (ln_1 self)) x in
  rbind (attend (causal_attn self) S a key_padding_mask) (fun r =>
  let b := fst r in
  let x := tadd x (Dropout.forward (resid_attn_dropout self) b) in
  let m := tmap (LayerNorm.forward (ln_2 self)) x in
  let n := tmap (GPTMLP.forward (mlp self)) m in
  let x := tadd x (Dropout.forward (resid_mlp_dropout self) n) in
  Ok x).
End GPTBlock.

Module GPT.
Record t : Type := mk {
  cfg : Config;
  wte : Embedding.t;
  wpe : Embedding.t;
  emb_drop : Dropout.t;
  blocks : list GPTBlock.t;
  ln_f : LayerNorm.t;
  lm_head : Linear.t
}.

(** Param Initialization, needed for device='meta' fast initialization *)
Definition param_init_fn (cfg : Config) (module : nn.module) : result nn.module :=
  (* Linear *)
  rbind (match module with
         | nn.Linear weight bias _is_residual =>
             let weight := nn.normal_ weight 0 (init_std cfg) in
             let bias := match bias with
                         | Some b => Some (nn.zeros_ b)
                         | None => None
                         end in
             if default false _is_residual then
               if (2 * n_layers cfg =? 0)%nat then
                 Raise (ZeroDivisionError "float division by zero")
               else
                 Ok (nn.Linear
                       (nn.normal_ weight 0
                          (init_std cfg / sqrt (INR (2 * n_layers cfg))))
                       bias _is_residual)
             else Ok (nn.Linear weight bias _is_residual)
         | _ => Ok module
         end) (fun module =>
  (* Embedding *)
  let module := match module with
                | nn.Embedding weight =>
                    nn.Embedding (nn.normal_ weight 0 (init_std cfg))
                | _ => module
                end in
  (* LayerNorm *)
  let module := match module with
                | nn.LayerNorm weight bias =>
                    nn.LayerNorm (nn.ones_ weight) (nn.zeros_ bias)
                | _ => module
                end in
  Ok module).

Definition __init__ (rt : nn.runtime) (cfg : Config) (device : string)
  : result nn.module :=
  rbind (nn.Embedding_init rt (vocab_size cfg) (d_model cfg) device) (fun wte =>
  rbind (nn.Embedding_init rt (max_seq_len cfg) (d_model cfg) device) (fun wpe =>
  rbind (nn.Dropout_init (emb_pdrop cfg)) (fun emb_drop =>
  rbind (rmapM (fun _ => GPTBlock.__init__ rt cfg device) (seq 0 (n_layers cfg)))
        (fun blocks =>
  rbind (nn.LayerNorm_init rt (d_model cfg) device) (fun ln_f =>
  let transformer :=
    nn.Composite nn.ModuleDict []
      [("wte"%string, wte); ("wpe"%string, wpe); ("emb_drop"%string, emb_drop);
       ("blocks"%string,
        nn.Composite nn.ModuleList []
          (imap (fun i b => (show_nat i, b)) blocks));
       ("ln_f"%string, ln_f)] in
  rbind (nn.Linear_init rt (d_model cfg) (vocab_size cfg) false device) (fun lm_head =>
  let self := nn.Composite nn.GPT []
                [("transformer"%string, transformer);
                 ("lm_head"%string, lm_head)] in
  if negb (String.eqb device "meta")
  then nn.apply (param_init_fn cfg) self
  else Ok self)))))).

Fixpoint run_blocks (bs : list GPTBlock.t) (S : nat) (x : tensor3)
    (key_padding_mask : option (list (list bool))) : result tensor3 :=
  match bs with
  | [] => Ok x
  | block :: bs' =>
      rbind (GPTBlock.forward block S x key_padding_mask) (fun x =>
      run_blocks bs' S x key_padding_mask)
  end.

Definition forward (self : t) (input_ids : LongValue)
    (key_padding_mask : option (list (list bool))) : result tensor3 :=
  let S := shape1 input_ids in
  if negb (S <=? max_seq_len (cfg self))%nat then
    Raise (AssertionError
             ("Cannot forward input with seq_len=" ++ show_nat S
              ++ ", this model only supports seq_len<="
              ++ show_nat (max_seq_len (cfg self)))%string)
  else
    let pos := map Z.of_nat (seq 0 S) in
    rbind (rmapM (Embedding.forward (wte self))
                 (rows (shape0 input_ids) S (flat input_ids))) (fun tok_emb =>
    rbind (Embedding.forward (wpe self) pos) (fun pos_emb =>
    let x := Dropout.forward (emb_drop self)
               (map (fun e => zip_with vadd e pos_emb) tok_emb) in
    rbind (run_blocks (blocks self) S x key_padding_mask) (fun x =>
    let x := tmap (LayerNorm.forward (ln_f self)) x in
    let logits := tmap (Linear.forward (lm_head self)) x in
    Ok logits))).

(** FSDP Wrap function *)
Definition fsdp_wrap_fn (module : nn.module) : bool :=
  nn.isinstance module nn.GPTBlock.

(** Activation Checkpointing *)
Definition activation_checkpointing_fn (module : nn.module) : bool :=
  nn.isinstance module nn.GPTBlock.
End GPT.

Module ComposerGPT.
Record t : Type := mk { model : GPT.t }.

Definition get_targets (batch : Batch) : M LongTensor :=
  let* targets := torch.roll (labels batch) (-1) in
  let* _ := torch.setitem_column targets (-1) (-100) in
  ret targets.

Definition forward (self : t) (batch : Batch) : M tensor3 :=
  let* ids := load (data_ptr (input_ids batch)) in
  let* am := load (data_ptr (attention_mask batch)) in
  lift (GPT.forward (model self)
          (mkValue (size0 (input_ids batch)) (size1 (input_ids batch)) ids)
          (Some (rows (size0 (attention_mask batch)) (size1 (attention_mask batch))
                      (torch.to_bool am)))).

Definition eval_forward (self : t) (batch : Batch) (outputs : option tensor3)
  : M tensor3 :=
  match outputs with
  | Some outputs => ret outputs
  | None => forward self batch
  end.

(** [outputs.view(-1, outputs.size(-1))] is [concat outputs]. *)
Definition loss (self : t) (outputs : tensor3) (batch : Batch) : M scalar :=
  let* targets := get_targets batch in
  let* flat_targets := torch.view_flat targets in
  lift (F.cross_entropy (concat outputs) flat_targets (-100)).
End ComposerGPT.

End gpt_old.

(** ** [llm/llm/gpt.py]

    The adapter around the Hugging Face model.  The model class is
    imported from [hf_flash_gpt], which is not part of these sources: the
    adapter takes the model's forward function as it is given. *)

Module gpt.

Module ComposerGPT.
Record t : Type := mk {
  model : LongValue -> option (list (list bool)) -> result tensor3
}.

Definition get_targets (batch : Batch) : M LongTensor :=
  let* targets := torch.roll (labels batch) (-1) in
  let* _ := torch.setitem_column targets (-1) (-100) in
  ret targets.

Definition forward (self : t) (batch : Batch) : M tensor3 :=
  let* ids := load (data_ptr (input_ids batch)) in
  let* am := load (data_ptr (attention_mask batch)) in
  lift (model self
          (mkValue (size0 (input_ids batch)) (size1 (input_ids batch)) ids)
          (Some (rows (size0 (attention_mask batch)) (size1 (attention_mask batch))
                      (torch.to_bool am)))).

Definition eval_forward (self : t) (batch : Batch) (outputs : option tensor3)
  : M tensor3 :=
  match outputs with
  | Some outputs => ret outputs
  | None => forward self batch
  end.

Definition loss (self : t) (outputs : tensor3) (batch : Batch) : M scalar :=
  let* targets := get_targets batch in
  let* flat_targets := torch.view_flat targets in
  lift (F.cross_entropy (concat outputs) flat_targets (-100)).
End ComposerGPT.

End gpt.

(** ** [llm/src/mosaic_bert.py] *)

Module mosaic_bert.

Module FlashNonCausalAttention.
(** [__init__] builds the layer with [causal=False]. *)
Record t : Type := mk {
  mha : FlashMHA.t;
  mha_causal : FlashMHA.causal mha = false
}.

Definition __init__ (rt : nn.runtime) (cfg : Config) (device : string)
  : result nn.module :=
  (* try: from flash_attn.flash_attention import FlashMHA
     except ImportError as e: raise e *)
  match nn.flash_attn rt with
  | Some msg => Raise (ImportError msg)
  | None =>
  rbind (nn.FlashMHA_init rt (d_model cfg) (n_heads cfg) device) (fun mha =>
  Ok (nn.Composite nn.FlashNonCausalAttention []
        [("mha"%string, nn.set_child_is_residual "out_proj" mha)]))
  end.

Definition forward (self : t) (x : tensor3)
    (key_padding_mask : option (list (list bool)))
  : tensor3 * option tensor3 :=
  FlashMHA.forward (mha self) x key_padding_mask.
End FlashNonCausalAttention.

Module BERTMLP.
Record t : Type := mk {
  mlp_up : Linear.t;
  mlp_act : R -> R;          (* [nn.GELU(approximate='none')], element-wise *)
  mlp_down : Linear.t
}.

Definition __init__ (rt : nn.runtime) (cfg : Config) (device : string)
  : result nn.module :=
  rbind (nn.Linear_init rt (d_model cfg) (mlp_ratio cfg * d_model cfg) true device)
        (fun mlp_up =>
  let mlp_act := nn.Composite nn.GELU [] [] in
  rbind (nn.Linear_init rt (mlp_ratio cfg * d_model cfg) (d_model cfg) true device)
        (fun mlp_down =>
  Ok (nn.Composite nn.BERTMLP []
        [("mlp_up"%string, mlp_up);
         ("mlp_act"%string, mlp_act);
         ("mlp_down"%string, nn.set_is_residual mlp_down)]))).

Definition forward (self : t) (x : vec) : vec :=
  Linear.forward (mlp_down self)
    (map (mlp_act self) (Linear.forward (mlp_up self) x)).
End BERTMLP.

Module BERTBlock.
Record t : Type := mk {
  ln_1 : LayerNorm.t;
  causal_attn : FlashNonCausalAttention.t;
  ln_2 : LayerNorm.t;
  mlp : BERTMLP.t;
  resid_attn_dropout : Dropout.t;
  resid_mlp_dropout : Dropout.t
}.

Definition __init__ (rt : nn.runtime) (cfg : Config) (device : string)
  : result nn.module :=
  rbind (nn.LayerNorm_init rt (d_model cfg) device) (fun ln_1 =>
  rbind (if String.eqb (attn_impl cfg) "flash" then
           FlashNonCausalAttention.__init__ rt cfg device
         else Raise (ValueError ("Unknown attn_impl=" ++ attn_impl cfg)%string))
        (fun causal_attn =>
  rbind (nn.LayerNorm_init rt (d_model cfg) device) (fun ln_2 =>
  rbind (BERTMLP.__init__ rt cfg device) (fun mlp =>
  rbind (nn.Dropout_init (resid_pdrop cfg)) (fun resid_attn_dropout =>
  rbind (nn.Dropout_init (resid_pdrop cfg)) (fun resid_mlp_dropout =>
  Ok (nn.Composite nn.BERTBlock []
        [("ln_1"%string, ln_1); ("causal_attn"%string, causal_attn);
         ("ln_2"%string, ln_2); ("mlp"%string, mlp);
         ("resid_attn_dropout"%string, resid_attn_dropout);
         ("resid_mlp_dropout"%string, resid_mlp_dropout)]))))))).

Definition forward (self : t) (x : tensor3)
    (key_padding_mask : option (list (list bool))) : tensor3 :=
  let a := tmap (LayerNorm.forward (ln_1 self)) x in
  let b := fst (FlashNonCausalAttention.forward (causal_attn self) a key_padding_mask) in
  let x := tadd x (Dropout.forward (resid_attn_dropout self) b) in
  let m := tmap (LayerNorm.forward (ln_2 self)) x in
  let n := tmap (BERTMLP.forward (mlp self)) m in
  let x := tadd x (Dropout.forward (resid_mlp_dropout self) n) in
  x.
End BERTBlock.

Module MosaicBert.
Record t : Type := mk {
  cfg : Config;
  wte : Embedding.t;
  wpe : Embedding.t;
  emb_drop : Dropout.t;
  blocks : list BERTBlock.t;
  ln_f : LayerNorm.t;
  lm_head : Linear.t
}.

(** Param Initialization, needed for device='meta' fast initialization *)
Definition param_init_fn (cfg : Config) (module : nn.module) : result nn.module :=
  (* Linear *)
  rbind (match module with
         | nn.Linear weight bias _is_residual =>
             let weight := nn.normal_ weight 0 (init_std cfg) in
             let bias := match bias with
                         | Some b => Some (nn.zeros_ b)
                         | None => None
                         end in
             if default false _is_residual then
               if (2 * n_layers cfg =? 0)%nat then
                 Raise (ZeroDivisionError "float division by zero")
               else
                 Ok (nn.Linear
                       (nn.normal_ weight 0
                          (init_std cfg / sqrt (INR (2 * n_layers cfg))))
                       bias _is_residual)
             else Ok (nn.Linear weight bias _is_residual)
         | _ => Ok module
         end) (fun module =>
  (* Embedding *)
  let module := match module with
                | nn.Embedding weight =>
                    nn.Embedding (nn.normal_ weight 0 (init_std cfg))
                | _ => module
                end in
  (* LayerNorm *)
  let module := match module with
                | nn.LayerNorm weight bias =>
                    nn.LayerNorm (nn.ones_ weight) (nn.zeros_ bias)
                | _ => module
                end in
  Ok module).

Definition __init__ (rt : nn.runtime) (cfg : Config) : result nn.module :=
  if negb (String.eqb (name cfg) "mosaic_bert") then
    Raise (AssertionError
             ("Tried to build MosaicBert model with cfg.name=" ++ name cfg)%string)
  else
  rbind (nn.Embedding_init rt (vocab_size cfg) (d_model cfg) (device cfg)) (fun wte =>
  rbind (nn.Embedding_init rt (max_seq_len cfg) (d_model cfg) (device cfg)) (fun wpe =>
  rbind (nn.Dropout_init (emb_pdrop cfg)) (fun emb_drop =>
  rbind (rmapM (fun _ => BERTBlock.__init__ rt cfg (device cfg)) (seq 0 (n_layers cfg)))
        (fun blocks =>
  rbind (nn.LayerNorm_init rt (d_model cfg) (device cfg)) (fun ln_f =>
  let transformer :=
    nn.Composite nn.ModuleDict []
      [("wte"%string, wte); ("wpe"%string, wpe); ("emb_drop"%string, emb_drop);
       ("blocks"%string,
        nn.Composite nn.ModuleList []
          (imap (fun i b => (show_nat i, b)) blocks));
       ("ln_f"%string, ln_f)] in
  rbind (nn.Linear_init rt (d_model cfg) (vocab_size cfg) false (device cfg))
        (fun lm_head =>
  let self := nn.Composite nn.MosaicBert []
                [("transformer"%string, transformer);
                 ("lm_head"%string, lm_head)] in
  if negb (String.eqb (device cfg) "meta")
  then nn.apply (param_init_fn cfg) self
  else Ok self)))))).

Definition run_blocks (bs : list BERTBlock.t) (x : tensor3)
    (key_padding_mask : option (list (list bool))) : tensor3 :=
  fold_left (fun x block => BERTBlock.forward block x key_padding_mask) bs x.

Definition forward (self : t) (input_ids : LongValue)
    (key_padding_mask : option (list (list bool))) : result tensor3 :=
  let S := shape1 input_ids in
  if negb (S <=? max_seq_len (cfg self))%nat then
    Raise (AssertionError
             ("Cannot forward input with seq_len=" ++ show_nat S
              ++ ", this model only supports seq_len<="
              ++ show_nat (max_seq_len (cfg self)))%string)
  else
    let pos := map Z.of_nat (seq 0 S) in
    rbind (rmapM (Embedding.forward (wte self))
                 (rows (shape0 input_ids) S (flat input_ids))) (fun tok_emb =>
    rbind (Embedding.forward (wpe self) pos) (fun pos_emb =>
    let x := Dropout.forward (emb_drop self)
               (map (fun e => zip_with vadd e pos_emb) tok_emb) in
    let x := run_blocks (blocks self) x key_padding_mask in
    let x := tmap (LayerNorm.forward (ln_f self)) x in
    let logits := tmap (Linear.forward (lm_head self)) x in
    Ok logits)).

(** FSDP Wrap function *)
Definition fsdp_wrap_fn (module : nn.module) : bool :=
  nn.isinstance module nn.BERTBlock.

(** Activation Checkpointing *)
Definition activation_checkpointing_fn (module : nn.module) : bool :=
  nn.isinstance module nn.BERTBlock.
End MosaicBert.

Module ComposerMosaicBert.
Record t : Type := mk { model : MosaicBert.t }.

(** The labels themselves: the same tensor, not a copy. *)
Definition get_targets (batch : Batch) : M LongTensor :=
  ret (labels batch).

Definition forward (self : t) (batch : Batch) : M tensor3 :=
  let* ids := load (data_ptr (input_ids batch)) in
  let* am := load (data_ptr (attention_mask batch)) in
  lift (MosaicBert.forward (model self)
          (mkValue (size0 (input_ids batch)) (size1 (input_ids batch)) ids)
          (Some (rows (size0 (attention_mask batch)) (size1 (attention_mask batch))
                      (torch.to_bool am)))).

Definition eval_forward (self : t) (batch : Batch) (outputs : option tensor3)
  : M tensor3 :=
  match outputs with
  | Some outputs => ret outputs
  | None => forward self batch
  end.

Definition loss (self : t) (outputs : tensor3) (batch : Batch) : M scalar :=
  let* targets := get_targets batch in
  let* flat_targets := torch.view_flat targets in
  lift (F.cross_entropy (concat outputs) flat_targets (-100)).
End ComposerMosaicBert.

End mosaic_bert.

(** ** Vocabulary of the statements *)

(** The configuration error of the blocks. *)
Definition unknown_attn_impl (cfg : Config) : exn :=
  ValueError ("Unknown attn_impl=" ++ attn_impl cfg)%string.

(** A configuration whose sizes and dropout rate the library layers
    accept: a positive width that the number of heads divides, a
    residual dropout rate that is a probability and, for the flash
    layer, heads whose size is a multiple of 8 and at most 128. *)
Definition layers_accept (cfg : Config) : Prop :=
  (0 < d_model cfg)%nat /\
  n_heads cfg <> 0%nat /\
  (d_model cfg mod n_heads cfg = 0)%nat /\
  (0 <= resid_pdrop cfg <= 1)%R /\
  (attn_impl cfg = "flash"%string ->
   ((d_model cfg / n_heads cfg) mod 8 = 0)%nat /\
   (d_model cfg / n_heads cfg <= 128)%nat).

(** A machine on which every device can be allocated on and the fused
    attention package is installed. *)
Definition every_device : nn.runtime := nn.mkRuntime (fun _ => None) None.

(** A machine without a GPU: what an allocation on ['cuda'] raises
    there. *)
Definition no_gpu : nn.runtime :=
  nn.mkRuntime
    (fun device =>
       if String.eqb device "cuda"
       then Some (RuntimeError "No CUDA GPUs are available")
       else None)
    None.

(** A machine without the fused attention package. *)
Definition no_flash_attn : nn.runtime :=
  nn.mkRuntime (fun _ => None) (Some "No module named 'flash_attn'"%string).

(** The configuration of the end-to-end scenario of the specification. *)
Definition scenario (name attn_impl : string) : Config :=
  mkConfig name 100 32 4 2 8 4 (2 / 100)%R 0%R 0%R 0%R attn_impl "cpu".

(** The initialisation policy, as the table of the specification has it:
    what the parameters of a module hold once the policy has run. *)
Definition initialised (cfg : Config) (s : nn.module) : Prop :=
  match s with
  | nn.Linear w b r =>
      nn.fill w = nn.Normal 0 (if default false r
                               then init_std cfg / sqrt (2 * INR (n_layers cfg))
                               else init_std cfg)%R /\
      (forall b', b = Some b' -> nn.fill b' = nn.Zeros)
  | nn.Embedding w => nn.fill w = nn.Normal 0 (init_std cfg)
  | nn.LayerNorm w b => nn.fill w = nn.Ones /\ nn.fill b = nn.Zeros
  | nn.Composite _ _ _ => True
  end.

(** A module tree with the contents of its parameters forgotten: what is
    left is the architecture (classes, shapes, attributes, children). *)
Fixpoint architecture (m : nn.module) : nn.module :=
  let forget (p : nn.Param) := nn.mkParam (nn.shape p) nn.Default in
  match m with
  | nn.Linear w b r => nn.Linear (forget w) (option_map forget b) r
  | nn.Embedding w => nn.Embedding (forget w)
  | nn.LayerNorm w b => nn.LayerNorm (forget w) (forget b)
  | nn.Composite c ps ch =>
      nn.Composite c (map (fun p => (fst p, forget (snd p))) ps)
        ((fix go (l : list (string * nn.module)) : list (string * nn.module) :=
            match l with
            | [] => []
            | (n, s) :: l' => (n, architecture s) :: go l'
            end) ch)
  end.

(** The loss in the words of the specification: the positions whose
    target is the sentinel are left out, and the negative log-likelihoods
    of the positions that remain are averaged over those positions only
    (there is no average of nothing). *)
Definition included (input : list vec) (target : list Z) : list (vec * Z) :=
  filter (fun p => snd p <> IGNORE) (zip input target).

Definition mean_over_included (input : list vec) (target : list Z) : scalar :=
  match included input target with
  | [] => NaN
  | inc =>
      Finite (vsum (map (fun p => (- F.log_softmax_at (fst p) (Z.to_nat (snd p)))%R) inc)
              / INR (length inc))
  end.

(** All three adapters compute the loss in one way from their targets. *)
Definition loss_of (get_targets : Batch -> M LongTensor)
    (outputs : tensor3) (batch : Batch) : M scalar :=
  let* targets := get_targets batch in
  let* flat_targets := torch.view_flat targets in
  lift (F.cross_entropy (concat outputs) flat_targets (-100)).

(** A batch of [B] sequences of [S] positions each. *)
Definition has_dims (B S : nat) (x : tensor3) : Prop :=
  length x = B /\ Forall (fun s => length s = S) x.

(** Logits of shape [(B, S, V)]. *)
Definition has_shape (B S V : nat) (x : tensor3) : Prop :=
  length x = B /\
  Forall (fun s => length s = S /\ Forall (fun v => length v = V) s) x.

(** Token ids of shape [(B, S)], each the index of a row of the token
    embedding table. *)
Definition valid_ids (vocab : nat) (ids : LongValue) : Prop :=
  length (flat ids) = (shape0 ids * shape1 ids)%nat /\
  Forall (fun id => 0 <= id < Z.of_nat vocab) (flat ids).

(** The message of the length assertion of [forward]. *)
Definition length_error (S max : nat) : exn :=
  AssertionError ("Cannot forward input with seq_len=" ++ show_nat S
                  ++ ", this model only supports seq_len<=" ++ show_nat max)%string.

(** The parameter tables of a stack have the sizes that [__init__] gives
    them: one row of the token table per token, one row of the position
    table per position, one row of the output projection per token, and
    no output bias. *)
Definition tables_sized (cfg : Config) (wte wpe : Embedding.t) (lm_head : Linear.t)
  : Prop :=
  length (Embedding.weight wte) = vocab_size cfg /\
  length (Embedding.weight wpe) = max_seq_len cfg /\
  length (Linear.weight lm_head) = vocab_size cfg /\
  Linear.bias lm_head = None.

(** A block whose attention layer accepts sequences of [S] positions: the
    torch layer, built from configuration [cfg], carries a mask of
    [max_seq_len cfg] rows and columns. *)
Definition block_accepts (S : nat) (blk : gpt_old.GPTBlock.t) : Prop :=
  match gpt_old.GPTBlock.causal_attn blk with
  | gpt_old.GPTBlock.Torch a => max_seq_len (gpt_old.TorchCausalAttention.cfg a) = S
  | gpt_old.GPTBlock.Flash _ => True
  end.

(** ** One sequence at a time

    No layer mixes the sequences of a batch: what a block with the flash
    attention layer does to sequence [b] of a batch, and what the stack
    does to it after the embedding. *)

Definition flash_block_seq (blk : gpt_old.GPTBlock.t) (a : gpt_old.FlashCausalAttention.t)
    (kpm : option (list (list bool))) (b : nat) (s : list vec) : list vec :=
  let att := FlashMHA.attend (gpt_old.FlashCausalAttention.mha a) kpm b
               (map (LayerNorm.forward (gpt_old.GPTBlock.ln_1 blk)) s) in
  let s1 := zip_with vadd s
              (imap (fun i => F.dropout
                                (Dropout.scale (gpt_old.GPTBlock.resid_attn_dropout blk) b i))
                    att) in
  let n := map (gpt_old.GPTMLP.forward (gpt_old.GPTBlock.mlp blk))
               (map (LayerNorm.forward (gpt_old.GPTBlock.ln_2 blk)) s1) in
  zip_with vadd s1
    (imap (fun i => F.dropout
                      (Dropout.scale (gpt_old.GPTBlock.resid_mlp_dropout blk) b i))
          n).

(** The blocks of a stack, when all of them use the flash layer. *)
Fixpoint flash_blocks_seq (bs : list gpt_old.GPTBlock.t)
    (kpm : option (list (list bool))) (b : nat) (s : list vec) : list vec :=
  match bs with
  | [] => s
  | blk :: bs' =>
      match gpt_old.GPTBlock.causal_attn blk with
      | gpt_old.GPTBlock.Flash a =>
          flash_blocks_seq bs' kpm b (flash_block_seq blk a kpm b s)
      | gpt_old.GPTBlock.Torch _ => s
      end
  end.

Definition uses_flash (blk : gpt_old.GPTBlock.t) : Prop :=
  exists a, gpt_old.GPTBlock.causal_attn blk = gpt_old.GPTBlock.Flash a.

(** A function of a sequence whose output at the first [n] positions is
    computed from the first [n] positions of its input, for every [n]. *)
Definition looks_back_only (f : list vec -> list vec) : Prop :=
  forall n s, take n (f s) = f (take n s).

(** ** A small model with explicit parameters

    Two tokens, width [2], one head, one block, sequences of at most two
    positions.  Token [0] embeds to [[0; 0]] and token [1] to [[1; -1]];
    queries and keys are zero, values and both output projections copy
    their input, the feed-forward branch contributes nothing, whatever the
    activation [act]; dropout is in evaluation mode. *)

Definition tiny_cfg (attn_impl : string) : Config :=
  mkConfig "gpt" 2 2 1 1 2 1 (2 / 100)%R 0%R 0%R 0%R attn_impl "cpu".

Definition identity2 : list vec := [[1; 0]; [0; 1]]%R.
Definition zero2 : list vec := [[0; 0]; [0; 0]]%R.

Definition tiny_ln : LayerNorm.t :=
  LayerNorm.mk [1; 1]%R [0; 0]%R (1 / 100000)%R.

Definition tiny_mha : MultiheadAttention.t :=
  MultiheadAttention.mk 2 1
    (zero2 ++ zero2 ++ identity2) (zeros 6)
    (Linear.mk identity2 (Some (zeros 2)))
    (fun _ _ _ _ => 1%R).

Definition tiny_flash_mha : FlashMHA.t :=
  FlashMHA.mk 2 1 true
    (Linear.mk (zero2 ++ zero2 ++ identity2) (Some (zeros 6)))
    (Linear.mk identity2 (Some (zeros 2)))
    (fun _ _ _ _ => 1%R).

Definition tiny_torch_attn : gpt_old.TorchCausalAttention.t :=
  gpt_old.TorchCausalAttention.mk (tiny_cfg "torch") tiny_mha.

Definition tiny_flash_attn : gpt_old.FlashCausalAttention.t :=
  gpt_old.FlashCausalAttention.mk tiny_flash_mha eq_refl.

Definition tiny_mlp (act : R -> R) : gpt_old.GPTMLP.t :=
  gpt_old.GPTMLP.mk (Linear.mk zero2 (Some (zeros 2))) act
                    (Linear.mk zero2 (Some (zeros 2))).

Definition tiny_block (a : gpt_old.GPTBlock.attention) (act : R -> R)
  : gpt_old.GPTBlock.t :=
  gpt_old.GPTBlock.mk tiny_ln a tiny_ln (tiny_mlp act) Dropout.eval Dropout.eval.

Definition tiny_gpt (attn_impl : string) (a : gpt_old.GPTBlock.attention)
    (act : R -> R) : gpt_old.GPT.t :=
  gpt_old.GPT.mk (tiny_cfg attn_impl)
    (Embedding.mk [[0; 0]; [1; -1]]%R)
    (Embedding.mk zero2)
    Dropout.eval
    [tiny_block a act]
    tiny_ln
    (Linear.mk identity2 None).

Definition tiny_torch_gpt (act : R -> R) : gpt_old.GPT.t :=
  tiny_gpt "torch" (gpt_old.GPTBlock.Torch tiny_torch_attn) act.

Definition tiny_flash_gpt (act : R -> R) : gpt_old.GPT.t :=
  tiny_gpt "flash" (gpt_old.GPTBlock.Flash tiny_flash_attn) act.

(** Layer normalisation of the small model on a vector [[c; -c]] scales
    [c] by this factor. *)
Definition nrm (c : R) : R := (c / sqrt (c * c + 1 / 100000))%R.

(** ** A small encoder

    The encoder counterpart of the small model: the same tables, one
    block whose attention layer is not causal, the identity as the
    activation of the feed-forward branch. *)





(** ** An encoder of the sizes of the scenario

    The encoder of the end-to-end scenario as a numeric model: the tables
    and layers have the sizes that the constructor gives them
    ([vocab_size = 100], [d_model = 32], four heads of dimension 8, two
    blocks, [max_seq_len = 8]); every weight matrix is zero, every layer
    normalisation has scale one; evaluation mode. *)

Definition zero_matrix (rows cols : nat) : list vec := replicate rows (zeros cols).

Definition scenario_ln : LayerNorm.t :=
  LayerNorm.mk (replicate 32 1%R) (zeros 32) (1 / 100000)%R.

Definition scenario_bert_mha : FlashMHA.t :=
  FlashMHA.mk 32 4 false
    (Linear.mk (zero_matrix 96 32) (Some (zeros 96)))
    (Linear.mk (zero_matrix 32 32) (Some (zeros 32)))
    (fun _ _ _ _ => 1%R).

Definition scenario_bert_block (act : R -> R) : mosaic_bert.BERTBlock.t :=
  mosaic_bert.BERTBlock.mk scenario_ln
    (mosaic_bert.FlashNonCausalAttention.mk scenario_bert_mha eq_refl)
    scenario_ln
    (mosaic_bert.BERTMLP.mk (Linear.mk (zero_matrix 128 32) (Some (zeros 128))) act
                            (Linear.mk (zero_matrix 32 128) (Some (zeros 32))))
    Dropout.eval Dropout.eval.

Definition scenario_bert (act : R -> R) : mosaic_bert.MosaicBert.t :=
  mosaic_bert.MosaicBert.mk (scenario "mosaic_bert" "flash")
    (Embedding.mk (zero_matrix 100 32))
    (Embedding.mk (zero_matrix 8 32))
    Dropout.eval
    [scenario_bert_block act; scenario_bert_block act]
    scenario_ln
    (Linear.mk (zero_matrix 100 32) None).

(** ** More vocabulary *)

(** A block whose torch attention layer, when it has one, was built from
    configuration [cfg] (as [GPT.__init__] builds every block of a
    stack). *)
Definition built_from (cfg : Config) (blk : gpt_old.GPTBlock.t) : Prop :=
  match gpt_old.GPTBlock.causal_attn blk with
  | gpt_old.GPTBlock.Torch a => gpt_old.TorchCausalAttention.cfg a = cfg
  | gpt_old.GPTBlock.Flash _ => True
  end.

Definition uses_torch (blk : gpt_old.GPTBlock.t) : Prop :=
  exists a, gpt_old.GPTBlock.causal_attn blk = gpt_old.GPTBlock.Torch a.

(** The error of an embedding lookup outside its table. *)
Definition index_error : exn := IndexError "index out of range in self".

(** [getattr(module, '_is_residual', False)] of a [Linear] module: the
    test of the initialisation pass. *)
Definition is_residual (m : nn.module) : bool :=
  match m with
  | nn.Linear _ _ r => default false r
  | _ => false
  end.

(** How many modules of a model a predicate of modules holds of. *)
Definition count_modules (p : nn.module -> bool) (m : nn.module) : nat :=
  length (List.filter p (nn.modules m)).

(** The module tree that the constructors of both stacks assemble around
    their blocks, before the initialisation pass. *)
Definition block_list (blocks : list nn.module) : nn.module :=
  nn.Composite nn.ModuleList [] (imap (fun i b => (show_nat i, b)) blocks).

Definition transformer_tree (cfg : Config) (blocks : list nn.module) : nn.module :=
  nn.Composite nn.ModuleDict []
    [("wte"%string, nn.Embedding_new (vocab_size cfg) (d_model cfg));
     ("wpe"%string, nn.Embedding_new (max_seq_len cfg) (d_model cfg));
     ("emb_drop"%string, nn.Composite nn.Dropout [] []);
     ("blocks"%string, block_list blocks);
     ("ln_f"%string, nn.LayerNorm_new (d_model cfg))].

Definition stack_tree (cls : nn.pyclass) (cfg : Config) (blocks : list nn.module)
  : nn.module :=
  nn.Composite cls []
    [("transformer"%string, transformer_tree cfg blocks);
     ("lm_head"%string, nn.Linear_new (d_model cfg) (vocab_size cfg) false)].

(** A configuration with another [device]. *)
Definition with_device (cfg : Config) (device : string) : Config :=
  mkConfig (name cfg) (vocab_size cfg) (d_model cfg) (n_heads cfg) (n_layers cfg)
           (max_seq_len cfg) (mlp_ratio cfg) (init_std cfg) (emb_pdrop cfg)
           (resid_pdrop cfg) (attn_pdrop cfg) (attn_impl cfg) device.

(** The error of [nn.Dropout(p)] on a [p] outside [[0, 1]]. *)
Definition dropout_error (p : R) : exn :=
  ValueErrorOf "dropout probability has to be between 0 and 1, but got " p.

(** The assertion of the encoder's constructor. *)
Definition name_error (cfg : Config) : exn :=
  AssertionError ("Tried to build MosaicBert model with cfg.name=" ++ name cfg)%string.

(** A key padding mask that marks every position of a batch of [B]
    sequences of [S] positions valid. *)
Definition full_mask (B S : nat) (kp : list (list bool)) : Prop :=
  forall b j, (b < B)%nat -> (j < S)%nat -> nth j (nth b kp []) false = true.




(** * Properties *)

(** ** Label shifting: [get_targets] *)

Section GetTargets.

Lemma roll_flat_length (d : list Z) (s : Z) :
  length (torch.roll_flat d s) = length d.
Proof.
  unfold torch.roll_flat. destruct d as [|z d]; [reflexivity|].
  set (r := Z.to_nat _).
  rewrite length_app, length_drop, length_take.
  lia.
Qed.

(** Rolling by [-1] moves every element one place towards the front. *)
Lemma roll_flat_left_lookup (d : list Z) (k : nat) :
  (S k < length d)%nat ->
  torch.roll_flat d (-1) !! k = d !! S k.
Proof.
  intros Hk. unfold torch.roll_flat.
  destruct d as [|z d]; [simpl in Hk; lia|].
  set (l := z :: d) in *.
  assert (Hr : Z.to_nat (- -1 mod Z.of_nat (length l)) = 1%nat).
  { rewrite Z.mod_small by lia. reflexivity. }
  rewrite Hr.
  rewrite lookup_app_l by (rewrite length_drop; lia).
  rewrite lookup_drop. f_equal.
Qed.

Lemma normalize_last (n : nat) :
  (0 < n)%nat -> torch.normalize_index (-1) n 1 = Ok (n - 1)%nat.
Proof.
  intros Hn. unfold torch.normalize_index.
  destruct (Z.leb_spec (- Z.of_nat n) (-1)); [|lia].
  destruct (Z.ltb_spec (-1) (Z.of_nat n)); [|lia].
  simpl. f_equal.
  replace (-1 mod Z.of_nat n) with (Z.of_nat n - 1).
  - lia.
  - apply Z.mod_unique with (q := -1); lia.
Qed.

Lemma normalize_empty (idx : Z) (dim : nat) :
  exists msg, torch.normalize_index idx 0 dim = Raise (IndexError msg).
Proof.
  unfold torch.normalize_index.
  destruct (Z.leb_spec (- Z.of_nat 0) idx), (Z.ltb_spec idx (Z.of_nat 0));
    simpl; try lia; eauto.
Qed.

(** What one call does to the store, step by step. *)
Lemma get_targets_run (h : heap) (batch : Batch) :
  let t := labels batch in
  let d := default [] (h !! data_ptr t) in
  let l := fresh (dom h) in
  (0 < size1 t)%nat ->
  gpt.ComposerGPT.get_targets batch h =
    (Ok (mkLong l (size0 t) (size1 t)),
     <[l := imap (fun k x => if decide (k mod size1 t = size1 t - 1)%nat
                             then -100 else x)
                 (torch.roll_flat d (-1))]>
       (<[l := torch.roll_flat d (-1)]> h)).
Proof.
  intros t d l HS.
  unfold gpt.ComposerGPT.get_targets, torch.roll, torch.setitem_column.
  unfold bind, load, alloc, store, ret, lift. cbn [data_ptr size0 size1].
  fold t. rewrite (normalize_last _ HS).
  fold l. rewrite lookup_insert_eq. reflexivity.
Qed.

Lemma get_targets_run_empty (h : heap) (batch : Batch) :
  let t := labels batch in
  let d := default [] (h !! data_ptr t) in
  size1 t = 0%nat ->
  exists msg,
    gpt.ComposerGPT.get_targets batch h =
      (Raise (IndexError msg), <[fresh (dom h) := torch.roll_flat d (-1)]> h).
Proof.
  intros t d HS.
  unfold gpt.ComposerGPT.get_targets, torch.roll, torch.setitem_column.
  unfold bind, load, alloc, store, ret, lift. cbn [data_ptr size0 size1].
  fold t. rewrite HS.
  destruct (normalize_empty (-1) 1) as [msg ->]. eauto.
Qed.

Lemma fresh_not_live (h : heap) (l : loc) :
  is_Some (h !! l) -> l <> fresh (dom h).
Proof.
  intros Hl ->. apply (is_fresh (dom h)). by apply elem_of_dom.
Qed.

End GetTargets.

(** C5.  [get_targets] of the causal adapter returns a tensor of the shape
    of the labels in which the target at position [i] of every row is the
    label at position [i + 1] of that row, and the target at the last
    position of every row is the sentinel [-100], whatever the labels
    are. *)
Theorem get_targets_shifts_left (get_targets : Batch -> M LongTensor)
    (h : heap) (batch : Batch) (d : list Z) :
  get_targets = gpt.ComposerGPT.get_targets \/
  get_targets = gpt_old.ComposerGPT.get_targets ->
  h !! data_ptr (labels batch) = Some d ->
  length d = (size0 (labels batch) * size1 (labels batch))%nat ->
  (0 < size1 (labels batch))%nat ->
  exists t h',
    get_targets batch h = (Ok t, h') /\
    size0 t = size0 (labels batch) /\
    size1 t = size1 (labels batch) /\
    forall b i, (b < size0 t)%nat -> (i < size1 t)%nat ->
      item h' t b i =
        if decide (i = size1 t - 1)%nat then Some (-100)
        else item h (labels batch) b (i + 1).
Proof.
  intros Hgt Hd Hlen HS.
  assert (get_targets = gpt.ComposerGPT.get_targets) as ->
    by (destruct Hgt as [->| ->]; reflexivity).
  eexists _, _. split; [apply get_targets_run; exact HS|].
  cbn [size0 size1 data_ptr]. split; [reflexivity|]. split; [reflexivity|].
  intros b i Hb Hi. unfold item. cbn [size0 size1 data_ptr].
  rewrite lookup_insert_eq, Hd.
  change (default [] (Some d)) with d.
  change (default [] (Some ?x)) with x.
  set (S := size1 (labels batch)) in *.
  set (B := size0 (labels batch)) in *.
  assert (Hk : (b * S + i < B * S)%nat) by nia.
  assert (Hmod : ((b * S + i) mod S = i)%nat).
  { rewrite Nat.add_comm, Nat.Div0.mod_add. apply Nat.mod_small. exact Hi. }
  rewrite list_lookup_imap.
  destruct (torch.roll_flat d (-1) !! (b * S + i)%nat) as [x|] eqn:Hx.
  - cbn [fmap option_fmap option_map]. rewrite Hmod.
    destruct (decide (i = S - 1)%nat) as [Hlast|Hlast]; [reflexivity|].
    rewrite <- Hx, roll_flat_left_lookup by nia.
    f_equal. lia.
  - apply lookup_ge_None in Hx. rewrite roll_flat_length in Hx. lia.
Qed.

(** The theorem at the labels [[5; 6; 7; 8]] of one row. *)
Lemma get_targets_shifts_left_witness :
  exists t h',
    gpt.ComposerGPT.get_targets
      (mkBatch (mkLong 1 1 4) (mkLong 2 1 4) (mkLong 3 1 4))
      {[ 3%positive := [5; 6; 7; 8] ]} = (Ok t, h') /\
    size0 t = 1%nat /\ size1 t = 4%nat /\
    forall b i, (b < size0 t)%nat -> (i < size1 t)%nat ->
      item h' t b i =
        if decide (i = size1 t - 1)%nat then Some (-100)
        else item {[ 3%positive := [5; 6; 7; 8] ]} (mkLong 3 1 4) b (i + 1).
Proof.
  apply (get_targets_shifts_left gpt.ComposerGPT.get_targets
           {[ 3%positive := [5; 6; 7; 8] ]}
           (mkBatch (mkLong 1 1 4) (mkLong 2 1 4) (mkLong 3 1 4))
           [5; 6; 7; 8]).
  - left. reflexivity.
  - reflexivity.
  - reflexivity.
  - simpl. lia.
Defined.

(** The example of the specification: the labels [[a; b; c; d]] give the
    targets [[b; c; d; -100]]. *)
Lemma get_targets_abcd (a b c d : Z) (p : positive) :
  exists t h',
    gpt.ComposerGPT.get_targets
      (mkBatch (mkLong p 1 4) (mkLong p 1 4) (mkLong p 1 4))
      {[ p := [a; b; c; d] ]} = (Ok t, h') /\
    h' !! data_ptr t = Some [b; c; d; -100].
Proof.
  eexists _, _. split; [apply get_targets_run; simpl; lia|].
  cbn [data_ptr labels]. rewrite lookup_insert_eq, lookup_singleton_eq.
  reflexivity.
Qed.

(** Without a last position there is nothing to overwrite: on labels with
    sequences of length [0] the indexing [targets[:, -1]] raises. *)
Lemma get_targets_empty_sequence (h : heap) (batch : Batch) :
  size1 (labels batch) = 0%nat ->
  exists msg, fst (gpt.ComposerGPT.get_targets batch h) = Raise (IndexError msg).
Proof.
  intros HS. destruct (get_targets_run_empty h batch HS) as [msg ->]. eauto.
Qed.

(** ** The labels of the batch are left alone *)

(** C10.  [get_targets] of the causal adapter does not modify its input:
    after the call the storage of [batch["labels"]] holds what it held
    before, as does every tensor that was live before the call, and the
    tensor returned is freshly allocated: the shift and the in-place write
    of [-100] go to new storage. *)
Theorem get_targets_leaves_labels (get_targets : Batch -> M LongTensor)
    (h : heap) (batch : Batch) (d : list Z) :
  get_targets = gpt.ComposerGPT.get_targets \/
  get_targets = gpt_old.ComposerGPT.get_targets ->
  h !! data_ptr (labels batch) = Some d ->
  snd (get_targets batch h) !! data_ptr (labels batch) = Some d /\
  (forall l, is_Some (h !! l) -> snd (get_targets batch h) !! l = h !! l) /\
  (forall t, fst (get_targets batch h) = Ok t ->
             h !! data_ptr t = None /\ data_ptr t <> data_ptr (labels batch)).
Proof.
  intros Hgt Hd.
  assert (get_targets = gpt.ComposerGPT.get_targets) as ->
    by (destruct Hgt as [->| ->]; reflexivity).
  assert (Hframe : forall l, is_Some (h !! l) ->
            snd (gpt.ComposerGPT.get_targets batch h) !! l = h !! l).
  { intros l Hl. pose proof (fresh_not_live h l Hl) as Hne.
    destruct (Nat.eq_dec (size1 (labels batch)) 0%nat) as [HS|HS].
    - destruct (get_targets_run_empty h batch HS) as [msg ->].
      cbn [snd]. by rewrite lookup_insert_ne.
    - rewrite get_targets_run by lia.
      cbn [snd]. by rewrite !lookup_insert_ne. }
  split; [|split].
  - rewrite Hframe by (rewrite Hd; eauto). exact Hd.
  - exact Hframe.
  - intros t Ht.
    destruct (Nat.eq_dec (size1 (labels batch)) 0%nat) as [HS|HS].
    + destruct (get_targets_run_empty h batch HS) as [msg Hrun].
      rewrite Hrun in Ht. discriminate.
    + rewrite get_targets_run in Ht by lia. cbn [fst] in Ht.
      injection Ht as <-. cbn [data_ptr]. split.
      * apply not_elem_of_dom, is_fresh.
      * intros Heq. apply (fresh_not_live h (data_ptr (labels batch))).
        -- rewrite Hd; eauto.
        -- symmetry. exact Heq.
Qed.

Lemma get_targets_leaves_labels_witness :
  snd (gpt_old.ComposerGPT.get_targets
         (mkBatch (mkLong 1 1 4) (mkLong 2 1 4) (mkLong 3 1 4))
         {[ 3%positive := [5; 6; 7; 8] ]}) !! 3%positive = Some [5; 6; 7; 8].
Proof.
  refine (proj1 (get_targets_leaves_labels gpt_old.ComposerGPT.get_targets
           {[ 3%positive := [5; 6; 7; 8] ]}
           (mkBatch (mkLong 1 1 4) (mkLong 2 1 4) (mkLong 3 1 4))
           [5; 6; 7; 8] _ _)).
  - right. reflexivity.
  - reflexivity.
Defined.



(** ** Reusing precomputed outputs: [eval_forward] *)

(** C9.  For every batch and every outputs value, [eval_forward] returns
    the outputs unchanged when they are supplied (and touches nothing),
    and otherwise is exactly [forward(batch)]; in all three adapters. *)
Theorem eval_forward_reuses_or_recomputes :
  (forall self batch outputs h,
      gpt_old.ComposerGPT.eval_forward self batch (Some outputs) h = (Ok outputs, h)) /\
  (forall self batch,
      gpt_old.ComposerGPT.eval_forward self batch None
      = gpt_old.ComposerGPT.forward self batch) /\
  (forall self batch outputs h,
      mosaic_bert.ComposerMosaicBert.eval_forward self batch (Some outputs) h
      = (Ok outputs, h)) /\
  (forall self batch,
      mosaic_bert.ComposerMosaicBert.eval_forward self batch None
      = mosaic_bert.ComposerMosaicBert.forward self batch) /\
  (forall self batch outputs h,
      gpt.ComposerGPT.eval_forward self batch (Some outputs) h = (Ok outputs, h)) /\
  (forall self batch,
      gpt.ComposerGPT.eval_forward self batch None
      = gpt.ComposerGPT.forward self batch).
Proof. repeat split. Qed.

(** ** The checkpointing and sharding predicates *)

Lemma isinstance_composite (m : nn.module) (c : nn.pyclass) :
  nn.isinstance m c = true <-> exists ps ch, m = nn.Composite c ps ch.
Proof.
  split.
  - destruct m as [| | |c' ps ch]; simpl; try discriminate.
    intros H. exists ps, ch. f_equal.
    destruct c', c; simpl in H; try discriminate; reflexivity.
  - intros (ps & ch & ->). destruct c; reflexivity.
Qed.

(** C8.  In each stack the activation-checkpointing predicate and the
    FSDP wrap predicate hold of a module exactly when it is a transformer
    block of that stack ([GPTBlock], respectively [BERTBlock]), and of no
    other module; the two predicates agree on every module. *)
Theorem wrap_and_checkpoint_exactly_blocks (m : nn.module) :
  (gpt_old.GPT.fsdp_wrap_fn m = true
   <-> exists ps ch, m = nn.Composite nn.GPTBlock ps ch) /\
  gpt_old.GPT.activation_checkpointing_fn m = gpt_old.GPT.fsdp_wrap_fn m /\
  (mosaic_bert.MosaicBert.fsdp_wrap_fn m = true
   <-> exists ps ch, m = nn.Composite nn.BERTBlock ps ch) /\
  mosaic_bert.MosaicBert.activation_checkpointing_fn m
  = mosaic_bert.MosaicBert.fsdp_wrap_fn m.
Proof.
  repeat split; try (apply isinstance_composite); apply isinstance_composite.
Qed.

(** ** The attention selector of a block *)

Section LibraryConstructors.

Variables (rt : nn.runtime) (device : string).

Lemma allocate_meta : nn.allocate rt "meta" = Ok tt.
Proof. reflexivity. Qed.

Lemma rbind_raise {A B} (r : result A) (k : A -> result B) (e : exn) :
  rbind r k = Raise e ->
  r = Raise e \/ exists a, r = Ok a /\ k a = Raise e.
Proof. destruct r; simpl; intros H; [right; eauto | left; congruence]. Qed.

Lemma Dropout_init_cases (p : R) :
  ((0 <= p <= 1)%R /\ nn.Dropout_init p = Ok (nn.Composite nn.Dropout [] [])) \/
  (~ (0 <= p <= 1)%R /\ nn.Dropout_init p = Raise (dropout_error p)).
Proof.
  unfold nn.Dropout_init.
  destruct (Rlt_dec p 0); [right; split; [lra | reflexivity]|].
  destruct (Rlt_dec 1 p); [right; split; [lra | reflexivity]|].
  left. split; [lra | reflexivity].
Qed.

Lemma Dropout_init_ok (p : R) :
  (0 <= p <= 1)%R -> nn.Dropout_init p = Ok (nn.Composite nn.Dropout [] []).
Proof.
  intros Hp. destruct (Dropout_init_cases p) as [[_ H]|[H _]]; [exact H | contradiction].
Qed.

(** On a device that the machine refuses, the library constructors raise
    what the machine raises. *)
Section Refused.

Variable e : exn.
Hypothesis Hrefused : nn.allocate rt device = Raise e.

Lemma LayerNorm_init_refused (n : nat) : nn.LayerNorm_init rt n device = Raise e.
Proof. unfold nn.LayerNorm_init. rewrite Hrefused. reflexivity. Qed.

Lemma Embedding_init_refused (n d : nat) : nn.Embedding_init rt n d device = Raise e.
Proof. unfold nn.Embedding_init. rewrite Hrefused. reflexivity. Qed.

Lemma Linear_init_refused (i o : nat) (b : bool) :
  nn.Linear_init rt i o b device = Raise e.
Proof. unfold nn.Linear_init. rewrite Hrefused. reflexivity. Qed.

End Refused.

(** On a device that the machine allocates on, they build their
    modules. *)
Section Allocated.

Hypothesis Hallocated : nn.allocate rt device = Ok tt.

Lemma LayerNorm_init_allocated (n : nat) :
  nn.LayerNorm_init rt n device = Ok (nn.LayerNorm_new n).
Proof. unfold nn.LayerNorm_init. rewrite Hallocated. reflexivity. Qed.

Lemma Embedding_init_allocated (n d : nat) :
  nn.Embedding_init rt n d device = Ok (nn.Embedding_new n d).
Proof. unfold nn.Embedding_init. rewrite Hallocated. reflexivity. Qed.

Lemma Linear_init_allocated (i o : nat) (b : bool) :
  nn.Linear_init rt i o b device = Ok (nn.Linear_new i o b).
Proof. unfold nn.Linear_init. rewrite Hallocated. reflexivity. Qed.

(** The checks of the attention layers come before their allocations. *)
Lemma MultiheadAttention_init_allocated (d h : nat) :
  nn.MultiheadAttention_init rt d h device
  = if (h =? 0)%nat then
      Raise (ZeroDivisionError "integer division or modulo by zero")
    else if negb ((d / h * h =? d)%nat) then
      Raise (AssertionError "embed_dim must be divisible by num_heads")
    else
      Ok (nn.Composite nn.MultiheadAttention
            [("in_proj_weight"%string, nn.mkParam [(3 * d)%nat; d] nn.Default);
             ("in_proj_bias"%string, nn.mkParam [(3 * d)%nat] nn.Default)]
            [("out_proj"%string, nn.Linear_new d d true)]).
Proof.
  unfold nn.MultiheadAttention_init.
  rewrite Hallocated, Linear_init_allocated. reflexivity.
Qed.

Lemma FlashMHA_init_allocated (d h : nat) :
  nn.FlashMHA_init rt d h device
  = if (h =? 0)%nat then
      Raise (ZeroDivisionError "integer division or modulo by zero")
    else if negb ((d mod h =? 0)%nat) then
      Raise (AssertionError "self.kdim must be divisible by num_heads")
    else if negb (((d / h) mod 8 =? 0)%nat && (d / h <=? 128)%nat) then
      Raise (AssertionError "Only support head_dim <= 128 and divisible by 8")
    else
      Ok (nn.Composite nn.FlashMHA []
            [("Wqkv"%string, nn.Linear_new d (3 * d) true);
             ("inner_attn"%string, nn.Composite nn.FlashAttention [] []);
             ("out_proj"%string, nn.Linear_new d d true)]).
Proof.
  unfold nn.FlashMHA_init. rewrite !Linear_init_allocated. reflexivity.
Qed.

Lemma MultiheadAttention_init_not_ValueError (d h : nat) (msg : string) :
  nn.MultiheadAttention_init rt d h device <> Raise (ValueError msg).
Proof.
  rewrite MultiheadAttention_init_allocated.
  destruct (h =? 0)%nat; [discriminate|].
  destruct (negb _); discriminate.
Qed.

Lemma FlashMHA_init_not_ValueError (d h : nat) (msg : string) :
  nn.FlashMHA_init rt d h device <> Raise (ValueError msg).
Proof.
  rewrite FlashMHA_init_allocated.
  destruct (h =? 0)%nat; [discriminate|].
  destruct (negb _); [discriminate|].
  destruct (negb _); discriminate.
Qed.

Lemma MultiheadAttention_init_ok (d h : nat) :
  h <> 0%nat -> (d mod h = 0)%nat ->
  exists m, nn.MultiheadAttention_init rt d h device = Ok m.
Proof.
  intros Hh Hd. rewrite MultiheadAttention_init_allocated.
  destruct (Nat.eqb_spec h 0); [contradiction|].
  assert (d / h * h = d)%nat as ->.
  { pose proof (Nat.div_mod_eq d h). lia. }
  rewrite Nat.eqb_refl. simpl. eauto.
Qed.

Lemma FlashMHA_init_ok (d h : nat) :
  h <> 0%nat -> (d mod h = 0)%nat ->
  ((d / h) mod 8 = 0)%nat -> (d / h <= 128)%nat ->
  exists m, nn.FlashMHA_init rt d h device = Ok m.
Proof.
  intros Hh Hd H8 H128. rewrite FlashMHA_init_allocated.
  destruct (Nat.eqb_spec h 0); [contradiction|].
  rewrite Hd, H8. cbn [Nat.eqb negb andb].
  destruct (Nat.leb_spec (d / h) 128); [|lia]. cbn [negb]. eauto.
Qed.

(** The constructors of the repository, once the device allocates. *)
Lemma GPTMLP_init_allocated (cfg : Config) :
  gpt_old.GPTMLP.__init__ rt cfg device
  = Ok (nn.Composite nn.GPTMLP []
          [("mlp_up"%string,
            nn.Linear_new (d_model cfg) (mlp_ratio cfg * d_model cfg) true);
           ("mlp_act"%string, nn.Composite nn.GELU [] []);
           ("mlp_down"%string,
            nn.set_is_residual
              (nn.Linear_new (mlp_ratio cfg * d_model cfg) (d_model cfg) true))]).
Proof.
  unfold gpt_old.GPTMLP.__init__. rewrite !Linear_init_allocated. reflexivity.
Qed.

Lemma BERTMLP_init_allocated (cfg : Config) :
  mosaic_bert.BERTMLP.__init__ rt cfg device
  = Ok (nn.Composite nn.BERTMLP []
          [("mlp_up"%string,
            nn.Linear_new (d_model cfg) (mlp_ratio cfg * d_model cfg) true);
           ("mlp_act"%string, nn.Composite nn.GELU [] []);
           ("mlp_down"%string,
            nn.set_is_residual
              (nn.Linear_new (mlp_ratio cfg * d_model cfg) (d_model cfg) true))]).
Proof.
  unfold mosaic_bert.BERTMLP.__init__. rewrite !Linear_init_allocated. reflexivity.
Qed.

Lemma TorchCausalAttention_init_not_ValueError (cfg : Config) (msg : string) :
  gpt_old.TorchCausalAttention.__init__ rt cfg device <> Raise (ValueError msg).
Proof.
  unfold gpt_old.TorchCausalAttention.__init__. intros H.
  apply rbind_raise in H as [H|(a & _ & H)]; [|discriminate].
  exact (MultiheadAttention_init_not_ValueError _ _ _ H).
Qed.

Lemma FlashCausalAttention_init_not_ValueError (cfg : Config) (msg : string) :
  gpt_old.FlashCausalAttention.__init__ rt cfg device <> Raise (ValueError msg).
Proof.
  unfold gpt_old.FlashCausalAttention.__init__. intros H.
  apply rbind_raise in H as [H|(a & _ & H)]; [|discriminate].
  exact (FlashMHA_init_not_ValueError _ _ _ H).
Qed.

Lemma FlashNonCausalAttention_init_not_ValueError (cfg : Config) (msg : string) :
  mosaic_bert.FlashNonCausalAttention.__init__ rt cfg device <> Raise (ValueError msg).
Proof.
  unfold mosaic_bert.FlashNonCausalAttention.__init__.
  destruct (nn.flash_attn rt); [discriminate|]. intros H.
  apply rbind_raise in H as [H|(a & _ & H)]; [|discriminate].
  exact (FlashMHA_init_not_ValueError _ _ _ H).
Qed.

(** A block after its first layer normalisation: the attention layer
    that the selector names, then the rest, which fails only with the
    dropout rate. *)
Lemma GPTBlock_init_allocated (cfg : Config) :
  gpt_old.GPTBlock.__init__ rt cfg device
  = rbind (if String.eqb (attn_impl cfg) "torch" then
             gpt_old.TorchCausalAttention.__init__ rt cfg device
           else if String.eqb (attn_impl cfg) "flash" then
             gpt_old.FlashCausalAttention.__init__ rt cfg device
           else Raise (unknown_attn_impl cfg))
      (fun causal_attn =>
       rbind (nn.Dropout_init (resid_pdrop cfg)) (fun dropout =>
       Ok (nn.Composite nn.GPTBlock []
             [("ln_1"%string, nn.LayerNorm_new (d_model cfg));
              ("causal_attn"%string, causal_attn);
              ("ln_2"%string, nn.LayerNorm_new (d_model cfg));
              ("mlp"%string,
               nn.Composite nn.GPTMLP []
                 [("mlp_up"%string,
                   nn.Linear_new (d_model cfg) (mlp_ratio cfg * d_model cfg) true);
                  ("mlp_act"%string, nn.Composite nn.GELU [] []);
                  ("mlp_down"%string,
                   nn.set_is_residual
                     (nn.Linear_new (mlp_ratio cfg * d_model cfg) (d_model cfg) true))]);
              ("resid_attn_dropout"%string, dropout);
              ("resid_mlp_dropout"%string, dropout)]))).
Proof.
  unfold gpt_old.GPTBlock.__init__, unknown_attn_impl.
  rewrite !LayerNorm_init_allocated, GPTMLP_init_allocated. cbn [rbind].
  match goal with |- rbind ?r _ = _ => destruct r as [a|]; [|reflexivity] end.
  cbn [rbind].
  destruct (Dropout_init_cases (resid_pdrop cfg)) as [[_ ->]|[_ ->]]; reflexivity.
Qed.

Lemma BERTBlock_init_allocated (cfg : Config) :
  mosaic_bert.BERTBlock.__init__ rt cfg device
  = rbind (if String.eqb (attn_impl cfg) "flash" then
             mosaic_bert.FlashNonCausalAttention.__init__ rt cfg device
           else Raise (unknown_attn_impl cfg))
      (fun causal_attn =>
       rbind (nn.Dropout_init (resid_pdrop cfg)) (fun dropout =>
       Ok (nn.Composite nn.BERTBlock []
             [("ln_1"%string, nn.LayerNorm_new (d_model cfg));
              ("causal_attn"%string, causal_attn);
              ("ln_2"%string, nn.LayerNorm_new (d_model cfg));
              ("mlp"%string,
               nn.Composite nn.BERTMLP []
                 [("mlp_up"%string,
                   nn.Linear_new (d_model cfg) (mlp_ratio cfg * d_model cfg) true);
                  ("mlp_act"%string, nn.Composite nn.GELU [] []);
                  ("mlp_down"%string,
                   nn.set_is_residual
                     (nn.Linear_new (mlp_ratio cfg * d_model cfg) (d_model cfg) true))]);
              ("resid_attn_dropout"%string, dropout);
              ("resid_mlp_dropout"%string, dropout)]))).
Proof.
  unfold mosaic_bert.BERTBlock.__init__, unknown_attn_impl.
  rewrite !LayerNorm_init_allocated, BERTMLP_init_allocated. cbn [rbind].
  match goal with |- rbind ?r _ = _ => destruct r as [a|]; [|reflexivity] end.
  cbn [rbind].
  destruct (Dropout_init_cases (resid_pdrop cfg)) as [[_ ->]|[_ ->]]; reflexivity.
Qed.

(** The rest of a block's constructor, after the attention layer has
    been built, never raises the configuration error. *)
Lemma block_tail_not_unknown (cfg : Config) (p : R) (k : nn.module -> nn.module) :
  rbind (nn.Dropout_init p) (fun dropout => Ok (k dropout))
  <> Raise (unknown_attn_impl cfg).
Proof.
  destruct (Dropout_init_cases p) as [[_ ->]|[_ ->]]; discriminate.
Qed.

End Allocated.

End LibraryConstructors.

(** C7.  Constructing a block raises the configuration error
    [ValueError("Unknown attn_impl=...")] if and only if the selector is
    not an accepted value (['torch'] or ['flash'] for the GPT block,
    ['flash'] for the BERT block); on an accepted value, with sizes and
    a dropout rate that the library layers accept, the constructor
    returns the block (the BERT block imports the fused attention
    package in its constructor, and needs it installed).  The error is
    the constructor's result: no block exists on which [forward] could be
    called.  One thing comes before the test of the selector, the first
    layer normalisation, allocated on the device: on a device that the
    machine refuses the constructor raises what the machine raises,
    whatever the selector is; on every other device the selector
    decides. *)
Theorem block_init_raises_iff_unknown_selector (rt : nn.runtime) (cfg : Config)
    (device : string) :
  (forall e, nn.allocate rt device = Raise e ->
     gpt_old.GPTBlock.__init__ rt cfg device = Raise e /\
     mosaic_bert.BERTBlock.__init__ rt cfg device = Raise e) /\
  (nn.allocate rt device = Ok tt ->
   (gpt_old.GPTBlock.__init__ rt cfg device = Raise (unknown_attn_impl cfg)
    <-> attn_impl cfg <> "torch"%string /\ attn_impl cfg <> "flash"%string) /\
   (mosaic_bert.BERTBlock.__init__ rt cfg device = Raise (unknown_attn_impl cfg)
    <-> attn_impl cfg <> "flash"%string) /\
   (layers_accept cfg ->
    attn_impl cfg = "torch"%string \/ attn_impl cfg = "flash"%string ->
    exists m, gpt_old.GPTBlock.__init__ rt cfg device = Ok m) /\
   (nn.flash_attn rt = None ->
    layers_accept cfg ->
    attn_impl cfg = "flash"%string ->
    exists m, mosaic_bert.BERTBlock.__init__ rt cfg device = Ok m)).
Proof.
  split.
  { intros e He. split.
    - unfold gpt_old.GPTBlock.__init__.
      rewrite (LayerNorm_init_refused rt device e He). reflexivity.
    - unfold mosaic_bert.BERTBlock.__init__.
      rewrite (LayerNorm_init_refused rt device e He). reflexivity. }
  intros Halloc. split; [|split; [|split]].
  - rewrite (GPTBlock_init_allocated rt device Halloc).
    destruct (String.eqb_spec (attn_impl cfg) "torch") as [Ht|Ht].
    { split; [|intros [? _]; contradiction].
      intros H. apply rbind_raise in H as [H|(a & _ & H)].
      - exfalso.
        exact (TorchCausalAttention_init_not_ValueError rt device Halloc _ _ H).
      - exfalso. exact (block_tail_not_unknown _ _ _ H). }
    destruct (String.eqb_spec (attn_impl cfg) "flash") as [Hf|Hf].
    { split; [|intros [_ ?]; contradiction].
      intros H. apply rbind_raise in H as [H|(a & _ & H)].
      - exfalso.
        exact (FlashCausalAttention_init_not_ValueError rt device Halloc _ _ H).
      - exfalso. exact (block_tail_not_unknown _ _ _ H). }
    split; [intros _; split; assumption | intros _; reflexivity].
  - rewrite (BERTBlock_init_allocated rt device Halloc).
    destruct (String.eqb_spec (attn_impl cfg) "flash") as [Hf|Hf].
    { split; [|intros ?; contradiction].
      intros H. apply rbind_raise in H as [H|(a & _ & H)].
      - exfalso.
        exact (FlashNonCausalAttention_init_not_ValueError rt device Halloc _ _ H).
      - exfalso. exact (block_tail_not_unknown _ _ _ H). }
    split; [intros _; assumption | intros _; reflexivity].
  - intros (_ & Hh & Hd & Hp & Hflash) Hsel.
    rewrite (GPTBlock_init_allocated rt device Halloc), (Dropout_init_ok _ Hp).
    destruct Hsel as [Hsel|Hsel]; rewrite Hsel; cbn [String.eqb Ascii.eqb Bool.eqb].
    + unfold gpt_old.TorchCausalAttention.__init__.
      destruct (MultiheadAttention_init_ok rt device Halloc _ _ Hh Hd) as [m ->].
      cbn [rbind]. eauto.
    + unfold gpt_old.FlashCausalAttention.__init__.
      destruct (Hflash Hsel) as [H8 H128].
      destruct (FlashMHA_init_ok rt device Halloc _ _ Hh Hd H8 H128) as [m ->].
      cbn [rbind]. eauto.
  - intros Himport (_ & Hh & Hd & Hp & Hflash) Hsel.
    rewrite (BERTBlock_init_allocated rt device Halloc), (Dropout_init_ok _ Hp), Hsel.
    cbn [String.eqb Ascii.eqb Bool.eqb].
    unfold mosaic_bert.FlashNonCausalAttention.__init__. rewrite Himport.
    destruct (Hflash Hsel) as [H8 H128].
    destruct (FlashMHA_init_ok rt device Halloc _ _ Hh Hd H8 H128) as [m ->].
    cbn [rbind]. eauto.
Qed.

Lemma scenario_layers_accept (name attn_impl : string) :
  layers_accept (scenario name attn_impl).
Proof.
  unfold layers_accept. cbn [scenario d_model n_heads resid_pdrop].
  split; [lia|]. split; [lia|]. split; [reflexivity|]. split; [lra|].
  intros _. split; [reflexivity|]. cbn. lia.
Qed.

Lemma block_init_raises_iff_unknown_selector_witness :
  exists m, gpt_old.GPTBlock.__init__ every_device (scenario "gpt" "flash") "cpu" = Ok m.
Proof.
  apply (proj1 (proj2 (proj2 (proj2
           (block_init_raises_iff_unknown_selector every_device
              (scenario "gpt" "flash") "cpu")
           eq_refl)))).
  - apply scenario_layers_accept.
  - right. reflexivity.
Defined.

(** An unknown selector, concretely; a device that the machine does not
    have; an accepted selector without the package that it selects. *)
Lemma block_init_unknown_example :
  gpt_old.GPTBlock.__init__ no_gpu (scenario "gpt" "triton") "cpu"
  = Raise (ValueError "Unknown attn_impl=triton") /\
  gpt_old.GPTBlock.__init__ no_gpu (scenario "gpt" "triton") "cuda"
  = Raise (RuntimeError "No CUDA GPUs are available") /\
  mosaic_bert.BERTBlock.__init__ no_flash_attn (scenario "mosaic_bert" "flash") "cpu"
  = Raise (ImportError "No module named 'flash_attn'").
Proof. repeat split; reflexivity. Qed.

(** The other [ValueError] of the constructors is the dropout layer's,
    raised after the selector has been accepted: it is not the
    configuration error of the selector. *)
Lemma block_init_dropout_example (cfg : Config) :
  attn_impl cfg = "torch"%string -> n_heads cfg <> 0%nat ->
  (d_model cfg mod n_heads cfg = 0)%nat -> (1 < resid_pdrop cfg)%R ->
  gpt_old.GPTBlock.__init__ every_device cfg "cpu"
  = Raise (ValueErrorOf "dropout probability has to be between 0 and 1, but got "
             (resid_pdrop cfg)).
Proof.
  intros Hsel Hh Hd Hp.
  rewrite (GPTBlock_init_allocated every_device "cpu" eq_refl), Hsel.
  cbn [String.eqb Ascii.eqb Bool.eqb].
  unfold gpt_old.TorchCausalAttention.__init__.
  destruct (MultiheadAttention_init_ok every_device "cpu" eq_refl _ _ Hh Hd) as [m ->].
  cbn [rbind].
  destruct (Dropout_init_cases (resid_pdrop cfg)) as [[Hp' _]|[_ ->]]; [lra|].
  reflexivity.
Qed.

(** ** The initialisation pass *)

Section ModuleInduction.

Variable P : nn.module -> Prop.
Hypothesis HLinear : forall w b r, P (nn.Linear w b r).
Hypothesis HEmbedding : forall w, P (nn.Embedding w).
Hypothesis HLayerNorm : forall w b, P (nn.LayerNorm w b).
Hypothesis HComposite : forall c ps ch,
    Forall (fun p => P (snd p)) ch -> P (nn.Composite c ps ch).

Lemma module_tree_ind (m : nn.module) : P m.
Proof.
  revert m. fix IH 1. intros [w b r|w|w b|c ps ch].
  - apply HLinear.
  - apply HEmbedding.
  - apply HLayerNorm.
  - apply HComposite.
    induction ch as [|p ch IHch]; constructor; [apply IH | exact IHch].
Qed.

End ModuleInduction.

Lemma param_init_fn_same (cfg : Config) :
  mosaic_bert.MosaicBert.param_init_fn cfg = gpt_old.GPT.param_init_fn cfg.
Proof. reflexivity. Qed.

(** One call of [param_init_fn], class by class. *)
Lemma param_init_fn_Linear (cfg : Config) (w : nn.Param) (b : option nn.Param)
    (r : option bool) :
  (0 < n_layers cfg)%nat ->
  gpt_old.GPT.param_init_fn cfg (nn.Linear w b r)
  = Ok (nn.Linear
          (nn.mkParam (nn.shape w)
             (nn.Normal 0 (if default false r
                           then init_std cfg / sqrt (2 * INR (n_layers cfg))
                           else init_std cfg)%R))
          (option_map nn.zeros_ b) r).
Proof.
  intros HL. unfold gpt_old.GPT.param_init_fn.
  assert (H2 : (2 * n_layers cfg =? 0)%nat = false) by (apply Nat.eqb_neq; lia).
  destruct r as [[|]|]; cbn [default from_option id]; rewrite ?H2;
    cbn [rbind]; rewrite ?mult_INR; destruct b; reflexivity.
Qed.

Lemma param_init_fn_Embedding (cfg : Config) (w : nn.Param) :
  gpt_old.GPT.param_init_fn cfg (nn.Embedding w)
  = Ok (nn.Embedding (nn.mkParam (nn.shape w) (nn.Normal 0 (init_std cfg)))).
Proof. reflexivity. Qed.

Lemma param_init_fn_LayerNorm (cfg : Config) (w b : nn.Param) :
  gpt_old.GPT.param_init_fn cfg (nn.LayerNorm w b)
  = Ok (nn.LayerNorm (nn.mkParam (nn.shape w) nn.Ones)
                     (nn.mkParam (nn.shape b) nn.Zeros)).
Proof. reflexivity. Qed.

Lemma param_init_fn_Composite (cfg : Config) c ps ch :
  gpt_old.GPT.param_init_fn cfg (nn.Composite c ps ch) = Ok (nn.Composite c ps ch).
Proof. reflexivity. Qed.

(** The whole pass: it completes, and every module of the result has been
    initialised by the policy. *)
Lemma apply_param_init_fn (cfg : Config) (m : nn.module) :
  (0 < n_layers cfg)%nat ->
  exists m', nn.apply (gpt_old.GPT.param_init_fn cfg) m = Ok m' /\
             Forall (initialised cfg) (nn.modules m').
Proof.
  intros HL. induction m as [w b r|w|w b|c ps ch IH] using module_tree_ind.
  - cbn [nn.apply]. rewrite param_init_fn_Linear by exact HL.
    eexists. split; [reflexivity|]. cbn [nn.modules].
    constructor; [|constructor]. cbn [initialised nn.fill].
    split; [reflexivity|]. destruct b; intros b' Hb; inversion Hb. reflexivity.
  - cbn [nn.apply]. rewrite param_init_fn_Embedding.
    eexists. split; [reflexivity|]. repeat constructor.
  - cbn [nn.apply]. rewrite param_init_fn_LayerNorm.
    eexists. split; [reflexivity|]. repeat constructor.
  - cbn [nn.apply nn.modules].
    match goal with
    | |- context [rbind (?f ch) _] =>
        assert (Hch : exists ch', f ch = Ok ch' /\
                  Forall (initialised cfg)
                    ((fix go (l : list (string * nn.module)) : list nn.module :=
                        match l with
                        | [] => []
                        | (_, s) :: l' => nn.modules s ++ go l'
                        end) ch'))
    end.
    { induction IH as [|[n s] l (s' & Hs & Hs') _ (l' & Hl & Hl')].
      - exists []. split; [reflexivity | constructor].
      - cbn [snd] in Hs. rewrite Hs, Hl. cbn [rbind].
        eexists. split; [reflexivity|].
        apply Forall_app. split; assumption. }
    destruct Hch as (ch' & -> & Hch'). cbn [rbind].
    rewrite param_init_fn_Composite.
    eexists. split; [reflexivity|]. cbn [nn.modules].
    constructor; [exact I | exact Hch'].
Qed.

(** The pass writes parameters and nothing else. *)
Lemma apply_param_init_fn_architecture (cfg : Config) (m m' : nn.module) :
  nn.apply (gpt_old.GPT.param_init_fn cfg) m = Ok m' ->
  architecture m' = architecture m.
Proof.
  revert m'. induction m as [w b r|w|w b|c ps ch IH] using module_tree_ind;
    intros m'.
  - cbn [nn.apply]. unfold gpt_old.GPT.param_init_fn.
    destruct r as [[|]|]; cbn [default from_option id];
      try destruct (2 * n_layers cfg =? 0)%nat; cbn [rbind];
      intros H; inversion H; destruct b; reflexivity.
  - cbn [nn.apply]. rewrite param_init_fn_Embedding.
    intros H; inversion H; reflexivity.
  - cbn [nn.apply]. rewrite param_init_fn_LayerNorm.
    intros H; inversion H; reflexivity.
  - cbn [nn.apply].
    match goal with
    | |- context [rbind (?f ch) _] =>
        assert (Hch : forall ch', f ch = Ok ch' ->
                  (fix go (l : list (string * nn.module)) :=
                     match l with
                     | [] => []
                     | (n, s) :: l' => (n, architecture s) :: go l'
                     end) ch'
                  = (fix go (l : list (string * nn.module)) :=
                       match l with
                       | [] => []
                       | (n, s) :: l' => (n, architecture s) :: go l'
                       end) ch);
        [|destruct (f ch) as [ch'|e] eqn:Hf]
    end.
    { induction IH as [|[n s] l Hs _ Hl]; intros ch'.
      - intros H; inversion H; reflexivity.
      - cbn [snd] in Hs.
        destruct (nn.apply (gpt_old.GPT.param_init_fn cfg) s) as [s'|] eqn:Es;
          cbn [rbind]; [|discriminate].
        match goal with
        | |- context [rbind ?r _] => destruct r as [l'|] eqn:El
        end; cbn [rbind]; [|discriminate].
        intros H; inversion H; subst ch'.
        rewrite (Hs s' eq_refl), (Hl l' eq_refl). reflexivity. }
    + cbn [rbind]. rewrite param_init_fn_Composite.
      intros H; inversion H; subst m'. cbn [architecture].
      rewrite (Hch ch' eq_refl). reflexivity.
    + cbn [rbind]. discriminate.
Qed.



(** A model that the constructor returns was built on a device that the
    machine allocates on. *)
Lemma gpt_init_ok_allocated (rt : nn.runtime) (cfg : Config) (device : string)
    (m : nn.module) :
  gpt_old.GPT.__init__ rt cfg device = Ok m -> nn.allocate rt device = Ok tt.
Proof.
  destruct (nn.allocate rt device) as [[]|e] eqn:H; [reflexivity|].
  unfold gpt_old.GPT.__init__.
  rewrite (Embedding_init_refused rt device e H). discriminate.
Qed.

Lemma bert_init_ok_allocated (rt : nn.runtime) (cfg : Config) (m : nn.module) :
  mosaic_bert.MosaicBert.__init__ rt cfg = Ok m ->
  nn.allocate rt (device cfg) = Ok tt.
Proof.
  destruct (nn.allocate rt (device cfg)) as [[]|e] eqn:H; [reflexivity|].
  unfold mosaic_bert.MosaicBert.__init__.
  rewrite (Embedding_init_refused rt (device cfg) e H).
  destruct (negb _); discriminate.
Qed.

(** A stack without blocks has no residual branch, and the pass over it
    divides by nothing. *)
Lemma gpt_init_without_blocks (rt : nn.runtime) (cfg : Config) (device : string)
    (m : nn.module) :
  n_layers cfg = 0%nat -> device <> "meta"%string ->
  gpt_old.GPT.__init__ rt cfg device = Ok m ->
  Forall (initialised cfg) (nn.modules m).
Proof.
  intros HL Hdev Hinit.
  pose proof (gpt_init_ok_allocated rt cfg device m Hinit) as Halloc.
  revert Hinit. unfold gpt_old.GPT.__init__. rewrite HL.
  rewrite !(Embedding_init_allocated rt device Halloc),
          (LayerNorm_init_allocated rt device Halloc),
          (Linear_init_allocated rt device Halloc).
  destruct (Dropout_init_cases (emb_pdrop cfg)) as [[_ ->]|[_ ->]];
    cbn [rbind]; [|discriminate].
  cbn [seq rmapM rbind imap].
  destruct (String.eqb_spec device "meta") as [|_]; [contradiction|]. cbn [negb].
  cbn. intros H. injection H as <-.
  cbn. repeat constructor; cbn; try reflexivity; discriminate.
Qed.

(** The models that the GPT constructor initialises follow the policy,
    with blocks or without. *)
Lemma gpt_init_follows_policy (rt : nn.runtime) (cfg : Config) (device : string)
    (m : nn.module) :
  device <> "meta"%string ->
  gpt_old.GPT.__init__ rt cfg device = Ok m ->
  Forall (initialised cfg) (nn.modules m).
Proof.
  intros Hdev Hinit.
  destruct (Nat.eq_dec (n_layers cfg) 0%nat) as [HL|HL].
  - exact (gpt_init_without_blocks rt cfg device m HL Hdev Hinit).
  - pose proof (gpt_init_ok_allocated rt cfg device m Hinit) as Halloc.
    unfold gpt_old.GPT.__init__ in Hinit.
    rewrite !(Embedding_init_allocated rt device Halloc),
            (LayerNorm_init_allocated rt device Halloc),
            (Linear_init_allocated rt device Halloc) in Hinit.
    cbn [rbind] in Hinit.
    destruct (nn.Dropout_init _); cbn [rbind] in Hinit; [|discriminate].
    destruct (rmapM _ _); cbn [rbind] in Hinit; [|discriminate].
    destruct (String.eqb_spec device "meta") as [|_]; [contradiction|].
    cbn [negb] in Hinit.
    match type of Hinit with
    | nn.apply _ ?self = _ =>
        destruct (apply_param_init_fn cfg self) as (m' & Hrun & Hall); [lia|]
    end.
    rewrite Hrun in Hinit. injection Hinit as <-. exact Hall.
Qed.

(** ** The loss *)

Section CrossEntropy.

Let nll (x : vec) (t : Z) : R :=
  if decide (t = IGNORE) then 0%R else (- F.log_softmax_at x (Z.to_nat t))%R.

Let weight (t : Z) : R := if decide (t = IGNORE) then 0%R else 1%R.

Lemma vsum_cons (a : R) (l : vec) : vsum (a :: l) = (a + vsum l)%R.
Proof. reflexivity. Qed.

Lemma included_cons (x : vec) (t : Z) (input : list vec) (target : list Z) :
  included (x :: input) (t :: target)
  = if decide (t = IGNORE) then included input target
    else (x, t) :: included input target.
Proof.
  unfold included. cbn [zip_with]. rewrite filter_cons. cbn [snd].
  destruct (decide (t = IGNORE)) as [Ht|Ht].
  - rewrite decide_False by (intros H; apply H; exact Ht). reflexivity.
  - rewrite decide_True by exact Ht. reflexivity.
Qed.

Lemma included_sum (input : list vec) (target : list Z) :
  length input = length target ->
  vsum (zip_with nll input target)
  = vsum (map (fun p => (- F.log_softmax_at (fst p) (Z.to_nat (snd p)))%R)
              (included input target)).
Proof.
  revert target. induction input as [|x input IH]; intros [|t target] Hlen;
    try discriminate; [reflexivity|].
  injection Hlen as Hlen. specialize (IH target Hlen).
  cbn [zip_with]. rewrite vsum_cons, included_cons, IH. unfold nll.
  destruct (decide (t = IGNORE)) as [Ht|Ht].
  - lra.
  - cbn [map fst snd]. rewrite vsum_cons. reflexivity.
Qed.

Lemma included_count (input : list vec) (target : list Z) :
  length input = length target ->
  vsum (map weight target) = INR (length (included input target)).
Proof.
  revert target. induction input as [|x input IH]; intros [|t target] Hlen;
    try discriminate; [reflexivity|].
  injection Hlen as Hlen. specialize (IH target Hlen).
  cbn [map]. rewrite vsum_cons, included_cons, IH. unfold weight.
  destruct (decide (t = IGNORE)) as [Ht|Ht].
  - lra.
  - rewrite length_cons, S_INR. lra.
Qed.

Lemma included_nil (input : list vec) (target : list Z) :
  length input = length target ->
  included input target = [] <-> Forall (fun t => t = IGNORE) target.
Proof.
  revert target. induction input as [|x input IH]; intros [|t target] Hlen;
    try discriminate.
  - split; [constructor | reflexivity].
  - injection Hlen as Hlen. specialize (IH target Hlen).
    rewrite included_cons.
    destruct (decide (t = IGNORE)) as [Ht|Ht].
    + rewrite IH. split.
      * intros H. constructor; assumption.
      * intros H. inversion H. assumption.
    + split; [discriminate|]. intros H. inversion H. contradiction.
Qed.

(** Targets that are class indices wherever they are not the sentinel. *)
Lemma bad_target_None (input : list vec) (target : list Z) :
  (forall n x t, input !! n = Some x -> target !! n = Some t -> t <> IGNORE ->
                 0 <= t < Z.of_nat (length x)) ->
  F.bad_target input target IGNORE = None.
Proof.
  revert target. induction input as [|x input IH]; intros [|t target] H;
    try reflexivity.
  cbn [F.bad_target].
  assert (IH' : F.bad_target input target IGNORE = None).
  { apply IH. intros n x' t'. exact (H (S n) x' t'). }
  destruct (decide (t = IGNORE)); [exact IH'|].
  specialize (H 0%nat x t eq_refl eq_refl n).
  destruct (Z.leb_spec 0 t); [|lia].
  destruct (Z.ltb_spec t (Z.of_nat (length x))); [|lia].
  exact IH'.
Qed.

(** [F.cross_entropy] with [ignore_index = -100] is the mean over the
    included positions. *)
Lemma cross_entropy_is_mean_over_included (input : list vec) (target : list Z) :
  length input = length target ->
  (forall n x t, input !! n = Some x -> target !! n = Some t -> t <> IGNORE ->
                 0 <= t < Z.of_nat (length x)) ->
  F.cross_entropy input target (-100) = Ok (mean_over_included input target).
Proof.
  intros Hlen Hrange. unfold F.cross_entropy.
  rewrite Hlen, Nat.eqb_refl. cbn [negb].
  change (-100) with IGNORE.
  rewrite (bad_target_None _ _ Hrange).
  unfold mean_over_included.
  destruct (decide (Forall (fun t => t = IGNORE) target)) as [Hall|Hall].
  - apply (included_nil input target Hlen) in Hall. rewrite Hall. reflexivity.
  - destruct (included input target) as [|p inc] eqn:Hinc.
    + exfalso. apply Hall. apply (included_nil input target Hlen). exact Hinc.
    + rewrite <- Hinc.
      rewrite <- (included_sum input target Hlen).
      rewrite <- (included_count input target Hlen).
      reflexivity.
Qed.

(** Rows whose target is the sentinel do not enter [F.cross_entropy],
    whether it returns or raises. *)
Lemma cross_entropy_ignores (input input' : list vec) (target : list Z) :
  length input' = length input ->
  (forall n t, target !! n = Some t -> t <> IGNORE -> input' !! n = input !! n) ->
  F.cross_entropy input' target (-100) = F.cross_entropy input target (-100).
Proof.
  intros Hlen Hsame. unfold F.cross_entropy. rewrite Hlen.
  destruct (negb (length input =? length target)%nat); [reflexivity|].
  change (-100) with IGNORE.
  assert (Hbad : F.bad_target input' target IGNORE = F.bad_target input target IGNORE
                 /\ zip_with nll input' target = zip_with nll input target).
  { clear -Hlen Hsame. revert input' target Hlen Hsame.
    induction input as [|x input IH]; intros [|x' input'] [|t target] Hlen Hsame;
      try discriminate; try (split; reflexivity).
    injection Hlen as Hlen.
    destruct (IH input' target Hlen) as [IHb IHz].
    { intros n t'. exact (Hsame (S n) t'). }
    cbn [F.bad_target zip_with]. unfold nll at 1 3.
    destruct (decide (t = IGNORE)) as [Ht|Ht].
    - rewrite IHb. fold nll. rewrite IHz. split; reflexivity.
    - specialize (Hsame 0%nat t eq_refl Ht). injection Hsame as ->.
      rewrite IHb. fold nll. rewrite IHz. split; reflexivity. }
  destruct Hbad as [-> Hz].
  destruct (F.bad_target input target IGNORE); [reflexivity|].
  unfold nll in Hz. rewrite Hz. reflexivity.
Qed.

End CrossEntropy.

Lemma loss_of_run (get_targets : Batch -> M LongTensor) (outputs : tensor3)
    (batch : Batch) (h h1 : heap) (t : LongTensor) (targets : list Z) :
  get_targets batch h = (Ok t, h1) ->
  h1 !! data_ptr t = Some targets ->
  loss_of get_targets outputs batch h
  = (F.cross_entropy (concat outputs) targets (-100), h1).
Proof.
  intros Hgt Ht. unfold loss_of, bind, torch.view_flat, load, lift.
  rewrite Hgt, Ht. reflexivity.
Qed.

(** C6.  [loss(outputs, batch)] is the cross-entropy of the outputs
    flattened to [(N, vocab_size)] against the targets flattened to
    [(N,)], the positions whose target is [-100] left out and the rest
    averaged over the positions that are left; and two calls that differ
    only in the logits at positions whose target is [-100] give the same
    loss.  The targets are what the adapter's own [get_targets] returns
    (for the causal adapter, the shifted labels). *)
Theorem loss_is_mean_over_included
    (loss : tensor3 -> Batch -> M scalar) (get_targets : Batch -> M LongTensor)
    (outputs : tensor3) (batch : Batch) (h h1 : heap) (t : LongTensor)
    (targets : list Z) :
  (exists self, loss = gpt_old.ComposerGPT.loss self /\
                get_targets = gpt_old.ComposerGPT.get_targets) \/
  (exists self, loss = mosaic_bert.ComposerMosaicBert.loss self /\
                get_targets = mosaic_bert.ComposerMosaicBert.get_targets) \/
  (exists self, loss = gpt.ComposerGPT.loss self /\
                get_targets = gpt.ComposerGPT.get_targets) ->
  get_targets batch h = (Ok t, h1) ->
  h1 !! data_ptr t = Some targets ->
  (length (concat outputs) = length targets ->
   (forall n x y, concat outputs !! n = Some x -> targets !! n = Some y ->
                  y <> -100 -> 0 <= y < Z.of_nat (length x)) ->
   fst (loss outputs batch h) = Ok (mean_over_included (concat outputs) targets)) /\
  (forall outputs',
     length (concat outputs') = length (concat outputs) ->
     (forall n y, targets !! n = Some y -> y <> -100 ->
                  concat outputs' !! n = concat outputs !! n) ->
     fst (loss outputs' batch h) = fst (loss outputs batch h)).
Proof.
  intros Hadapter Hgt Ht.
  assert (loss = loss_of get_targets) as ->.
  { destruct Hadapter as [(self & -> & ->)|[(self & -> & ->)|(self & -> & ->)]];
      reflexivity. }
  split.
  - intros Hlen Hrange.
    rewrite (loss_of_run _ _ _ _ _ _ _ Hgt Ht). cbn [fst].
    apply cross_entropy_is_mean_over_included; assumption.
  - intros outputs' Hlen Hsame.
    rewrite !(loss_of_run _ _ _ _ _ _ _ Hgt Ht). cbn [fst].
    apply cross_entropy_ignores; assumption.
Qed.

Lemma loss_is_mean_over_included_witness :
  fst (gpt.ComposerGPT.loss (gpt.ComposerGPT.mk (fun _ _ => Ok []))
         [[zeros 8; zeros 8]]
         (mkBatch (mkLong 1 1 2) (mkLong 2 1 2) (mkLong 3 1 2))
         {[ 3%positive := [5; 6] ]})
  = Ok (mean_over_included [zeros 8; zeros 8] [6; -100]).
Proof.
  edestruct (fun h1 t =>
               loss_is_mean_over_included
                 (gpt.ComposerGPT.loss (gpt.ComposerGPT.mk (fun _ _ => Ok [])))
                 gpt.ComposerGPT.get_targets
                 [[zeros 8; zeros 8]]
                 (mkBatch (mkLong 1 1 2) (mkLong 2 1 2) (mkLong 3 1 2))
                 {[ 3%positive := [5; 6] ]} h1 t [6; -100]) as [Hmean _].
  - right. right. eexists. split; reflexivity.
  - apply get_targets_run. simpl. lia.
  - cbn [data_ptr]. rewrite lookup_insert_eq. reflexivity.
  - apply Hmean.
    + reflexivity.
    + intros [|[|n]] x y; simpl; intros Hx Hy Hne; inversion Hx; inversion Hy;
        subst; simpl; lia.
Defined.

(** ** Shapes and the length check of [forward] *)

Lemma map_fmap {A B} (f : A -> B) (l : list A) : map f l = f <$> l.
Proof. reflexivity. Qed.

Lemma has_dims_lookup (B S : nat) (x : tensor3) :
  has_dims B S x <->
  length x = B /\ forall b s, x !! b = Some s -> length s = S.
Proof. unfold has_dims. rewrite Forall_lookup. reflexivity. Qed.

Lemma has_dims_tmap (f : vec -> vec) (B S : nat) (x : tensor3) :
  has_dims B S x -> has_dims B S (tmap f x).
Proof.
  intros [HB HS]. split.
  - unfold tmap. rewrite length_map. exact HB.
  - unfold tmap. rewrite map_fmap. apply Forall_fmap.
    eapply Forall_impl; [exact HS|]. intros s Hs. cbn. rewrite length_map. exact Hs.
Qed.

Lemma has_dims_imap (f : nat -> list vec -> list vec) (B S : nat) (x : tensor3) :
  (forall b s, length (f b s) = length s) ->
  has_dims B S x -> has_dims B S (imap f x).
Proof.
  intros Hf. rewrite !has_dims_lookup. intros [HB HS]. split.
  - rewrite length_imap. exact HB.
  - intros b s. rewrite list_lookup_imap.
    destruct (x !! b) as [s0|] eqn:Hb; [|discriminate].
    intros H. injection H as <-. rewrite Hf. eauto.
Qed.

Lemma has_dims_Dropout (d : Dropout.t) (B S : nat) (x : tensor3) :
  has_dims B S x -> has_dims B S (Dropout.forward d x).
Proof.
  apply has_dims_imap. intros b s. apply length_imap.
Qed.

Lemma has_dims_tadd (B S : nat) (x y : tensor3) :
  has_dims B S x -> has_dims B S y -> has_dims B S (tadd x y).
Proof.
  rewrite !has_dims_lookup. intros [HxB HxS] [HyB HyS]. split.
  - unfold tadd. rewrite length_zip_with. lia.
  - intros b s. unfold tadd. rewrite lookup_zip_with.
    destruct (x !! b) as [xs|] eqn:Hx; [|discriminate].
    destruct (y !! b) as [ys|] eqn:Hy; [|discriminate].
    cbn. intros H. injection H as <-.
    rewrite length_zip_with, (HxS _ _ Hx), (HyS _ _ Hy). lia.
Qed.

Lemma FlashMHA_attend_length (m : FlashMHA.t) kpm (b : nat) (s : list vec) :
  length (FlashMHA.attend m kpm b s) = length s.
Proof.
  unfold FlashMHA.attend, F.multi_head_attention.
  rewrite length_map, !length_imap, length_map, length_map. reflexivity.
Qed.

Lemma MultiheadAttention_attend_length (m : MultiheadAttention.t) mask (b : nat)
    (s : list vec) :
  length (MultiheadAttention.attend m mask b s) = length s.
Proof.
  unfold MultiheadAttention.attend, F.multi_head_attention.
  rewrite length_map, !length_imap, length_map, length_map. reflexivity.
Qed.

(** The mask of the torch attention layer is square, of the size of the
    longest sequence (not of the sequence at hand). *)
Lemma torch_mask_shape_ok (a : gpt_old.TorchCausalAttention.t) (S : nat) :
  MultiheadAttention.mask_shape_ok S (gpt_old.TorchCausalAttention.mask a)
  = (max_seq_len (gpt_old.TorchCausalAttention.cfg a) =? S)%nat.
Proof.
  unfold MultiheadAttention.mask_shape_ok, gpt_old.TorchCausalAttention.mask.
  set (n := max_seq_len _).
  unfold torch.tril, torch.ones. rewrite length_imap, length_replicate.
  destruct (Nat.eqb_spec n S) as [->|Hne]; [|reflexivity].
  cbn [andb]. apply forallb_forall. intros r Hr.
  apply list_elem_of_In, list_elem_of_lookup in Hr as [i Hi].
  rewrite list_lookup_imap in Hi.
  destruct (replicate S (replicate S 1%R) !! i) as [r0|] eqn:Hr0; [|discriminate].
  injection Hi as <-. apply lookup_replicate in Hr0 as [-> _].
  rewrite length_imap, length_replicate. apply Nat.eqb_refl.
Qed.

(** A block with the torch attention layer runs on sequences of exactly
    [max_seq_len] positions, and on no other. *)
Lemma torch_block_forward (blk : gpt_old.GPTBlock.t) (a : gpt_old.TorchCausalAttention.t)
    (B S : nat) (x : tensor3) kpm :
  gpt_old.GPTBlock.causal_attn blk = gpt_old.GPTBlock.Torch a ->
  has_dims B S x ->
  if (max_seq_len (gpt_old.TorchCausalAttention.cfg a) =? S)%nat
  then exists y, gpt_old.GPTBlock.forward blk S x kpm = Ok y /\ has_dims B S y
  else exists msg, gpt_old.GPTBlock.forward blk S x kpm = Raise (RuntimeError msg).
Proof.
  intros Ha Hx. unfold gpt_old.GPTBlock.forward. rewrite Ha.
  cbn [gpt_old.GPTBlock.attend].
  unfold gpt_old.TorchCausalAttention.forward, MultiheadAttention.forward.
  rewrite torch_mask_shape_ok.
  destruct (max_seq_len (gpt_old.TorchCausalAttention.cfg a) =? S)%nat.
  - cbn [rbind fst]. eexists. split; [reflexivity|].
    assert (H1 : has_dims B S
              (tadd x (Dropout.forward (gpt_old.GPTBlock.resid_attn_dropout blk)
                 (imap (MultiheadAttention.attend
                          (gpt_old.TorchCausalAttention.mha a)
                          (gpt_old.TorchCausalAttention.mask a))
                       (tmap (LayerNorm.forward (gpt_old.GPTBlock.ln_1 blk)) x))))).
    { apply has_dims_tadd; [exact Hx|]. apply has_dims_Dropout.
      apply has_dims_imap; [apply MultiheadAttention_attend_length|].
      apply has_dims_tmap. exact Hx. }
    apply has_dims_tadd; [exact H1|].
    apply has_dims_Dropout. do 2 apply has_dims_tmap. exact H1.
  - cbn [rbind]. eauto.
Qed.

Lemma flash_block_forward (blk : gpt_old.GPTBlock.t) (a : gpt_old.FlashCausalAttention.t)
    (B S : nat) (x : tensor3) kpm :
  gpt_old.GPTBlock.causal_attn blk = gpt_old.GPTBlock.Flash a ->
  has_dims B S x ->
  exists y, gpt_old.GPTBlock.forward blk S x kpm = Ok y /\ has_dims B S y.
Proof.
  intros Ha Hx. unfold gpt_old.GPTBlock.forward. rewrite Ha.
  cbn [gpt_old.GPTBlock.attend rbind fst].
  unfold gpt_old.FlashCausalAttention.forward, FlashMHA.forward. cbn [fst].
  eexists. split; [reflexivity|].
  assert (H1 : has_dims B S
            (tadd x (Dropout.forward (gpt_old.GPTBlock.resid_attn_dropout blk)
               (imap (FlashMHA.attend (gpt_old.FlashCausalAttention.mha a) kpm)
                     (tmap (LayerNorm.forward (gpt_old.GPTBlock.ln_1 blk)) x))))).
  { apply has_dims_tadd; [exact Hx|]. apply has_dims_Dropout.
    apply has_dims_imap; [apply FlashMHA_attend_length|].
    apply has_dims_tmap. exact Hx. }
  apply has_dims_tadd; [exact H1|].
  apply has_dims_Dropout. do 2 apply has_dims_tmap. exact H1.
Qed.

Lemma block_accepts_dec (S : nat) (blk : gpt_old.GPTBlock.t) :
  {block_accepts S blk} + {~ block_accepts S blk}.
Proof.
  unfold block_accepts. destruct (gpt_old.GPTBlock.causal_attn blk).
  - apply Nat.eq_dec.
  - left. exact I.
Qed.

Lemma block_forward_accepts (blk : gpt_old.GPTBlock.t) (B S : nat) (x : tensor3) kpm :
  has_dims B S x ->
  (block_accepts S blk ->
   exists y, gpt_old.GPTBlock.forward blk S x kpm = Ok y /\ has_dims B S y) /\
  (~ block_accepts S blk ->
   exists msg, gpt_old.GPTBlock.forward blk S x kpm = Raise (RuntimeError msg)).
Proof.
  intros Hx. unfold block_accepts.
  destruct (gpt_old.GPTBlock.causal_attn blk) as [a|a] eqn:Ha.
  - pose proof (torch_block_forward blk a B S x kpm Ha Hx) as H.
    destruct (Nat.eqb_spec (max_seq_len (gpt_old.TorchCausalAttention.cfg a)) S);
      split; intros; try contradiction; exact H.
  - split; [intros _ | intros H; exfalso; apply H; exact I].
    exact (flash_block_forward blk a B S x kpm Ha Hx).
Qed.

Lemma run_blocks_accept (bs : list gpt_old.GPTBlock.t) (B S : nat) (x : tensor3) kpm :
  has_dims B S x ->
  Forall (block_accepts S) bs ->
  exists y, gpt_old.GPT.run_blocks bs S x kpm = Ok y /\ has_dims B S y.
Proof.
  intros Hx Hbs. revert x Hx.
  induction Hbs as [|blk bs Hblk _ IH]; intros x Hx.
  - exists x. split; [reflexivity | exact Hx].
  - cbn [gpt_old.GPT.run_blocks].
    destruct (proj1 (block_forward_accepts blk B S x kpm Hx) Hblk) as (y & -> & Hy).
    cbn [rbind]. exact (IH y Hy).
Qed.

Lemma run_blocks_reject (bs : list gpt_old.GPTBlock.t) (B S : nat) (x : tensor3) kpm :
  has_dims B S x ->
  Exists (fun blk => ~ block_accepts S blk) bs ->
  exists msg, gpt_old.GPT.run_blocks bs S x kpm = Raise (RuntimeError msg).
Proof.
  intros Hx Hbs. revert x Hx.
  induction Hbs as [blk bs Hblk|blk bs _ IH]; intros x Hx;
    cbn [gpt_old.GPT.run_blocks].
  - destruct (proj2 (block_forward_accepts blk B S x kpm Hx) Hblk) as (msg & ->).
    cbn [rbind]. eauto.
  - destruct (block_accepts_dec S blk) as [Hblk|Hblk].
    + destruct (proj1 (block_forward_accepts blk B S x kpm Hx) Hblk) as (y & -> & Hy).
      cbn [rbind]. exact (IH y Hy).
    + destruct (proj2 (block_forward_accepts blk B S x kpm Hx) Hblk) as (msg & ->).
      cbn [rbind]. eauto.
Qed.

(** Looking up valid indices succeeds, one row per index. *)
Lemma embedding_valid (W : list vec) (ids : list Z) :
  Forall (fun id => 0 <= id < Z.of_nat (length W)) ids ->
  exists e, F.embedding ids W = Ok e /\ length e = length ids.
Proof.
  induction 1 as [|id ids Hid _ (e & He & Hlen)].
  - exists []. split; reflexivity.
  - unfold F.embedding in *. cbn [rmapM]. unfold F.embedding1 at 1.
    destruct (Z.leb_spec 0 id); [|lia].
    destruct (W !! Z.to_nat id) as [v|] eqn:Hv.
    + cbn [rbind]. rewrite He. cbn [rbind]. eexists. split; [reflexivity|].
      cbn [length]. rewrite Hlen. reflexivity.
    + apply lookup_ge_None in Hv. lia.
Qed.

Lemma row_length {A} (n : nat) (d : list A) (b m : nat) :
  length d = (m * n)%nat -> (b < m)%nat -> length (row n d b) = n.
Proof.
  intros Hd Hb. unfold row. rewrite length_take, length_drop. nia.
Qed.

Lemma row_Forall {A} (P : A -> Prop) (n : nat) (d : list A) (b : nat) :
  Forall P d -> Forall P (row n d b).
Proof. intros H. unfold row. apply Forall_take, Forall_drop, H. Qed.

(** The token embeddings of a valid batch: [B] sequences of [S] rows. *)
Lemma token_embeddings_rows (W : list vec) (ids : LongValue) (l : list nat) :
  valid_ids (length W) ids ->
  Forall (fun b => (b < shape0 ids)%nat) l ->
  exists e, rmapM (fun r => F.embedding r W)
                  (map (row (shape1 ids) (flat ids)) l) = Ok e /\
            has_dims (length l) (shape1 ids) e.
Proof.
  intros [Hlen Hids] Hrows.
  induction Hrows as [|b l Hb _ (e & He & HeB & HeS)].
  - exists []. split; [reflexivity|]. split; [reflexivity | constructor].
  - cbn [map rmapM].
    destruct (embedding_valid W (row (shape1 ids) (flat ids) b)) as (r & -> & Hr).
    { apply row_Forall. exact Hids. }
    cbn [rbind]. rewrite He. cbn [rbind]. eexists. split; [reflexivity|].
    split; [cbn [length]; f_equal; exact HeB|].
    constructor; [|exact HeS].
    rewrite Hr. apply (row_length _ _ _ (shape0 ids)); assumption.
Qed.

Lemma token_embeddings (W : list vec) (ids : LongValue) :
  valid_ids (length W) ids ->
  exists e, rmapM (fun r => F.embedding r W) (rows (shape0 ids) (shape1 ids) (flat ids))
            = Ok e /\ has_dims (shape0 ids) (shape1 ids) e.
Proof.
  intros Hids.
  destruct (token_embeddings_rows W ids (seq 0 (shape0 ids)) Hids) as (e & He & Hdims).
  { apply Forall_forall. intros b Hb. apply elem_of_seq in Hb. lia. }
  rewrite length_seq in Hdims. exists e. split; assumption.
Qed.

Lemma position_embeddings (W : list vec) (S : nat) :
  (S <= length W)%nat ->
  exists e, F.embedding (map Z.of_nat (seq 0 S)) W = Ok e /\ length e = S.
Proof.
  intros HS.
  destruct (embedding_valid W (map Z.of_nat (seq 0 S))) as (e & He & Hlen).
  - rewrite map_fmap. apply Forall_fmap, Forall_forall. intros i Hi.
    apply elem_of_seq in Hi.
    change (0 <= Z.of_nat i < Z.of_nat (length W)). lia.
  - exists e. split; [exact He|]. rewrite Hlen, length_map, length_seq. reflexivity.
Qed.

(** The input of the first block. *)
Lemma embedded_dims (d : Dropout.t) (B S : nat) (tok_emb : tensor3) (pos_emb : list vec) :
  has_dims B S tok_emb -> length pos_emb = S ->
  has_dims B S (Dropout.forward d (map (fun e => zip_with vadd e pos_emb) tok_emb)).
Proof.
  intros [HB HS] Hpos. apply has_dims_Dropout. split.
  - rewrite length_map. exact HB.
  - rewrite map_fmap. apply Forall_fmap.
    eapply Forall_impl; [exact HS|]. intros s Hs. cbn in Hs |- *.
    rewrite length_zip_with. lia.
Qed.

(** The output projection gives every position one logit per token. *)
Lemma logits_shape (ln : LayerNorm.t) (head : Linear.t) (B S V : nat) (x : tensor3) :
  length (Linear.weight head) = V -> Linear.bias head = None ->
  has_dims B S x ->
  has_shape B S V (tmap (Linear.forward head) (tmap (LayerNorm.forward ln) x)).
Proof.
  intros HV Hb [HB HS]. unfold tmap. split.
  - rewrite !length_map. exact HB.
  - rewrite !map_fmap. do 2 apply Forall_fmap.
    eapply Forall_impl; [exact HS|]. intros s Hs. cbn. split.
    + rewrite !length_map. exact Hs.
    + rewrite !map_fmap. do 2 apply Forall_fmap. apply Forall_forall. intros v _.
      cbn. unfold Linear.forward, F.linear. rewrite Hb, length_map. exact HV.
Qed.

(** The length check comes first: a sequence longer than [max_seq_len]
    is refused whatever else the batch holds. *)
Lemma gpt_forward_too_long (self : gpt_old.GPT.t) (ids : LongValue) kpm :
  (max_seq_len (gpt_old.GPT.cfg self) < shape1 ids)%nat ->
  gpt_old.GPT.forward self ids kpm
  = Raise (length_error (shape1 ids) (max_seq_len (gpt_old.GPT.cfg self))).
Proof.
  intros HS. unfold gpt_old.GPT.forward.
  destruct (Nat.leb_spec (shape1 ids) (max_seq_len (gpt_old.GPT.cfg self))); [lia|].
  reflexivity.
Qed.

Lemma bert_forward_too_long (self : mosaic_bert.MosaicBert.t) (ids : LongValue) kpm :
  (max_seq_len (mosaic_bert.MosaicBert.cfg self) < shape1 ids)%nat ->
  mosaic_bert.MosaicBert.forward self ids kpm
  = Raise (length_error (shape1 ids) (max_seq_len (mosaic_bert.MosaicBert.cfg self))).
Proof.
  intros HS. unfold mosaic_bert.MosaicBert.forward.
  destruct (Nat.leb_spec (shape1 ids) (max_seq_len (mosaic_bert.MosaicBert.cfg self)));
    [lia|].
  reflexivity.
Qed.

(** The GPT stack on a sequence that passes the length check: logits of
    shape [(batch, seq, vocab_size)] when every block accepts the length,
    and the error of the attention layer otherwise. *)
Lemma gpt_forward_in_range (self : gpt_old.GPT.t) (ids : LongValue) kpm :
  tables_sized (gpt_old.GPT.cfg self) (gpt_old.GPT.wte self) (gpt_old.GPT.wpe self)
               (gpt_old.GPT.lm_head self) ->
  valid_ids (vocab_size (gpt_old.GPT.cfg self)) ids ->
  (shape1 ids <= max_seq_len (gpt_old.GPT.cfg self))%nat ->
  (Forall (block_accepts (shape1 ids)) (gpt_old.GPT.blocks self) ->
   exists logits,
     gpt_old.GPT.forward self ids kpm = Ok logits /\
     has_shape (shape0 ids) (shape1 ids) (vocab_size (gpt_old.GPT.cfg self)) logits) /\
  (Exists (fun blk => ~ block_accepts (shape1 ids) blk) (gpt_old.GPT.blocks self) ->
   exists msg, gpt_old.GPT.forward self ids kpm = Raise (RuntimeError msg)).
Proof.
  intros (Hwte & Hwpe & Hhead & Hbias) Hids HS.
  unfold gpt_old.GPT.forward.
  destruct (Nat.leb_spec (shape1 ids) (max_seq_len (gpt_old.GPT.cfg self))); [|lia].
  cbn [negb]. unfold Embedding.forward.
  rewrite <- Hwte in Hids.
  destruct (token_embeddings _ ids Hids) as (tok & -> & Htok).
  destruct (position_embeddings (Embedding.weight (gpt_old.GPT.wpe self)) (shape1 ids))
    as (pos & -> & Hpos); [lia|].
  cbn [rbind].
  pose proof (embedded_dims (gpt_old.GPT.emb_drop self) _ _ tok pos Htok Hpos) as Hx.
  split.
  - intros Hbs.
    destruct (run_blocks_accept _ _ _ _ kpm Hx Hbs) as (y & -> & Hy).
    cbn [rbind]. eexists. split; [reflexivity|].
    apply logits_shape; assumption.
  - intros Hbs.
    destruct (run_blocks_reject _ _ _ _ kpm Hx Hbs) as (msg & ->).
    cbn [rbind]. eauto.
Qed.

Lemma bert_block_dims (blk : mosaic_bert.BERTBlock.t) (B S : nat) (x : tensor3) kpm :
  has_dims B S x -> has_dims B S (mosaic_bert.BERTBlock.forward blk x kpm).
Proof.
  intros Hx. unfold mosaic_bert.BERTBlock.forward.
  unfold mosaic_bert.FlashNonCausalAttention.forward, FlashMHA.forward. cbn [fst].
  assert (H1 : has_dims B S
            (tadd x (Dropout.forward (mosaic_bert.BERTBlock.resid_attn_dropout blk)
               (imap (FlashMHA.attend
                        (mosaic_bert.FlashNonCausalAttention.mha
                           (mosaic_bert.BERTBlock.causal_attn blk)) kpm)
                     (tmap (LayerNorm.forward (mosaic_bert.BERTBlock.ln_1 blk)) x))))).
  { apply has_dims_tadd; [exact Hx|]. apply has_dims_Dropout.
    apply has_dims_imap; [apply FlashMHA_attend_length|].
    apply has_dims_tmap. exact Hx. }
  apply has_dims_tadd; [exact H1|].
  apply has_dims_Dropout. do 2 apply has_dims_tmap. exact H1.
Qed.

Lemma bert_run_blocks_dims (bs : list mosaic_bert.BERTBlock.t) (B S : nat)
    (x : tensor3) kpm :
  has_dims B S x -> has_dims B S (mosaic_bert.MosaicBert.run_blocks bs x kpm).
Proof.
  unfold mosaic_bert.MosaicBert.run_blocks. revert x.
  induction bs as [|blk bs IH]; intros x Hx; [exact Hx|].
  cbn [fold_left]. apply IH, bert_block_dims, Hx.
Qed.

(** The BERT stack: logits of shape [(batch, seq, vocab_size)] for every
    sequence that passes the length check. *)
Lemma bert_forward_in_range (self : mosaic_bert.MosaicBert.t) (ids : LongValue) kpm :
  tables_sized (mosaic_bert.MosaicBert.cfg self) (mosaic_bert.MosaicBert.wte self)
               (mosaic_bert.MosaicBert.wpe self) (mosaic_bert.MosaicBert.lm_head self) ->
  valid_ids (vocab_size (mosaic_bert.MosaicBert.cfg self)) ids ->
  (shape1 ids <= max_seq_len (mosaic_bert.MosaicBert.cfg self))%nat ->
  exists logits,
    mosaic_bert.MosaicBert.forward self ids kpm = Ok logits /\
    has_shape (shape0 ids) (shape1 ids)
              (vocab_size (mosaic_bert.MosaicBert.cfg self)) logits.
Proof.
  intros (Hwte & Hwpe & Hhead & Hbias) Hids HS.
  unfold mosaic_bert.MosaicBert.forward.
  destruct (Nat.leb_spec (shape1 ids) (max_seq_len (mosaic_bert.MosaicBert.cfg self)));
    [|lia].
  cbn [negb]. unfold Embedding.forward.
  rewrite <- Hwte in Hids.
  destruct (token_embeddings _ ids Hids) as (tok & -> & Htok).
  destruct (position_embeddings (Embedding.weight (mosaic_bert.MosaicBert.wpe self))
                                (shape1 ids)) as (pos & -> & Hpos); [lia|].
  cbn [rbind]. eexists. split; [reflexivity|].
  apply logits_shape; try assumption.
  apply bert_run_blocks_dims, embedded_dims; assumption.
Qed.


(** With the torch layer in some block, built from the configuration of
    the stack, every sequence shorter than [max_seq_len] is refused by
    that layer, although it passes the length check. *)
Lemma gpt_torch_forward_shorter (self : gpt_old.GPT.t) (ids : LongValue) kpm
    (blk : gpt_old.GPTBlock.t) (a : gpt_old.TorchCausalAttention.t) :
  In blk (gpt_old.GPT.blocks self) ->
  gpt_old.GPTBlock.causal_attn blk = gpt_old.GPTBlock.Torch a ->
  gpt_old.TorchCausalAttention.cfg a = gpt_old.GPT.cfg self ->
  tables_sized (gpt_old.GPT.cfg self) (gpt_old.GPT.wte self) (gpt_old.GPT.wpe self)
               (gpt_old.GPT.lm_head self) ->
  valid_ids (vocab_size (gpt_old.GPT.cfg self)) ids ->
  (shape1 ids < max_seq_len (gpt_old.GPT.cfg self))%nat ->
  exists msg, gpt_old.GPT.forward self ids kpm = Raise (RuntimeError msg).
Proof.
  intros Hin Ha Hcfg Hwf Hids HS.
  apply (gpt_forward_in_range self ids kpm Hwf Hids); [lia|].
  apply Exists_exists. exists blk. split; [apply list_elem_of_In; exact Hin|].
  unfold block_accepts. rewrite Ha, Hcfg. lia.
Qed.

(** C4, the failing input.  The GPT stack with the torch attention layer,
    configured for sequences of up to two positions, is given a batch of
    one sequence of one position.  The length check passes ([1 <= 2]),
    and the attention layer then refuses the sequence, because its mask
    has two rows and two columns: no logits of shape [(1, 1, 2)] come
    back. *)
Theorem torch_stack_refuses_shorter_sequence (act : R -> R) :
  gpt_old.GPT.forward (tiny_torch_gpt act) (mkValue 1 1 [0]) None
  = Raise (RuntimeError
             "The shape of the 2D attn_mask is torch.Size([2, 2]), but should be (1, 1).").
Proof. reflexivity. Qed.

(** ** The torch attention layer *)

Create Rewrite HintDb arith0.

#[local] Hint Rewrite Rmult_0_l Rmult_0_r Rplus_0_l Rplus_0_r Rmult_1_l Rmult_1_r
  Ropp_0 Rdiv_0_l : arith0.

(** Unfolding the layers of the small model down to arithmetic. *)
Ltac evaluate :=
  cbv [imap MultiheadAttention.attend FlashMHA.attend FlashMHA.valid FlashMHA.allowed
       tiny_torch_attn tiny_flash_attn tiny_mha tiny_flash_mha tiny_cfg tiny_ln tiny_mlp
       tiny_block tiny_gpt tiny_torch_gpt tiny_flash_gpt
       gpt_old.TorchCausalAttention.mha gpt_old.TorchCausalAttention.mask
       gpt_old.TorchCausalAttention.cfg gpt_old.FlashCausalAttention.mha max_seq_len
       MultiheadAttention.embed_dim MultiheadAttention.num_heads
       MultiheadAttention.in_proj_weight MultiheadAttention.in_proj_bias
       MultiheadAttention.out_proj MultiheadAttention.dropout MultiheadAttention.head_dim
       FlashMHA.embed_dim FlashMHA.num_heads FlashMHA.causal FlashMHA.Wqkv
       FlashMHA.out_proj FlashMHA.attention_dropout FlashMHA.head_dim
       Nat.div Nat.divmod fst snd
       F.linear F.multi_head_attention F.attention_row F.attention_weights F.dropout F.head
       Linear.forward Linear.weight Linear.bias
       torch.tril torch.ones replicate zero2 identity2 zeros vadd vmul vscale dot vsum
       map app take drop firstn skipn zip_with foldr fold_right seq concat nth
       Nat.mul Nat.add Nat.leb andb compose list_fmap];
  autorewrite with arith0.

Lemma exp_sum_pos (a b : R) : (0 < exp a + exp b)%R.
Proof. pose proof (exp_pos a). pose proof (exp_pos b). lra. Qed.

(** The torch attention layer of the small model, on a sequence of two
    positions: every position takes a positive share of every position,
    [key_padding_mask] or not. *)
Lemma tiny_torch_attn_forward (a0 a1 b0 b1 : R) kpm :
  gpt_old.TorchCausalAttention.forward tiny_torch_attn 2 [[[a0; a1]; [b0; b1]]] kpm
  = Ok ([[[exp 1 / (exp 1 + exp 0) * a0 + exp 0 / (exp 1 + exp 0) * b0;
           exp 1 / (exp 1 + exp 0) * a1 + exp 0 / (exp 1 + exp 0) * b1];
          [exp 1 / (exp 1 + exp 1) * a0 + exp 1 / (exp 1 + exp 1) * b0;
           exp 1 / (exp 1 + exp 1) * a1 + exp 1 / (exp 1 + exp 1) * b1]]]%R, None).
Proof.
  unfold gpt_old.TorchCausalAttention.forward, MultiheadAttention.forward.
  rewrite torch_mask_shape_ok.
  cbn [tiny_torch_attn gpt_old.TorchCausalAttention.cfg tiny_cfg max_seq_len Nat.eqb].
  evaluate. reflexivity.
Qed.

(** With the flash layer a padded position contributes nothing and, being
    padding, gets a row of zeros (before the output projection). *)
Lemma tiny_flash_attn_forward_padded (a0 a1 b0 b1 : R) :
  gpt_old.FlashCausalAttention.forward tiny_flash_attn [[[a0; a1]; [b0; b1]]]
    (Some [[false; true]])
  = ([[[0; 0]; [b0; b1]]]%R, None).
Proof.
  unfold gpt_old.FlashCausalAttention.forward, FlashMHA.forward.
  evaluate. pose proof (exp_pos 0).
  repeat f_equal; field; lra.
Qed.

(** What the torch layer is given as [key_padding_mask] never reaches the
    attention: the argument is dropped. *)
Lemma torch_attention_drops_key_padding_mask
    (a : gpt_old.TorchCausalAttention.t) (S : nat) (x : tensor3) kpm kpm' :
  gpt_old.TorchCausalAttention.forward a S x kpm
  = gpt_old.TorchCausalAttention.forward a S x kpm'.
Proof. reflexivity. Qed.

(** In the torch layer every key has a positive weight for every query:
    the mask of ones and zeros is added to the scores, it rules nothing
    out. *)
Lemma unmasked_weights_positive (attn_bias : nat -> R) (scaling : R) (q : vec)
    (ks : list vec) (j : nat) :
  (j < length ks)%nat ->
  (0 < nth j (F.attention_weights attn_bias (fun _ => true) scaling q ks) 0)%R.
Proof.
  intros Hj. unfold F.attention_weights.
  set (e := imap _ ks).
  assert (Hpos : Forall (fun a => (0 < a)%R) e).
  { apply Forall_lookup. intros i a. unfold e. rewrite list_lookup_imap.
    destruct (ks !! i); [|discriminate]. cbn. intros H. injection H as <-.
    apply exp_pos. }
  assert (Hlen : length e = length ks) by apply length_imap.
  assert (Hsum : (0 < vsum e)%R).
  { clear -Hpos Hlen Hj. destruct e as [|a e]; [simpl in Hlen; lia|].
    assert (Hge : forall l, Forall (fun a => (0 < a)%R) l -> (0 <= vsum l)%R).
    { induction 1 as [|b l Hb _ IH]; cbn; [lra|]. unfold vsum in IH. lra. }
    inversion Hpos as [|? ? Ha He]; subst. cbn.
    specialize (Hge e He). unfold vsum in Hge. lra. }
  destruct (e !! j) as [a|] eqn:Ha.
  - rewrite map_fmap.
    erewrite nth_lookup_Some; [|rewrite list_lookup_fmap, Ha; reflexivity].
    apply Rdiv_lt_0_compat; [|exact Hsum].
    rewrite Forall_lookup in Hpos. exact (Hpos j a Ha).
  - apply lookup_ge_None in Ha. lia.
Qed.

(** In the flash layer a padded key has weight zero for every query (no
    position attends to a padded position), and so has a later key. *)
Lemma flash_masked_weights_zero (m : FlashMHA.t) kpm (b i j : nat)
    (attn_bias : nat -> R) (scaling : R) (q : vec) (ks : list vec) :
  FlashMHA.allowed m kpm b i j = false ->
  nth j (F.attention_weights attn_bias (FlashMHA.allowed m kpm b i) scaling q ks) 0%R
  = 0%R.
Proof.
  intros Hj. unfold F.attention_weights.
  set (e := imap _ ks).
  destruct (e !! j) as [a|] eqn:Ha.
  - rewrite map_fmap.
    erewrite nth_lookup_Some; [|rewrite list_lookup_fmap, Ha; reflexivity].
    unfold e in Ha. rewrite list_lookup_imap in Ha.
    destruct (ks !! j); [|discriminate]. cbn in Ha. rewrite Hj in Ha.
    injection Ha as <-. unfold Rdiv. apply Rmult_0_l.
  - apply nth_overflow. rewrite length_map. apply lookup_ge_None in Ha. exact Ha.
Qed.

Lemma flash_allowed_spec (m : FlashMHA.t) kpm (b i j : nat) :
  FlashMHA.causal m = true ->
  FlashMHA.allowed m kpm b i j = true <->
  FlashMHA.valid kpm b j = true /\ (j <= i)%nat.
Proof.
  intros Hc. unfold FlashMHA.allowed. rewrite Hc, andb_true_iff, Nat.leb_le.
  reflexivity.
Qed.

(** C2, the failing input.  Position [0] of a sequence of two is padding
    ([key_padding_mask = [[False, True]]]).  In the torch implementation
    the output at position [1] changes when the activation at the padded
    position changes: position [1] attends to the padded position. *)
Theorem torch_attention_attends_to_padding :
  exists y y',
    gpt_old.TorchCausalAttention.forward tiny_torch_attn 2
      [[[0; 0]; [0; 0]]]%R (Some [[false; true]]) = Ok (y, None) /\
    gpt_old.TorchCausalAttention.forward tiny_torch_attn 2
      [[[1; -1]; [0; 0]]]%R (Some [[false; true]]) = Ok (y', None) /\
    nth 1 (nth 0 y []) [] <> nth 1 (nth 0 y' []) [].
Proof.
  eexists _, _. rewrite !tiny_torch_attn_forward.
  split; [reflexivity|]. split; [reflexivity|].
  cbn [nth]. intros H. injection H as H _.
  assert (Hp : (0 < exp 1 / (exp 1 + exp 1))%R).
  { apply Rdiv_lt_0_compat; [apply exp_pos | apply exp_sum_pos]. }
  lra.
Qed.

(** The flash implementation on the same input: the output at position
    [1] is the same whatever the padded position holds. *)
Lemma flash_attention_skips_padding (a0 a1 a0' a1' b0 b1 : R) :
  nth 1 (nth 0 (fst (gpt_old.FlashCausalAttention.forward tiny_flash_attn
                       [[[a0; a1]; [b0; b1]]] (Some [[false; true]]))) []) []
  = nth 1 (nth 0 (fst (gpt_old.FlashCausalAttention.forward tiny_flash_attn
                         [[[a0'; a1']; [b0; b1]]] (Some [[false; true]]))) []) [].
Proof. rewrite !tiny_flash_attn_forward_padded. reflexivity. Qed.

(** ** The torch stack looks ahead *)

Lemma sqrt_eps_pos (c : R) : (0 < sqrt (c * c + 1 / 100000))%R.
Proof. apply sqrt_lt_R0. nra. Qed.

Lemma nrm_0 : nrm 0 = 0%R.
Proof. unfold nrm, Rdiv. apply Rmult_0_l. Qed.

Lemma nrm_pos (c : R) : (0 < c)%R -> (0 < nrm c)%R.
Proof. intros Hc. apply Rdiv_lt_0_compat; [exact Hc | apply sqrt_eps_pos]. Qed.

Lemma mean_anti (u v : R) : v = (- u)%R -> F.mean [u; v] = 0%R.
Proof. intros ->. unfold F.mean. cbn. field. Qed.

Lemma var_anti (u v : R) : v = (- u)%R -> F.var [u; v] = (u * u)%R.
Proof.
  intros Hv. unfold F.var. rewrite (mean_anti u v Hv). subst v.
  unfold F.mean. cbn. field.
Qed.

(** Layer normalisation of the small model on [[u; -u]]. *)
Lemma tiny_ln_anti (u v : R) :
  v = (- u)%R -> LayerNorm.forward tiny_ln [u; v] = [nrm u; (- nrm u)%R].
Proof.
  intros Hv. unfold LayerNorm.forward, F.layer_norm, tiny_ln.
  cbn [LayerNorm.weight LayerNorm.bias LayerNorm.eps].
  rewrite (var_anti u v Hv), (mean_anti u v Hv). subst v.
  pose proof (sqrt_eps_pos u).
  cbn. unfold nrm. repeat f_equal; field; lra.
Qed.

(** The feed-forward branch of the small model contributes nothing. *)
Lemma tiny_mlp_forward (act : R -> R) (u v : R) :
  gpt_old.GPTMLP.forward (tiny_mlp act) [u; v] = [0; 0]%R.
Proof.
  unfold gpt_old.GPTMLP.forward.
  cbv [tiny_mlp gpt_old.GPTMLP.mlp_up gpt_old.GPTMLP.mlp_down gpt_old.GPTMLP.mlp_act].
  evaluate. reflexivity.
Qed.

Lemma Dropout_eval_forward (u v w z : R) :
  Dropout.forward Dropout.eval [[[u; v]; [w; z]]] = [[[u; v]; [w; z]]].
Proof.
  cbv [Dropout.forward Dropout.eval Dropout.scale imap F.dropout compose].
  autorewrite with arith0. reflexivity.
Qed.

Lemma tadd_pairs (u v w z u' v' w' z' : R) :
  tadd [[[u; v]; [w; z]]] [[[u'; v']; [w'; z']]]
  = [[[u + u'; v + v']; [w + w'; z + z']]]%R.
Proof. reflexivity. Qed.

(** The block of the small model with the torch attention layer, on two
    positions that hold [[a; -a]] and [[b; -b]]: position [0] receives a
    positive share of position [1]. *)
Lemma tiny_torch_block_forward (act : R -> R) (a a2 b b2 : R) :
  a2 = (- a)%R -> b2 = (- b)%R ->
  exists c0 d0 c1 d1,
    gpt_old.GPTBlock.forward
      (tiny_block (gpt_old.GPTBlock.Torch tiny_torch_attn) act) 2
      [[[a; a2]; [b; b2]]] None
    = Ok [[[c0; d0]; [c1; d1]]] /\
    c0 = (a + (exp 1 / (exp 1 + exp 0) * nrm a + exp 0 / (exp 1 + exp 0) * nrm b))%R /\
    d0 = (- c0)%R /\ d1 = (- c1)%R.
Proof.
  intros Ha Hb.
  unfold gpt_old.GPTBlock.forward.
  cbn [tiny_block gpt_old.GPTBlock.ln_1 gpt_old.GPTBlock.ln_2 gpt_old.GPTBlock.mlp
       gpt_old.GPTBlock.causal_attn gpt_old.GPTBlock.resid_attn_dropout
       gpt_old.GPTBlock.resid_mlp_dropout gpt_old.GPTBlock.attend tmap map].
  rewrite (tiny_ln_anti a a2 Ha), (tiny_ln_anti b b2 Hb).
  rewrite tiny_torch_attn_forward.
  cbn [rbind fst].
  rewrite Dropout_eval_forward, tadd_pairs.
  cbn [tmap map].
  match goal with
  | |- context [LayerNorm.forward tiny_ln [?u; ?v]] =>
      rewrite (tiny_ln_anti u v) by (subst a2; ring)
  end.
  match goal with
  | |- context [LayerNorm.forward tiny_ln [?u; ?v]] =>
      rewrite (tiny_ln_anti u v) by (subst b2; ring)
  end.
  rewrite !tiny_mlp_forward, Dropout_eval_forward, tadd_pairs.
  autorewrite with arith0.
  eexists _, _, _, _. split; [reflexivity|].
  split; [reflexivity|]. split; [subst a2; ring | subst b2; ring].
Qed.

Lemma tiny_lm_head_forward (u v : R) :
  Linear.forward (Linear.mk identity2 None) [u; v] = [u; v].
Proof. evaluate. reflexivity. Qed.

(** Embedding the two tokens of a sequence in the small model. *)
Ltac embed_tokens :=
  unfold gpt_old.GPT.forward;
  cbv [tiny_torch_gpt tiny_flash_gpt tiny_gpt gpt_old.GPT.cfg gpt_old.GPT.wte
       gpt_old.GPT.wpe gpt_old.GPT.emb_drop gpt_old.GPT.blocks gpt_old.GPT.ln_f
       gpt_old.GPT.lm_head tiny_cfg max_seq_len shape0 shape1 flat Nat.leb negb
       rows row seq map take drop firstn skipn Nat.mul Nat.add
       rmapM rbind Embedding.forward Embedding.weight F.embedding F.embedding1
       Z.of_nat Z.leb Z.compare Z.to_nat Pos.to_nat Pos.iter_op Pos.of_succ_nat Pos.succ
       lookup list_lookup zero2 zip_with vadd gpt_old.GPT.run_blocks];
  autorewrite with arith0;
  rewrite Dropout_eval_forward.

(** The logits of the small torch stack at position [0], for a sequence
    that starts with token [0]: a function of the embedding [[b; -b]] of
    the token at position [1]. *)
Lemma tiny_torch_gpt_logits (act : R -> R) (t : Z) (b b2 : R) :
  b2 = (- b)%R ->
  (t = 0 /\ b = 0%R /\ b2 = 0%R) \/ (t = 1 /\ b = 1%R /\ b2 = (-1)%R) ->
  exists l,
    gpt_old.GPT.forward (tiny_torch_gpt act) (mkValue 1 2 [0; t]) None = Ok l /\
    nth 0 (nth 0 (nth 0 l []) []) 0%R
    = nrm (exp 0 / (exp 1 + exp 0) * nrm b).
Proof.
  intros Hb Ht.
  assert (H0 : 0%R = (- 0)%R) by ring.
  destruct (tiny_torch_block_forward act 0 0 b b2 H0 Hb)
    as (c0 & d0 & c1 & d1 & Hblk & Hc0 & Hd0 & Hd1).
  rewrite nrm_0 in Hc0. autorewrite with arith0 in Hc0.
  destruct Ht as [(-> & -> & ->)|(-> & -> & ->)];
    embed_tokens; rewrite Hblk; cbn [tmap map];
    rewrite (tiny_ln_anti c0 d0 Hd0), (tiny_ln_anti c1 d1 Hd1);
    rewrite !tiny_lm_head_forward;
    (eexists; split; [reflexivity|]); cbn [nth]; rewrite Hc0; reflexivity.
Qed.

(** C1, the failing input.  Two sequences of two tokens that agree at
    position [0] and differ at position [1] only.  With the torch
    attention layer the logits at position [0] differ: the output at a
    position is not invariant under changes of later tokens. *)
Theorem torch_logits_depend_on_later_token (act : R -> R) :
  exists l l',
    gpt_old.GPT.forward (tiny_torch_gpt act) (mkValue 1 2 [0; 0]) None = Ok l /\
    gpt_old.GPT.forward (tiny_torch_gpt act) (mkValue 1 2 [0; 1]) None = Ok l' /\
    nth 0 (nth 0 l []) [] <> nth 0 (nth 0 l' []) [].
Proof.
  destruct (tiny_torch_gpt_logits act 0 0 0) as (l & Hl & Hl0);
    [ring | left; repeat split |].
  destruct (tiny_torch_gpt_logits act 1 1 (-1)) as (l' & Hl' & Hl'0);
    [lra | right; repeat split |].
  exists l, l'. split; [exact Hl|]. split; [exact Hl'|].
  intros Heq. rewrite Heq, Hl'0 in Hl0.
  rewrite nrm_0 in Hl0. autorewrite with arith0 in Hl0. rewrite nrm_0 in Hl0.
  assert (Hpos : (0 < nrm (exp 0 / (exp 1 + exp 0) * nrm 1))%R).
  { apply nrm_pos. apply Rmult_lt_0_compat.
    - apply Rdiv_lt_0_compat; [apply exp_pos | apply exp_sum_pos].
    - apply nrm_pos. lra. }
  lra.
Qed.

(** ** The flash stack does not look ahead *)

Section LooksBack.

Lemma take_imap {A B} (f : nat -> A -> B) (n : nat) (l : list A) :
  take n (imap f l) = imap f (take n l).
Proof.
  revert f n. induction l as [|x l IH]; intros f [|n]; try reflexivity.
  cbn [imap take firstn]. f_equal. apply IH.
Qed.

Lemma looks_back_map (f : vec -> vec) : looks_back_only (map f).
Proof. intros n s. rewrite !map_fmap. symmetry. apply fmap_take. Qed.

Lemma looks_back_imap (f : nat -> vec -> vec) : looks_back_only (imap f).
Proof. intros n s. apply take_imap. Qed.

Lemma looks_back_id : looks_back_only (fun s => s).
Proof. intros n s. reflexivity. Qed.

Lemma looks_back_compose (f g : list vec -> list vec) :
  looks_back_only f -> looks_back_only g -> looks_back_only (fun s => g (f s)).
Proof. intros Hf Hg n s. rewrite Hg, Hf. reflexivity. Qed.

Lemma looks_back_zip_with (h : vec -> vec -> vec) (f g : list vec -> list vec) :
  looks_back_only f -> looks_back_only g ->
  looks_back_only (fun s => zip_with h (f s) (g s)).
Proof.
  intros Hf Hg n s. rewrite zip_with_take, Hf, Hg. reflexivity.
Qed.

End LooksBack.

Section MaskedKeys.

Lemma vsum_app (l1 l2 : vec) : vsum (l1 ++ l2) = (vsum l1 + vsum l2)%R.
Proof.
  induction l1 as [|a l1 IH]; cbn [app].
  - cbn. lra.
  - rewrite !vsum_cons, IH. lra.
Qed.

Lemma vsum_zeros (l : vec) : Forall (fun a => a = 0%R) l -> vsum l = 0%R.
Proof.
  induction 1 as [|a l -> _ IH]; [reflexivity|]. rewrite vsum_cons, IH. lra.
Qed.

Lemma vscale_0 (v : vec) : vscale 0 v = zeros (length v).
Proof.
  induction v as [|a v IH]; [reflexivity|].
  cbn [vscale map length zeros replicate]. rewrite Rmult_0_l. f_equal. exact IH.
Qed.

Lemma vadd_zeros_r (v : vec) (m : nat) :
  (length v <= m)%nat -> vadd v (zeros m) = v.
Proof.
  revert m. induction v as [|a v IH]; intros m Hm; [reflexivity|].
  destruct m as [|m]; [cbn in Hm; lia|].
  cbn [vadd zip_with zeros replicate]. rewrite Rplus_0_r. f_equal.
  apply IH. cbn in Hm. lia.
Qed.

Lemma vadd_zeros_zeros (c m : nat) : vadd (zeros c) (zeros m) = zeros (Nat.min c m).
Proof.
  revert m. induction c as [|c IH]; intros [|m]; try reflexivity.
  cbn [vadd zip_with zeros replicate Nat.min]. rewrite Rplus_0_r. f_equal. apply IH.
Qed.

(** Adding terms that are all zero leaves a zero vector, no longer than
    the one the sum started from. *)
Lemma sum_of_zeros (c hd : nat) (Z : list vec) :
  (c <= hd)%nat ->
  Forall (fun z => z = zeros c) Z ->
  exists m, (c <= m)%nat /\ foldr vadd (zeros hd) Z = zeros m.
Proof.
  intros Hc. induction 1 as [|z Z -> _ (m & Hm & IH)].
  - exists hd. split; [exact Hc | reflexivity].
  - exists c. split; [lia|]. cbn [foldr fold_right].
    change (fold_right vadd (zeros hd) Z) with (foldr vadd (zeros hd) Z).
    rewrite IH, vadd_zeros_zeros. f_equal. lia.
Qed.

(** A sum of vectors of one length does not depend on how long the zero
    vector is that it starts from, as long as it is long enough. *)
Lemma sum_from_longer_zero (c m : nat) (A : list vec) :
  (c <= m)%nat -> A <> [] ->
  Forall (fun a => length a = c) A ->
  foldr vadd (zeros m) A = foldr vadd (zeros c) A.
Proof.
  intros Hm HA Hlen. induction Hlen as [|a A Ha Hlen IH]; [contradiction|].
  cbn [foldr fold_right].
  change (fold_right vadd ?z A) with (foldr vadd z A).
  destruct A as [|a' A'].
  - cbn [foldr fold_right]. rewrite !vadd_zeros_r by lia. reflexivity.
  - rewrite IH by discriminate. reflexivity.
Qed.

Lemma sum_with_trailing_zeros (c hd : nat) (A Z : list vec) :
  (c <= hd)%nat -> A <> [] ->
  Forall (fun a => length a = c) A ->
  Forall (fun z => z = zeros c) Z ->
  foldr vadd (zeros hd) (A ++ Z) = foldr vadd (zeros hd) A.
Proof.
  intros Hc HA Hlen HZ. rewrite foldr_app.
  destruct (sum_of_zeros c hd Z Hc HZ) as (m & Hm & ->).
  rewrite (sum_from_longer_zero c m A Hm HA Hlen).
  rewrite (sum_from_longer_zero c hd A Hc HA Hlen). reflexivity.
Qed.

Lemma zeros_div (s : R) (l : vec) :
  Forall (fun a => a = 0%R) l -> Forall (fun a => a = 0%R) (map (fun a => (a / s)%R) l).
Proof.
  intros H. rewrite map_fmap. apply Forall_fmap.
  eapply Forall_impl; [exact H|]. intros a ->. cbn. unfold Rdiv. apply Rmult_0_l.
Qed.

Lemma zeros_dropout (d : nat -> R) (l : vec) :
  Forall (fun a => a = 0%R) l -> Forall (fun a => a = 0%R) (F.dropout d l).
Proof.
  intros H. unfold F.dropout. revert d.
  induction H as [|a l -> _ IH]; intros d; [constructor|].
  rewrite imap_cons. constructor; [apply Rmult_0_l | apply IH].
Qed.

Lemma zeros_vscale (c : nat) (p : vec) (vs : list vec) :
  Forall (fun a => a = 0%R) p ->
  Forall (fun v => length v = c) vs ->
  Forall (fun z => z = zeros c) (zip_with vscale p vs).
Proof.
  intros Hp. revert vs. induction Hp as [|a p -> _ IH]; intros vs Hvs.
  - constructor.
  - destruct Hvs as [|v vs Hv Hvs]; [constructor|].
    cbn [zip_with]. constructor; [|apply IH; exact Hvs].
    rewrite vscale_0, Hv. reflexivity.
Qed.

Lemma lengths_vscale (c : nat) (p : vec) (vs : list vec) :
  Forall (fun v => length v = c) vs ->
  Forall (fun a => length a = c) (zip_with vscale p vs).
Proof.
  intros Hvs. revert p. induction Hvs as [|v vs Hv _ IH]; intros [|a p];
    try constructor; [|apply IH].
  unfold vscale. rewrite length_map. exact Hv.
Qed.

(** Keys that the boolean mask rules out, at the end of the sequence, can
    as well be left out: the attention output of a query is the same with
    and without them. *)
Lemma attention_row_masked_tail (attn_bias : nat -> R) (allowed : nat -> bool)
    (drop_scale : nat -> R) (scaling : R) (hd c : nat) (q : vec)
    (ks1 ks2 vs1 vs2 : list vec) :
  length ks1 = length vs1 -> ks1 <> [] -> (c <= hd)%nat ->
  (forall j, (length ks1 <= j)%nat -> allowed j = false) ->
  Forall (fun v => length v = c) (vs1 ++ vs2) ->
  F.attention_row attn_bias allowed drop_scale scaling hd q (ks1 ++ ks2) (vs1 ++ vs2)
  = F.attention_row attn_bias allowed drop_scale scaling hd q ks1 vs1.
Proof.
  intros Hlen Hne Hc Hmask Hvs.
  apply Forall_app in Hvs as [Hvs1 Hvs2].
  unfold F.attention_row, F.attention_weights.
  set (g := fun (j : nat) (k : vec) =>
              if allowed j then exp (dot q k * scaling + attn_bias j) else 0%R).
  rewrite imap_app.
  set (e1 := imap g ks1).
  set (e2 := imap (fun n => g (length ks1 + n)%nat) ks2).
  assert (He2 : Forall (fun a => a = 0%R) e2).
  { apply Forall_lookup. intros i a. unfold e2. rewrite list_lookup_imap.
    destruct (ks2 !! i); [|discriminate]. cbn. intros H. injection H as <-.
    unfold g. rewrite Hmask by lia. reflexivity. }
  rewrite vsum_app, (vsum_zeros e2 He2), Rplus_0_r.
  rewrite map_app. unfold F.dropout at 1. rewrite imap_app.
  rewrite zip_with_app.
  2:{ rewrite length_imap, length_map. unfold e1. rewrite length_imap. exact Hlen. }
  apply (sum_with_trailing_zeros c).
  - exact Hc.
  - intros HA. apply (f_equal length) in HA. unfold F.dropout in HA.
    rewrite length_zip_with, length_imap, length_map in HA.
    unfold e1 in HA. rewrite length_imap, <- Hlen in HA.
    destruct ks1; [contradiction|]. cbn in HA. lia.
  - apply lengths_vscale. exact Hvs1.
  - apply zeros_vscale; [|exact Hvs2].
    apply (zeros_dropout (fun n => drop_scale (length (map (fun a => (a / vsum e1)%R) e1) + n)%nat)).
    apply zeros_div. exact He2.
Qed.

End MaskedKeys.

Section FlashCausal.

Lemma head_length (hd h : nat) (v : vec) :
  length (F.head hd h v) = Nat.min hd (length v - h * hd).
Proof. unfold F.head. rewrite length_take, length_drop. reflexivity. Qed.

(** Causal multi-head attention on the first [n] positions is the first
    [n] positions of causal multi-head attention. *)
Lemma multi_head_attention_take (H hd L : nat) (attn_bias : nat -> nat -> R)
    (allowed : nat -> nat -> bool) (drop_scale : nat -> nat -> nat -> R)
    (qs ks vs : list vec) (n : nat) :
  (forall i j, allowed i j = true -> (j <= i)%nat) ->
  length qs = length ks -> length ks = length vs ->
  Forall (fun v => length v = L) vs ->
  take n (F.multi_head_attention H hd attn_bias allowed drop_scale qs ks vs)
  = F.multi_head_attention H hd attn_bias allowed drop_scale
      (take n qs) (take n ks) (take n vs).
Proof.
  intros Hcausal Hqk Hkv HL. unfold F.multi_head_attention.
  rewrite take_imap. apply imap_ext. intros i q Hi. cbn beta.
  assert (Hin : (i < n)%nat /\ (i < length qs)%nat).
  { apply lookup_take_Some in Hi as [Hi Hn].
    apply lookup_lt_Some in Hi. split; assumption. }
  destruct Hin as [Hn Hlt].
  f_equal. apply map_ext. intros h.
  rewrite <- (take_drop n ks) at 1. rewrite <- (take_drop n vs) at 1.
  rewrite !map_app.
  apply (attention_row_masked_tail _ _ _ _ _ (Nat.min hd (L - h * hd))).
  - rewrite !length_map, !length_take. lia.
  - intros Hnil. apply (f_equal length) in Hnil.
    rewrite length_map, length_take in Hnil. cbn in Hnil. lia.
  - lia.
  - intros j Hj. rewrite length_map, length_take in Hj.
    destruct (allowed i j) eqn:Ha; [|reflexivity].
    apply Hcausal in Ha. lia.
  - rewrite <- map_app, take_drop, map_fmap. apply Forall_fmap.
    eapply Forall_impl; [exact HL|]. intros v Hv. cbn.
    rewrite head_length, Hv. reflexivity.
Qed.

Lemma Linear_forward_length (m : Linear.t) (x : vec) :
  length (Linear.forward m x)
  = match Linear.bias m with
    | Some b => Nat.min (length (Linear.weight m)) (length b)
    | None => length (Linear.weight m)
    end.
Proof.
  unfold Linear.forward, F.linear. destruct (Linear.bias m).
  - unfold vadd. rewrite length_zip_with, length_map. reflexivity.
  - apply length_map.
Qed.

(** The flash attention layer built with [causal=True] looks back only. *)
Lemma FlashMHA_attend_looks_back (m : FlashMHA.t) kpm (b : nat) :
  FlashMHA.causal m = true ->
  looks_back_only (FlashMHA.attend m kpm b).
Proof.
  intros Hc n s. unfold FlashMHA.attend.
  rewrite (looks_back_map _ n), take_imap.
  rewrite (multi_head_attention_take _ _
             (match Linear.bias (FlashMHA.Wqkv m) with
              | Some b => Nat.min (length (Linear.weight (FlashMHA.Wqkv m))) (length b)
              | None => length (Linear.weight (FlashMHA.Wqkv m))
              end - 2 * FlashMHA.embed_dim m)).
  - rewrite !(looks_back_map _ n). reflexivity.
  - intros i j Ha. apply (flash_allowed_spec m kpm b i j Hc) in Ha as [_ Ha]. exact Ha.
  - rewrite !length_map. reflexivity.
  - rewrite !length_map. reflexivity.
  - rewrite !map_fmap. do 2 apply Forall_fmap. apply Forall_forall. intros x _.
    cbn. rewrite length_drop, Linear_forward_length. reflexivity.
Qed.

(** A block with the flash attention layer looks back only. *)
Lemma flash_block_seq_looks_back (blk : gpt_old.GPTBlock.t)
    (a : gpt_old.FlashCausalAttention.t) kpm (b : nat) :
  looks_back_only (flash_block_seq blk a kpm b).
Proof.
  unfold flash_block_seq.
  apply (looks_back_compose
           (fun s => zip_with vadd s (imap _ (FlashMHA.attend _ kpm b (map _ s))))
           (fun s1 => zip_with vadd s1 (imap _ (map _ (map _ s1))))).
  - apply (looks_back_zip_with vadd (fun s => s)); [apply looks_back_id|].
    apply (looks_back_compose (fun s => FlashMHA.attend _ kpm b (map _ s)) (imap _));
      [|apply looks_back_imap].
    apply (looks_back_compose (map _) (FlashMHA.attend _ kpm b));
      [apply looks_back_map|].
    apply FlashMHA_attend_looks_back, gpt_old.FlashCausalAttention.mha_causal.
  - apply (looks_back_zip_with vadd (fun s => s)); [apply looks_back_id|].
    apply (looks_back_compose (fun s => map _ (map _ s)) (imap _));
      [|apply looks_back_imap].
    apply (looks_back_compose (map _) (map _)); apply looks_back_map.
Qed.

Lemma flash_blocks_seq_looks_back (bs : list gpt_old.GPTBlock.t) kpm (b : nat) :
  looks_back_only (flash_blocks_seq bs kpm b).
Proof.
  induction bs as [|blk bs IH]; [apply looks_back_id|].
  cbn [flash_blocks_seq].
  destruct (gpt_old.GPTBlock.causal_attn blk) as [a|a]; [apply looks_back_id|].
  apply (looks_back_compose (flash_block_seq blk a kpm b) (flash_blocks_seq bs kpm b));
    [apply flash_block_seq_looks_back | exact IH].
Qed.

End FlashCausal.

Section BatchOfSequences.

(** A block with the flash layer treats each sequence of the batch on its
    own. *)
Lemma flash_block_forward_seq (blk : gpt_old.GPTBlock.t)
    (a : gpt_old.FlashCausalAttention.t) (S : nat) (x : tensor3) kpm :
  gpt_old.GPTBlock.causal_attn blk = gpt_old.GPTBlock.Flash a ->
  gpt_old.GPTBlock.forward blk S x kpm = Ok (imap (flash_block_seq blk a kpm) x).
Proof.
  intros Ha. unfold gpt_old.GPTBlock.forward. rewrite Ha.
  cbn [gpt_old.GPTBlock.attend rbind fst].
  unfold gpt_old.FlashCausalAttention.forward, FlashMHA.forward. cbn [fst].
  f_equal. apply list_eq. intros b.
  unfold tadd, Dropout.forward, tmap.
  rewrite !map_fmap.
  repeat (rewrite ?lookup_zip_with, ?list_lookup_imap, ?list_lookup_fmap).
  destruct (x !! b) as [s|]; reflexivity.
Qed.

Lemma flash_run_blocks_seq (bs : list gpt_old.GPTBlock.t) (S : nat) (x : tensor3) kpm :
  Forall uses_flash bs ->
  gpt_old.GPT.run_blocks bs S x kpm = Ok (imap (flash_blocks_seq bs kpm) x).
Proof.
  intros Hbs. revert x. induction Hbs as [|blk bs [a Ha] _ IH]; intros x.
  - cbn. f_equal. induction x as [|s x IHx]; [reflexivity|].
    rewrite imap_cons. f_equal. exact IHx.
  - cbn [gpt_old.GPT.run_blocks flash_blocks_seq].
    rewrite (flash_block_forward_seq blk a S x kpm Ha). cbn [rbind].
    rewrite IH, Ha. f_equal. apply list_eq. intros b.
    rewrite !list_lookup_imap. destruct (x !! b); reflexivity.
Qed.

(** Embedding a prefix gives a prefix of the embedding. *)
Lemma rmapM_take {A B} (f : A -> result B) (l : list A) (e : list B) (n : nat) :
  rmapM f l = Ok e -> rmapM f (take n l) = Ok (take n e).
Proof.
  revert e n. induction l as [|x l IH]; intros e n.
  - cbn. intros H. injection H as <-. destruct n; reflexivity.
  - cbn [rmapM]. destruct (f x) as [y|] eqn:Hy; cbn [rbind]; [|discriminate].
    destruct (rmapM f l) as [r|]; cbn [rbind]; [|discriminate].
    intros H. injection H as <-. destruct n as [|n]; [reflexivity|].
    cbn [take firstn rmapM]. rewrite Hy. cbn [rbind].
    rewrite (IH r n eq_refl). reflexivity.
Qed.

Lemma embedding_take (W : list vec) (ids ids' : list Z) (e e' : list vec) (n : nat) :
  F.embedding ids W = Ok e -> F.embedding ids' W = Ok e' ->
  take n ids = take n ids' -> take n e = take n e'.
Proof.
  unfold F.embedding. intros He He' Heq.
  apply (rmapM_take _ _ _ n) in He. apply (rmapM_take _ _ _ n) in He'.
  rewrite Heq in He. congruence.
Qed.

Lemma rmapM_lookup {A B} (f : A -> result B) (l : list A) (e : list B) (b : nat) :
  rmapM f l = Ok e ->
  match l !! b with
  | Some x => exists y, f x = Ok y /\ e !! b = Some y
  | None => e !! b = None
  end.
Proof.
  revert e b. induction l as [|x l IH]; intros e b.
  - cbn. intros H. injection H as <-. reflexivity.
  - cbn [rmapM]. destruct (f x) as [y|] eqn:Hy; cbn [rbind]; [|discriminate].
    destruct (rmapM f l) as [r|]; cbn [rbind]; [|discriminate].
    intros H. injection H as <-. destruct b as [|b].
    + cbn. eauto.
    + cbn. exact (IH r b eq_refl).
Qed.

End BatchOfSequences.

(** The logits of one sequence of the batch, for a stack whose blocks all
    use the flash layer: a function of the token embeddings of that
    sequence that looks back only. *)
Lemma flash_forward_seq (self : gpt_old.GPT.t) (ids : LongValue) kpm (l : tensor3)
    (b : nat) :
  Forall uses_flash (gpt_old.GPT.blocks self) ->
  gpt_old.GPT.forward self ids kpm = Ok l ->
  exists pos_emb,
    F.embedding (map Z.of_nat (seq 0 (shape1 ids)))
                (Embedding.weight (gpt_old.GPT.wpe self)) = Ok pos_emb /\
    if decide (b < shape0 ids)%nat then
      exists e,
        F.embedding (row (shape1 ids) (flat ids) b)
                    (Embedding.weight (gpt_old.GPT.wte self)) = Ok e /\
        nth b l []
        = map (Linear.forward (gpt_old.GPT.lm_head self))
            (map (LayerNorm.forward (gpt_old.GPT.ln_f self))
               (flash_blocks_seq (gpt_old.GPT.blocks self) kpm b
                  (imap (fun i => F.dropout (Dropout.scale (gpt_old.GPT.emb_drop self) b i))
                        (zip_with vadd e pos_emb))))
    else nth b l [] = [].
Proof.
  intros Hflash. unfold gpt_old.GPT.forward.
  destruct (negb _); [discriminate|].
  unfold Embedding.forward at 1 2.
  destruct (rmapM _ (rows _ _ _)) as [tok|] eqn:Htok; cbn [rbind]; [|discriminate].
  destruct (F.embedding (map Z.of_nat _) _) as [pos|] eqn:Hpos; cbn [rbind];
    [|discriminate].
  rewrite (flash_run_blocks_seq _ _ _ kpm Hflash). cbn [rbind].
  intros H. injection H as <-. exists pos. split; [reflexivity|].
  pose proof (rmapM_lookup _ _ _ b Htok) as Hb.
  unfold rows in Hb. rewrite map_fmap, list_lookup_fmap in Hb.
  rewrite nth_lookup. unfold tmap, Dropout.forward. rewrite !map_fmap.
  rewrite !list_lookup_fmap, !list_lookup_imap, list_lookup_fmap.
  destruct (decide (b < shape0 ids)%nat) as [Hlt|Hge].
  - rewrite lookup_seq_lt in Hb by exact Hlt. cbn in Hb.
    destruct Hb as (e & He & ->). exists e. split; [exact He|]. reflexivity.
  - rewrite lookup_seq_ge in Hb by lia. cbn in Hb. rewrite Hb. reflexivity.
Qed.

(** The flash stack is causal: for every batch, every sequence [b] of it
    and every [n], when the token ids of sequence [b] are changed at
    positions [n] and later only (and the mask, the parameters and the
    dropout draws are kept), the logits of sequence [b] at the positions
    before [n] are the same. *)
Theorem flash_logits_ignore_later_tokens (self : gpt_old.GPT.t)
    (ids ids' : LongValue) kpm (l l' : tensor3) (b n : nat) :
  Forall uses_flash (gpt_old.GPT.blocks self) ->
  shape0 ids' = shape0 ids -> shape1 ids' = shape1 ids ->
  take n (row (shape1 ids) (flat ids) b) = take n (row (shape1 ids) (flat ids') b) ->
  gpt_old.GPT.forward self ids kpm = Ok l ->
  gpt_old.GPT.forward self ids' kpm = Ok l' ->
  take n (nth b l []) = take n (nth b l' []).
Proof.
  intros Hflash HB HS Hids Hl Hl'.
  destruct (flash_forward_seq self ids kpm l b Hflash Hl) as (pos & Hpos & Hb).
  destruct (flash_forward_seq self ids' kpm l' b Hflash Hl') as (pos' & Hpos' & Hb').
  rewrite HS in *. rewrite HB in *.
  assert (pos' = pos) as -> by congruence.
  destruct (decide (b < shape0 ids)%nat); [|rewrite Hb, Hb'; reflexivity].
  destruct Hb as (e & He & ->). destruct Hb' as (e' & He' & ->).
  pose proof (embedding_take _ _ _ _ _ n He He' Hids) as Hee.
  rewrite !(looks_back_map _ n).
  rewrite !(flash_blocks_seq_looks_back _ kpm b n).
  rewrite !take_imap, !zip_with_take, Hee. reflexivity.
Qed.

Lemma flash_logits_ignore_later_tokens_example (act : R -> R) :
  exists l l',
    gpt_old.GPT.forward (tiny_flash_gpt act) (mkValue 1 2 [0; 0]) None = Ok l /\
    gpt_old.GPT.forward (tiny_flash_gpt act) (mkValue 1 2 [0; 1]) None = Ok l' /\
    take 1 (nth 0 l []) = take 1 (nth 0 l' []).
Proof.
  assert (Hwf : tables_sized (gpt_old.GPT.cfg (tiny_flash_gpt act))
                  (gpt_old.GPT.wte (tiny_flash_gpt act))
                  (gpt_old.GPT.wpe (tiny_flash_gpt act))
                  (gpt_old.GPT.lm_head (tiny_flash_gpt act))).
  { repeat split. }
  assert (Hflash : Forall uses_flash (gpt_old.GPT.blocks (tiny_flash_gpt act))).
  { constructor; [|constructor]. eexists. reflexivity. }
  assert (Hacc : forall S, Forall (block_accepts S)
                             (gpt_old.GPT.blocks (tiny_flash_gpt act))).
  { intros S. constructor; [exact I | constructor]. }
  assert (Hrun : forall t, t = 0 \/ t = 1 ->
            exists l, gpt_old.GPT.forward (tiny_flash_gpt act) (mkValue 1 2 [0; t]) None
                      = Ok l).
  { intros t Ht.
    destruct (gpt_forward_in_range (tiny_flash_gpt act) (mkValue 1 2 [0; t]) None Hwf)
      as [Hok _].
    - split; [reflexivity|]. cbn. repeat constructor; lia.
    - cbn. lia.
    - destruct (Hok (Hacc _)) as (l & Hl & _). eauto. }
  destruct (Hrun 0) as (l & Hl); [left; reflexivity|].
  destruct (Hrun 1) as (l' & Hl'); [right; reflexivity|].
  exists l, l'. split; [exact Hl|]. split; [exact Hl'|].
  apply (flash_logits_ignore_later_tokens (tiny_flash_gpt act)
           (mkValue 1 2 [0; 0]) (mkValue 1 2 [0; 1]) None l l' 0 1 Hflash);
    try reflexivity; assumption.
Qed.

(** ** The stacks as a whole: what [forward] returns and when it raises *)



(** X7.  The decoder stack with the torch layer in some block, every block
    built from the configuration of the stack, runs on sequences of
    exactly [max_seq_len] positions: a shorter sequence is refused by the
    attention layer, a longer one by the length assertion. *)
Theorem torch_gpt_runs_at_full_length_only (self : gpt_old.GPT.t)
    (ids : LongValue) kpm :
  Forall (built_from (gpt_old.GPT.cfg self)) (gpt_old.GPT.blocks self) ->
  Exists uses_torch (gpt_old.GPT.blocks self) ->
  tables_sized (gpt_old.GPT.cfg self) (gpt_old.GPT.wte self) (gpt_old.GPT.wpe self)
               (gpt_old.GPT.lm_head self) ->
  valid_ids (vocab_size (gpt_old.GPT.cfg self)) ids ->
  (shape1 ids = max_seq_len (gpt_old.GPT.cfg self) ->
   exists logits,
     gpt_old.GPT.forward self ids kpm = Ok logits /\
     has_shape (shape0 ids) (shape1 ids) (vocab_size (gpt_old.GPT.cfg self)) logits) /\
  (shape1 ids < max_seq_len (gpt_old.GPT.cfg self) ->
   exists msg, gpt_old.GPT.forward self ids kpm = Raise (RuntimeError msg))%nat /\
  (max_seq_len (gpt_old.GPT.cfg self) < shape1 ids ->
   gpt_old.GPT.forward self ids kpm
   = Raise (length_error (shape1 ids) (max_seq_len (gpt_old.GPT.cfg self))))%nat.
Proof.
  intros Hbuilt Htorch Hwf Hids. split; [|split].
  - intros HS.
    apply (gpt_forward_in_range self ids kpm Hwf Hids); [lia|].
    eapply Forall_impl; [exact Hbuilt|]. intros blk. unfold built_from, block_accepts.
    destruct (gpt_old.GPTBlock.causal_attn blk); [|trivial].
    intros ->. symmetry. exact HS.
  - intros HS.
    apply (gpt_forward_in_range self ids kpm Hwf Hids); [lia|].
    apply Exists_exists in Htorch as (blk & Hin & a & Ha).
    apply Exists_exists. exists blk. split; [exact Hin|].
    rewrite Forall_forall in Hbuilt. specialize (Hbuilt blk Hin).
    unfold built_from in Hbuilt. unfold block_accepts.
    rewrite Ha in *. rewrite Hbuilt. lia.
  - apply gpt_forward_too_long.
Qed.

Lemma torch_gpt_runs_at_full_length_only_witness :
  exists logits,
    gpt_old.GPT.forward (tiny_torch_gpt (fun x => x)) (mkValue 1 2 [0; 1]) None
    = Ok logits /\
    has_shape 1 2 2 logits.
Proof.
  refine (proj1 (torch_gpt_runs_at_full_length_only (tiny_torch_gpt (fun x => x))
                   (mkValue 1 2 [0; 1]) None _ _ _ _) _).
  - constructor; [reflexivity | constructor].
  - constructor. eexists. reflexivity.
  - repeat split.
  - split; [reflexivity|]. cbn. repeat constructor; lia.
  - reflexivity.
Defined.

(** ** Token ids outside the vocabulary *)

Lemma rmapM_all_or_raise {A B} (f : A -> result B) (e0 : exn) (P : A -> Prop)
    (l : list A) :
  (forall x, (exists y, f x = Ok y /\ P x) \/ f x = Raise e0) ->
  (exists ys, rmapM f l = Ok ys /\ Forall P l) \/ rmapM f l = Raise e0.
Proof.
  intros Hf. induction l as [|x l IH].
  - left. exists []. split; [reflexivity | constructor].
  - cbn [rmapM]. destruct (Hf x) as [(y & -> & Hx)| ->]; [|right; reflexivity].
    cbn [rbind]. destruct IH as [(ys & -> & Hl)| ->]; [|right; reflexivity].
    left. eexists. split; [reflexivity|]. constructor; assumption.
Qed.

Lemma embedding1_in_or_out (W : list vec) (id : Z) :
  (exists v, F.embedding1 W id = Ok v /\ 0 <= id < Z.of_nat (length W)) \/
  F.embedding1 W id = Raise index_error.
Proof.
  unfold F.embedding1. destruct (Z.leb_spec 0 id) as [Hpos|Hneg]; [|right; reflexivity].
  destruct (W !! Z.to_nat id) as [v|] eqn:Hv; [|right; reflexivity].
  left. exists v. split; [reflexivity|].
  apply lookup_lt_Some in Hv. lia.
Qed.

Lemma row_lookup {A} (n : nat) (d : list A) (b i : nat) :
  (i < n)%nat -> row n d b !! i = d !! (b * n + i)%nat.
Proof.
  intros Hi. unfold row. rewrite lookup_take_lt by exact Hi. apply lookup_drop.
Qed.

(** The token lookup of [forward] on a batch that holds a token id outside
    the table. *)
Lemma token_lookup_raises (W : list vec) (ids : LongValue) (k : nat) (id : Z) :
  (k < shape0 ids * shape1 ids)%nat ->
  flat ids !! k = Some id ->
  id < 0 \/ Z.of_nat (length W) <= id ->
  rmapM (fun r => F.embedding r W) (rows (shape0 ids) (shape1 ids) (flat ids))
  = Raise index_error.
Proof.
  intros Hk Hid Hout.
  destruct (rmapM_all_or_raise (fun r => F.embedding r W) index_error
              (Forall (fun id => 0 <= id < Z.of_nat (length W)))
              (rows (shape0 ids) (shape1 ids) (flat ids))) as [(ys & _ & Hall)|H];
    [|exfalso|exact H].
  - intros r. unfold F.embedding.
    destruct (rmapM_all_or_raise (F.embedding1 W) index_error
                (fun id => 0 <= id < Z.of_nat (length W)) r (embedding1_in_or_out W))
      as [(ys & -> & Hr)| ->]; [left; eauto | right; reflexivity].
  - set (S := shape1 ids) in *. set (B := shape0 ids) in *.
    assert (HS : (0 < S)%nat) by nia.
    assert (Hb : (k / S < B)%nat) by (apply Nat.Div0.div_lt_upper_bound; nia).
    assert (Hi : (k mod S < S)%nat) by (apply Nat.mod_upper_bound; lia).
    rewrite Forall_lookup in Hall.
    assert (Hrow : rows B S (flat ids) !! (k / S)%nat = Some (row S (flat ids) (k / S))).
    { unfold rows. rewrite map_fmap, list_lookup_fmap, lookup_seq_lt by exact Hb.
      reflexivity. }
    specialize (Hall _ _ Hrow). rewrite Forall_lookup in Hall.
    assert (Hcell : row S (flat ids) (k / S) !! (k mod S)%nat = Some id).
    { rewrite row_lookup by exact Hi. rewrite <- Hid. f_equal.
      pose proof (Nat.div_mod_eq k S). lia. }
    specialize (Hall _ _ Hcell). cbn in Hall. lia.
Qed.

(** X8.  A token id that is negative or not below the number of rows of
    the token table makes [forward] raise the lookup's [IndexError], in
    both stacks, wherever in the batch it stands and whatever the rest of
    the batch and the mask hold; only the length assertion comes before. *)
Theorem forward_rejects_unknown_token (ids : LongValue) kpm (k : nat) (id : Z) :
  (k < shape0 ids * shape1 ids)%nat ->
  flat ids !! k = Some id ->
  (forall self : gpt_old.GPT.t,
     (shape1 ids <= max_seq_len (gpt_old.GPT.cfg self))%nat ->
     id < 0 \/ Z.of_nat (length (Embedding.weight (gpt_old.GPT.wte self))) <= id ->
     gpt_old.GPT.forward self ids kpm = Raise index_error) /\
  (forall self : mosaic_bert.MosaicBert.t,
     (shape1 ids <= max_seq_len (mosaic_bert.MosaicBert.cfg self))%nat ->
     id < 0 \/
     Z.of_nat (length (Embedding.weight (mosaic_bert.MosaicBert.wte self))) <= id ->
     mosaic_bert.MosaicBert.forward self ids kpm = Raise index_error).
Proof.
  intros Hk Hid. split; intros self HS Hout.
  - unfold gpt_old.GPT.forward.
    destruct (Nat.leb_spec (shape1 ids) (max_seq_len (gpt_old.GPT.cfg self))); [|lia].
    cbn [negb]. unfold Embedding.forward at 1.
    rewrite (token_lookup_raises _ ids k id Hk Hid Hout). reflexivity.
  - unfold mosaic_bert.MosaicBert.forward.
    destruct (Nat.leb_spec (shape1 ids)
                (max_seq_len (mosaic_bert.MosaicBert.cfg self))); [|lia].
    cbn [negb]. unfold Embedding.forward at 1.
    rewrite (token_lookup_raises _ ids k id Hk Hid Hout). reflexivity.
Qed.

Lemma forward_rejects_unknown_token_witness :
  gpt_old.GPT.forward (tiny_flash_gpt (fun x => x)) (mkValue 1 2 [0; 2]) None
  = Raise index_error.
Proof.
  refine (proj1 (forward_rejects_unknown_token (mkValue 1 2 [0; 2]) None 1 2 _ _)
                (tiny_flash_gpt (fun x => x)) _ _).
  - cbn. lia.
  - reflexivity.
  - cbn. lia.
  - right. cbn. lia.
Defined.

(** ** The constructors of the stacks *)

Section ModuleTrees.

Lemma modules_Composite c ps ch :
  nn.modules (nn.Composite c ps ch)
  = nn.Composite c ps ch :: flat_map (fun p => nn.modules (snd p)) ch.
Proof.
  cbn [nn.modules]. f_equal.
  induction ch as [|[n s] ch IH]; [reflexivity|].
  cbn [flat_map snd]. rewrite <- IH. reflexivity.
Qed.

Lemma architecture_Composite c ps ch :
  architecture (nn.Composite c ps ch)
  = nn.Composite c
      (map (fun p => (fst p, nn.mkParam (nn.shape (snd p)) nn.Default)) ps)
      (map (fun p => (fst p, architecture (snd p))) ch).
Proof.
  cbn [architecture]. f_equal.
  induction ch as [|[n s] ch IH]; [reflexivity|].
  cbn [map fst snd]. rewrite <- IH. reflexivity.
Qed.

Lemma modules_architecture (m : nn.module) :
  nn.modules (architecture m) = map architecture (nn.modules m).
Proof.
  induction m as [w b r|w|w b|c ps ch IH] using module_tree_ind;
    try reflexivity.
  rewrite architecture_Composite, !modules_Composite.
  cbn [map]. rewrite <- architecture_Composite. f_equal.
  induction IH as [|[n s] ch Hs _ IHch]; [reflexivity|].
  cbn [map flat_map fst snd] in *. rewrite map_app, Hs, IHch. reflexivity.
Qed.

Lemma flat_map_numbered {A} (f : nat -> string) (g : A -> list nn.module) (l : list A) :
  flat_map (fun p => g (snd p)) (imap (fun i b => (f i, b)) l) = flat_map g l.
Proof.
  revert f. induction l as [|x l IH]; intros f; [reflexivity|].
  cbn [imap flat_map snd]. f_equal. exact (IH (f ∘ S)).
Qed.

Lemma count_map (p : nn.module -> bool) (f : nn.module -> nn.module)
    (l : list nn.module) :
  length (List.filter p (map f l)) = length (List.filter (fun x => p (f x)) l).
Proof.
  induction l as [|x l IH]; [reflexivity|].
  cbn [map List.filter]. destruct (p (f x)); cbn [length]; rewrite IH; reflexivity.
Qed.

(** What depends on the architecture only is the same in two models of
    one architecture. *)
Lemma count_modules_architecture (p : nn.module -> bool) (m m' : nn.module) :
  (forall x, p (architecture x) = p x) ->
  architecture m' = architecture m ->
  count_modules p m' = count_modules p m.
Proof.
  intros Hp Harch. unfold count_modules.
  apply (f_equal nn.modules) in Harch. rewrite !modules_architecture in Harch.
  apply (f_equal (fun l => length (List.filter p l))) in Harch.
  rewrite !count_map in Harch.
  rewrite (List.filter_ext _ p Hp (nn.modules m')) in Harch.
  rewrite (List.filter_ext _ p Hp (nn.modules m)) in Harch.
  exact Harch.
Qed.

Lemma count_flat_map (p : nn.module -> bool) (c : nat) (l : list nn.module) :
  Forall (fun b => count_modules p b = c) l ->
  length (List.filter p (flat_map nn.modules l)) = (length l * c)%nat.
Proof.
  induction 1 as [|b l Hb _ IH]; [reflexivity|].
  cbn [flat_map length]. rewrite List.filter_app, length_app, IH.
  unfold count_modules in Hb. rewrite Hb. lia.
Qed.

(** A list built by [n] runs of one constructor. *)
Lemma rmapM_const {A B} (r : result B) (l : list A) (bs : list B) :
  rmapM (fun _ => r) l = Ok bs ->
  length bs = length l /\ Forall (fun b => r = Ok b) bs.
Proof.
  revert bs. induction l as [|x l IH]; intros bs.
  - cbn. intros H. injection H as <-. split; [reflexivity | constructor].
  - cbn [rmapM]. destruct r as [b|e] eqn:Hr; cbn [rbind]; [|discriminate].
    destruct (rmapM (fun _ => Ok b) l) as [bs'|]; cbn [rbind]; [|discriminate].
    intros H. injection H as <-. destruct (IH bs' eq_refl) as [Hlen Hall].
    split; [cbn [length]; f_equal; exact Hlen|].
    constructor; [reflexivity | exact Hall].
Qed.

Lemma rmapM_const_raise {A B} (r : result B) (l : list A) (e : exn) :
  rmapM (fun _ => r) l = Raise e -> l <> [] /\ r = Raise e.
Proof.
  destruct l as [|x l]; [discriminate|].
  cbn [rmapM]. destruct r as [b|e']; cbn [rbind].
  - intros H. exfalso. clear x.
    assert (Hok : exists bs, rmapM (fun _ : A => Ok b) l = Ok bs).
    { clear H. induction l as [|y l [bs IH]]; [eexists; reflexivity|].
      cbn [rmapM rbind]. rewrite IH. cbn [rbind]. eauto. }
    destruct Hok as [bs Hbs]. rewrite Hbs in H. discriminate.
  - intros H. split; [discriminate | congruence].
Qed.

Lemma rmapM_const_ok {A B} (b : B) (l : list A) :
  rmapM (fun _ => Ok b) l = Ok (replicate (length l) b).
Proof.
  induction l as [|x l IH]; [reflexivity|].
  cbn [rmapM rbind length replicate]. rewrite IH. reflexivity.
Qed.

End ModuleTrees.

Section Constructors.

Variable rt : nn.runtime.

(** A block is built alike on every device that the machine allocates
    on. *)
Lemma gpt_block_init_device (cfg : Config) (device : string) :
  nn.allocate rt device = Ok tt ->
  gpt_old.GPTBlock.__init__ rt cfg device = gpt_old.GPTBlock.__init__ rt cfg "meta".
Proof.
  intros Halloc.
  rewrite (GPTBlock_init_allocated rt device Halloc),
          (GPTBlock_init_allocated rt "meta" (allocate_meta rt)).
  unfold gpt_old.TorchCausalAttention.__init__, gpt_old.FlashCausalAttention.__init__.
  rewrite (MultiheadAttention_init_allocated rt device Halloc),
          (MultiheadAttention_init_allocated rt "meta" (allocate_meta rt)),
          (FlashMHA_init_allocated rt device Halloc),
          (FlashMHA_init_allocated rt "meta" (allocate_meta rt)).
  reflexivity.
Qed.

Lemma bert_block_init_device (cfg : Config) (device : string) :
  nn.allocate rt device = Ok tt ->
  mosaic_bert.BERTBlock.__init__ rt cfg device
  = mosaic_bert.BERTBlock.__init__ rt cfg "meta".
Proof.
  intros Halloc.
  rewrite (BERTBlock_init_allocated rt device Halloc),
          (BERTBlock_init_allocated rt "meta" (allocate_meta rt)).
  unfold mosaic_bert.FlashNonCausalAttention.__init__.
  rewrite (FlashMHA_init_allocated rt device Halloc),
          (FlashMHA_init_allocated rt "meta" (allocate_meta rt)).
  reflexivity.
Qed.

(** The constructor of the decoder stack without the pass. *)
Lemma gpt_init_meta (cfg : Config) :
  gpt_old.GPT.__init__ rt cfg "meta"
  = rbind (nn.Dropout_init (emb_pdrop cfg)) (fun _ =>
    rbind (rmapM (fun _ => gpt_old.GPTBlock.__init__ rt cfg "meta")
                 (seq 0 (n_layers cfg)))
          (fun blocks => Ok (stack_tree nn.GPT cfg blocks))).
Proof.
  unfold gpt_old.GPT.__init__.
  rewrite !(Embedding_init_allocated rt "meta" (allocate_meta rt)),
          (LayerNorm_init_allocated rt "meta" (allocate_meta rt)),
          (Linear_init_allocated rt "meta" (allocate_meta rt)).
  cbn [rbind].
  destruct (Dropout_init_cases (emb_pdrop cfg)) as [[_ ->]|[_ ->]]; reflexivity.
Qed.

(** The constructor, for every device that the machine allocates on:
    the same, and then the pass. *)
Lemma gpt_init_via_meta (cfg : Config) (device : string) :
  nn.allocate rt device = Ok tt ->
  gpt_old.GPT.__init__ rt cfg device
  = rbind (gpt_old.GPT.__init__ rt cfg "meta") (fun self =>
      if negb (String.eqb device "meta")
      then nn.apply (gpt_old.GPT.param_init_fn cfg) self
      else Ok self).
Proof.
  intros Halloc. rewrite gpt_init_meta. unfold gpt_old.GPT.__init__.
  rewrite !(Embedding_init_allocated rt device Halloc),
          (LayerNorm_init_allocated rt device Halloc),
          (Linear_init_allocated rt device Halloc),
          (gpt_block_init_device cfg device Halloc).
  cbn [rbind].
  destruct (Dropout_init_cases (emb_pdrop cfg)) as [[_ ->]|[_ ->]]; cbn [rbind];
    [|reflexivity].
  destruct (rmapM _ _); cbn [rbind]; reflexivity.
Qed.

(** On a device that the machine refuses, the first embedding table
    raises. *)
Lemma gpt_init_refused (cfg : Config) (device : string) (e : exn) :
  nn.allocate rt device = Raise e ->
  gpt_old.GPT.__init__ rt cfg device = Raise e.
Proof.
  intros He. unfold gpt_old.GPT.__init__.
  rewrite (Embedding_init_refused rt device e He). reflexivity.
Qed.

Lemma bert_init_meta (cfg : Config) :
  name cfg = "mosaic_bert"%string ->
  mosaic_bert.MosaicBert.__init__ rt (with_device cfg "meta")
  = rbind (nn.Dropout_init (emb_pdrop cfg)) (fun _ =>
    rbind (rmapM (fun _ => mosaic_bert.BERTBlock.__init__ rt cfg "meta")
                 (seq 0 (n_layers cfg)))
          (fun blocks => Ok (stack_tree nn.MosaicBert cfg blocks))).
Proof.
  intros Hname. unfold mosaic_bert.MosaicBert.__init__.
  cbn [with_device name device emb_pdrop n_layers vocab_size d_model max_seq_len].
  rewrite Hname. cbn [String.eqb Ascii.eqb Bool.eqb negb].
  rewrite !(Embedding_init_allocated rt "meta" (allocate_meta rt)),
          (LayerNorm_init_allocated rt "meta" (allocate_meta rt)),
          (Linear_init_allocated rt "meta" (allocate_meta rt)).
  cbn [rbind].
  destruct (Dropout_init_cases (emb_pdrop cfg)) as [[_ ->]|[_ ->]]; reflexivity.
Qed.

Lemma bert_init_via_meta (cfg : Config) :
  name cfg = "mosaic_bert"%string ->
  nn.allocate rt (device cfg) = Ok tt ->
  mosaic_bert.MosaicBert.__init__ rt cfg
  = rbind (mosaic_bert.MosaicBert.__init__ rt (with_device cfg "meta")) (fun self =>
      if negb (String.eqb (device cfg) "meta")
      then nn.apply (mosaic_bert.MosaicBert.param_init_fn cfg) self
      else Ok self).
Proof.
  intros Hname Halloc. rewrite (bert_init_meta cfg Hname).
  unfold mosaic_bert.MosaicBert.__init__.
  rewrite Hname. cbn [String.eqb Ascii.eqb Bool.eqb negb].
  rewrite !(Embedding_init_allocated rt (device cfg) Halloc),
          (LayerNorm_init_allocated rt (device cfg) Halloc),
          (Linear_init_allocated rt (device cfg) Halloc),
          (bert_block_init_device cfg (device cfg) Halloc).
  cbn [rbind].
  destruct (Dropout_init_cases (emb_pdrop cfg)) as [[_ ->]|[_ ->]]; cbn [rbind];
    [|reflexivity].
  destruct (rmapM _ _); cbn [rbind]; reflexivity.
Qed.

Lemma bert_init_named (cfg : Config) (m : nn.module) :
  mosaic_bert.MosaicBert.__init__ rt cfg = Ok m -> name cfg = "mosaic_bert"%string.
Proof.
  unfold mosaic_bert.MosaicBert.__init__.
  destruct (String.eqb_spec (name cfg) "mosaic_bert") as [H|_]; [intros _; exact H|].
  discriminate.
Qed.

Lemma bert_init_refused (cfg : Config) (e : exn) :
  name cfg = "mosaic_bert"%string ->
  nn.allocate rt (device cfg) = Raise e ->
  mosaic_bert.MosaicBert.__init__ rt cfg = Raise e.
Proof.
  intros Hname He. unfold mosaic_bert.MosaicBert.__init__.
  rewrite Hname. cbn [String.eqb Ascii.eqb Bool.eqb negb].
  rewrite (Embedding_init_refused rt (device cfg) e He). reflexivity.
Qed.

End Constructors.

Section StackTrees.

Lemma stack_tree_modules (cls : nn.pyclass) (cfg : Config) (blocks : list nn.module) :
  nn.modules (stack_tree cls cfg blocks)
  = [stack_tree cls cfg blocks; transformer_tree cfg blocks;
     nn.Embedding_new (vocab_size cfg) (d_model cfg);
     nn.Embedding_new (max_seq_len cfg) (d_model cfg);
     nn.Composite nn.Dropout [] []; block_list blocks]
    ++ flat_map nn.modules blocks
    ++ [nn.LayerNorm_new (d_model cfg);
        nn.Linear_new (d_model cfg) (vocab_size cfg) false].
Proof.
  unfold stack_tree, transformer_tree, block_list.
  rewrite (modules_Composite cls). cbn [flat_map snd].
  rewrite (modules_Composite nn.ModuleDict). cbn [flat_map snd].
  rewrite (modules_Composite nn.ModuleList), (flat_map_numbered show_nat nn.modules).
  cbn [nn.modules nn.Embedding_new nn.LayerNorm_new nn.Linear_new app].
  rewrite <- ?app_assoc. reflexivity.
Qed.

Lemma numbered_fixed (f : nat -> string) (blocks : list nn.module) :
  Forall (fun b => architecture b = b) blocks ->
  map (fun p => (fst p, architecture (snd p))) (imap (fun i b => (f i, b)) blocks)
  = imap (fun i b => (f i, b)) blocks.
Proof.
  intros H. revert f. induction H as [|b l Hb _ IH]; intros f; [reflexivity|].
  cbn [imap map fst snd]. rewrite Hb. f_equal. exact (IH (f ∘ S)).
Qed.

(** Before the pass every parameter is as its constructor left it. *)
Lemma stack_tree_architecture (cls : nn.pyclass) (cfg : Config)
    (blocks : list nn.module) :
  Forall (fun b => architecture b = b) blocks ->
  architecture (stack_tree cls cfg blocks) = stack_tree cls cfg blocks.
Proof.
  intros H. unfold stack_tree, transformer_tree, block_list.
  rewrite (architecture_Composite cls). cbn [map fst snd].
  rewrite (architecture_Composite nn.ModuleDict). cbn [map fst snd].
  rewrite (architecture_Composite nn.ModuleList). cbn [map fst snd].
  rewrite (numbered_fixed show_nat _ H). reflexivity.
Qed.

End StackTrees.

Section Blocks.

Variable rt : nn.runtime.

(** What the constructor of a block returns: parameters as the library
    left them, one block, two [Linear] modules tagged residual (the
    output projection of the attention layer and [mlp_down]). *)
Lemma gpt_block_built (cfg : Config) (b : nn.module) :
  gpt_old.GPTBlock.__init__ rt cfg "meta" = Ok b ->
  architecture b = b /\
  count_modules gpt_old.GPT.fsdp_wrap_fn b = 1%nat /\
  count_modules is_residual b = 2%nat.
Proof.
  rewrite (GPTBlock_init_allocated rt "meta" (allocate_meta rt)).
  destruct (Dropout_init_cases (resid_pdrop cfg)) as [[_ Hd]|[_ Hd]]; rewrite Hd.
  - destruct (String.eqb (attn_impl cfg) "torch");
      [|destruct (String.eqb (attn_impl cfg) "flash"); [|discriminate]].
    + unfold gpt_old.TorchCausalAttention.__init__.
      rewrite (MultiheadAttention_init_allocated rt "meta" (allocate_meta rt)).
      destruct (n_heads cfg =? 0)%nat; [discriminate|].
      destruct (negb _); [discriminate|].
      cbn [rbind]. intros H. injection H as <-. repeat split.
    + unfold gpt_old.FlashCausalAttention.__init__.
      rewrite (FlashMHA_init_allocated rt "meta" (allocate_meta rt)).
      destruct (n_heads cfg =? 0)%nat; [discriminate|].
      destruct (negb _); [discriminate|].
      destruct (negb _); [discriminate|].
      cbn [rbind]. intros H. injection H as <-. repeat split.
  - match goal with |- rbind ?r _ = _ -> _ => destruct r end; discriminate.
Qed.

Lemma bert_block_built (cfg : Config) (b : nn.module) :
  mosaic_bert.BERTBlock.__init__ rt cfg "meta" = Ok b ->
  architecture b = b /\
  count_modules mosaic_bert.MosaicBert.fsdp_wrap_fn b = 1%nat /\
  count_modules is_residual b = 2%nat.
Proof.
  rewrite (BERTBlock_init_allocated rt "meta" (allocate_meta rt)).
  destruct (Dropout_init_cases (resid_pdrop cfg)) as [[_ Hd]|[_ Hd]]; rewrite Hd.
  - destruct (String.eqb (attn_impl cfg) "flash"); [|discriminate].
    unfold mosaic_bert.FlashNonCausalAttention.__init__.
    destruct (nn.flash_attn rt); [discriminate|].
    rewrite (FlashMHA_init_allocated rt "meta" (allocate_meta rt)).
    destruct (n_heads cfg =? 0)%nat; [discriminate|].
    destruct (negb _); [discriminate|].
    destruct (negb _); [discriminate|].
    cbn [rbind]. intros H. injection H as <-. repeat split.
  - match goal with |- rbind ?r _ = _ -> _ => destruct r end; discriminate.
Qed.

Lemma gpt_block_returns (cfg : Config) (device : string) :
  nn.allocate rt device = Ok tt ->
  layers_accept cfg ->
  attn_impl cfg = "torch"%string \/ attn_impl cfg = "flash"%string ->
  exists b, gpt_old.GPTBlock.__init__ rt cfg device = Ok b.
Proof.
  intros Halloc (_ & Hh & Hd & Hp & Hflash) Hsel.
  rewrite (GPTBlock_init_allocated rt device Halloc), (Dropout_init_ok _ Hp).
  destruct Hsel as [Hsel|Hsel]; rewrite Hsel; cbn [String.eqb Ascii.eqb Bool.eqb].
  - unfold gpt_old.TorchCausalAttention.__init__.
    destruct (MultiheadAttention_init_ok rt device Halloc _ _ Hh Hd) as [m ->].
    cbn [rbind]. eauto.
  - unfold gpt_old.FlashCausalAttention.__init__.
    destruct (Hflash Hsel) as [H8 H128].
    destruct (FlashMHA_init_ok rt device Halloc _ _ Hh Hd H8 H128) as [m ->].
    cbn [rbind]. eauto.
Qed.

Lemma bert_block_returns (cfg : Config) (device : string) :
  nn.allocate rt device = Ok tt ->
  nn.flash_attn rt = None ->
  layers_accept cfg ->
  attn_impl cfg = "flash"%string ->
  exists b, mosaic_bert.BERTBlock.__init__ rt cfg device = Ok b.
Proof.
  intros Halloc Himport (_ & Hh & Hd & Hp & Hflash) Hsel.
  rewrite (BERTBlock_init_allocated rt device Halloc), (Dropout_init_ok _ Hp), Hsel.
  cbn [String.eqb Ascii.eqb Bool.eqb].
  unfold mosaic_bert.FlashNonCausalAttention.__init__. rewrite Himport.
  destruct (Hflash Hsel) as [H8 H128].
  destruct (FlashMHA_init_ok rt device Halloc _ _ Hh Hd H8 H128) as [m ->].
  cbn [rbind]. eauto.
Qed.

End Blocks.

Section Stacks.

Variable rt : nn.runtime.

Lemma gpt_meta_inv (cfg : Config) (self : nn.module) :
  gpt_old.GPT.__init__ rt cfg "meta" = Ok self ->
  exists blocks,
    self = stack_tree nn.GPT cfg blocks /\
    length blocks = n_layers cfg /\
    Forall (fun b => gpt_old.GPTBlock.__init__ rt cfg "meta" = Ok b) blocks.
Proof.
  rewrite gpt_init_meta.
  destruct (nn.Dropout_init (emb_pdrop cfg)); cbn [rbind]; [|discriminate].
  destruct (rmapM _ _) as [blocks|] eqn:Hb; cbn [rbind]; [|discriminate].
  intros H. injection H as <-. exists blocks.
  apply rmapM_const in Hb as [Hlen Hall]. rewrite length_seq in Hlen.
  split; [reflexivity|]. split; assumption.
Qed.

Lemma bert_meta_inv (cfg : Config) (self : nn.module) :
  mosaic_bert.MosaicBert.__init__ rt (with_device cfg "meta") = Ok self ->
  name cfg = "mosaic_bert"%string /\
  exists blocks,
    self = stack_tree nn.MosaicBert cfg blocks /\
    length blocks = n_layers cfg /\
    Forall (fun b => mosaic_bert.BERTBlock.__init__ rt cfg "meta" = Ok b) blocks.
Proof.
  intros Hself. pose proof (bert_init_named rt _ _ Hself) as Hname.
  cbn [with_device name] in Hname. split; [exact Hname|].
  revert Hself. rewrite (bert_init_meta rt cfg Hname).
  destruct (nn.Dropout_init (emb_pdrop cfg)); cbn [rbind]; [|discriminate].
  destruct (rmapM _ _) as [blocks|] eqn:Hb; cbn [rbind]; [|discriminate].
  intros H. injection H as <-. exists blocks.
  apply rmapM_const in Hb as [Hlen Hall]. rewrite length_seq in Hlen.
  split; [reflexivity|]. split; assumption.
Qed.

(** The pass over a tree that a constructor assembled completes: without
    layers there is no residual projection, and nothing is divided by
    [sqrt (2 * 0)]. *)
Lemma pass_on_stack_tree (cfg : Config) (cls : nn.pyclass) (blocks : list nn.module) :
  length blocks = n_layers cfg ->
  exists m, nn.apply (gpt_old.GPT.param_init_fn cfg) (stack_tree cls cfg blocks) = Ok m.
Proof.
  intros Hlen. destruct (Nat.eq_dec (n_layers cfg) 0%nat) as [HL|HL].
  - rewrite HL in Hlen. destruct blocks; [|discriminate].
    eexists. reflexivity.
  - destruct (apply_param_init_fn cfg (stack_tree cls cfg blocks)) as (m & Hm & _);
      [lia|]. eauto.
Qed.

(** What a constructor that returns has built. *)
Lemma gpt_init_inv (cfg : Config) (device : string) (m : nn.module) :
  gpt_old.GPT.__init__ rt cfg device = Ok m ->
  exists blocks,
    gpt_old.GPT.__init__ rt cfg "meta" = Ok (stack_tree nn.GPT cfg blocks) /\
    architecture m = stack_tree nn.GPT cfg blocks /\
    length blocks = n_layers cfg /\
    Forall (fun b => gpt_old.GPTBlock.__init__ rt cfg "meta" = Ok b) blocks.
Proof.
  intros Hinit. pose proof (gpt_init_ok_allocated rt cfg device m Hinit) as Halloc.
  revert Hinit. rewrite (gpt_init_via_meta rt cfg device Halloc).
  destruct (gpt_old.GPT.__init__ rt cfg "meta") as [self|] eqn:Hself; cbn [rbind];
    [|discriminate].
  destruct (gpt_meta_inv cfg self Hself) as (blocks & -> & Hlen & Hall).
  assert (Harch : architecture (stack_tree nn.GPT cfg blocks)
                  = stack_tree nn.GPT cfg blocks).
  { apply stack_tree_architecture. eapply Forall_impl; [exact Hall|].
    intros b Hb. exact (proj1 (gpt_block_built rt _ _ Hb)). }
  intros Hm. exists blocks. split; [reflexivity|]. split; [|split; assumption].
  destruct (negb _).
  - rewrite (apply_param_init_fn_architecture _ _ _ Hm). exact Harch.
  - injection Hm as <-. exact Harch.
Qed.

Lemma bert_init_inv (cfg : Config) (m : nn.module) :
  mosaic_bert.MosaicBert.__init__ rt cfg = Ok m ->
  name cfg = "mosaic_bert"%string /\
  exists blocks,
    mosaic_bert.MosaicBert.__init__ rt (with_device cfg "meta")
    = Ok (stack_tree nn.MosaicBert cfg blocks) /\
    architecture m = stack_tree nn.MosaicBert cfg blocks /\
    length blocks = n_layers cfg /\
    Forall (fun b => mosaic_bert.BERTBlock.__init__ rt cfg "meta" = Ok b) blocks.
Proof.
  intros Hinit. pose proof (bert_init_named rt cfg m Hinit) as Hname.
  pose proof (bert_init_ok_allocated rt cfg m Hinit) as Halloc.
  revert Hinit. rewrite (bert_init_via_meta rt cfg Hname Halloc).
  destruct (mosaic_bert.MosaicBert.__init__ rt (with_device cfg "meta")) as [self|]
    eqn:Hself; cbn [rbind]; [|discriminate].
  destruct (bert_meta_inv cfg self Hself) as (_ & blocks & -> & Hlen & Hall).
  assert (Harch : architecture (stack_tree nn.MosaicBert cfg blocks)
                  = stack_tree nn.MosaicBert cfg blocks).
  { apply stack_tree_architecture. eapply Forall_impl; [exact Hall|].
    intros b Hb. exact (proj1 (bert_block_built rt _ _ Hb)). }
  intros Hm. split; [exact Hname|].
  exists blocks. split; [reflexivity|]. split; [|split; assumption].
  destruct (negb _).
  - rewrite param_init_fn_same in Hm.
    rewrite (apply_param_init_fn_architecture _ _ _ Hm). exact Harch.
  - injection Hm as <-. exact Harch.
Qed.

(** When the constructors return. *)
Lemma gpt_init_returns (cfg : Config) (device : string) :
  nn.allocate rt device = Ok tt ->
  (0 <= emb_pdrop cfg <= 1)%R ->
  n_layers cfg = 0%nat \/ (exists b, gpt_old.GPTBlock.__init__ rt cfg device = Ok b) ->
  exists m, gpt_old.GPT.__init__ rt cfg device = Ok m.
Proof.
  intros Halloc Hp Hblocks.
  rewrite (gpt_init_via_meta rt cfg device Halloc), gpt_init_meta.
  rewrite (Dropout_init_ok _ Hp). cbn [rbind].
  assert (Hb : exists blocks,
             rmapM (fun _ : nat => gpt_old.GPTBlock.__init__ rt cfg "meta")
                   (seq 0 (n_layers cfg)) = Ok blocks /\
             length blocks = n_layers cfg).
  { destruct Hblocks as [->|[b Hb]].
    - exists []. split; reflexivity.
    - rewrite (gpt_block_init_device rt cfg device Halloc) in Hb.
      rewrite Hb, rmapM_const_ok. eexists. split; [reflexivity|].
      rewrite length_replicate, length_seq. reflexivity. }
  destruct Hb as (blocks & -> & Hlen). cbn [rbind].
  destruct (negb _); [|eauto].
  exact (pass_on_stack_tree cfg nn.GPT blocks Hlen).
Qed.

Lemma bert_init_returns (cfg : Config) :
  name cfg = "mosaic_bert"%string ->
  nn.allocate rt (device cfg) = Ok tt ->
  (0 <= emb_pdrop cfg <= 1)%R ->
  n_layers cfg = 0%nat \/
  (exists b, mosaic_bert.BERTBlock.__init__ rt cfg (device cfg) = Ok b) ->
  exists m, mosaic_bert.MosaicBert.__init__ rt cfg = Ok m.
Proof.
  intros Hname Halloc Hp Hblocks.
  rewrite (bert_init_via_meta rt cfg Hname Halloc), (bert_init_meta rt cfg Hname).
  rewrite (Dropout_init_ok _ Hp). cbn [rbind].
  assert (Hb : exists blocks,
             rmapM (fun _ : nat => mosaic_bert.BERTBlock.__init__ rt cfg "meta")
                   (seq 0 (n_layers cfg)) = Ok blocks /\
             length blocks = n_layers cfg).
  { destruct Hblocks as [->|[b Hb]].
    - exists []. split; reflexivity.
    - rewrite (bert_block_init_device rt cfg (device cfg) Halloc) in Hb.
      rewrite Hb, rmapM_const_ok. eexists. split; [reflexivity|].
      rewrite length_replicate, length_seq. reflexivity. }
  destruct Hb as (blocks & -> & Hlen). cbn [rbind].
  destruct (negb _); [|eauto].
  rewrite param_init_fn_same.
  exact (pass_on_stack_tree cfg nn.MosaicBert blocks Hlen).
Qed.

(** The ways in which a constructor fails once the device allocates:
    with the embedding dropout, or with its first block. *)
Lemma gpt_init_raises (cfg : Config) (device : string) (e : exn) :
  nn.allocate rt device = Ok tt ->
  gpt_old.GPT.__init__ rt cfg device = Raise e ->
  (~ (0 <= emb_pdrop cfg <= 1)%R /\ e = dropout_error (emb_pdrop cfg)) \/
  ((0 <= emb_pdrop cfg <= 1)%R /\ n_layers cfg <> 0%nat /\
   gpt_old.GPTBlock.__init__ rt cfg device = Raise e).
Proof.
  intros Halloc.
  rewrite (gpt_init_via_meta rt cfg device Halloc), gpt_init_meta,
          (gpt_block_init_device rt cfg device Halloc).
  destruct (Dropout_init_cases (emb_pdrop cfg)) as [[Hp Hd]|[Hp Hd]];
    rewrite Hd; cbn [rbind].
  - destruct (rmapM _ _) as [blocks|e'] eqn:Hb; cbn [rbind].
    + apply rmapM_const in Hb as [Hlen _]. rewrite length_seq in Hlen.
      destruct (pass_on_stack_tree cfg nn.GPT blocks Hlen) as [m ->].
      destruct (negb _); discriminate.
    + intros H. injection H as <-.
      apply rmapM_const_raise in Hb as [Hne Hr].
      right. split; [exact Hp|]. split; [|exact Hr].
      intros HL. apply Hne. rewrite HL. reflexivity.
  - intros H. injection H as <-. left. split; [exact Hp | reflexivity].
Qed.

Lemma bert_init_raises (cfg : Config) (e : exn) :
  name cfg = "mosaic_bert"%string ->
  nn.allocate rt (device cfg) = Ok tt ->
  mosaic_bert.MosaicBert.__init__ rt cfg = Raise e ->
  (~ (0 <= emb_pdrop cfg <= 1)%R /\ e = dropout_error (emb_pdrop cfg)) \/
  ((0 <= emb_pdrop cfg <= 1)%R /\ n_layers cfg <> 0%nat /\
   mosaic_bert.BERTBlock.__init__ rt cfg (device cfg) = Raise e).
Proof.
  intros Hname Halloc.
  rewrite (bert_init_via_meta rt cfg Hname Halloc), (bert_init_meta rt cfg Hname),
          (bert_block_init_device rt cfg (device cfg) Halloc).
  destruct (Dropout_init_cases (emb_pdrop cfg)) as [[Hp Hd]|[Hp Hd]];
    rewrite Hd; cbn [rbind].
  - destruct (rmapM _ _) as [blocks|e'] eqn:Hb; cbn [rbind].
    + apply rmapM_const in Hb as [Hlen _]. rewrite length_seq in Hlen.
      rewrite param_init_fn_same.
      destruct (pass_on_stack_tree cfg nn.MosaicBert blocks Hlen) as [m ->].
      destruct (negb _); discriminate.
    + intros H. injection H as <-.
      apply rmapM_const_raise in Hb as [Hne Hr].
      right. split; [exact Hp|]. split; [|exact Hr].
      intros HL. apply Hne. rewrite HL. reflexivity.
  - intros H. injection H as <-. left. split; [exact Hp | reflexivity].
Qed.

(** What a constructor that returns needed. *)
Lemma gpt_init_needs (cfg : Config) (device : string) (m : nn.module) :
  gpt_old.GPT.__init__ rt cfg device = Ok m ->
  (0 <= emb_pdrop cfg <= 1)%R /\
  (n_layers cfg = 0%nat \/ exists b, gpt_old.GPTBlock.__init__ rt cfg device = Ok b).
Proof.
  intros Hm. pose proof (gpt_init_ok_allocated rt cfg device m Hm) as Halloc.
  rewrite (gpt_init_via_meta rt cfg device Halloc), gpt_init_meta in Hm.
  rewrite (gpt_block_init_device rt cfg device Halloc).
  destruct (Dropout_init_cases (emb_pdrop cfg)) as [[Hp Hd]|[_ Hd]];
    rewrite Hd in Hm; cbn [rbind] in Hm; [|discriminate].
  split; [exact Hp|].
  destruct (rmapM _ _) as [blocks|] eqn:Hb; cbn [rbind] in Hm; [|discriminate].
  apply rmapM_const in Hb as [Hlen Hall]. rewrite length_seq in Hlen.
  destruct blocks as [|b blocks]; [left; symmetry; exact Hlen|].
  right. exists b. inversion Hall; subst. assumption.
Qed.

Lemma bert_init_needs (cfg : Config) (m : nn.module) :
  mosaic_bert.MosaicBert.__init__ rt cfg = Ok m ->
  (0 <= emb_pdrop cfg <= 1)%R /\
  (n_layers cfg = 0%nat \/
   exists b, mosaic_bert.BERTBlock.__init__ rt cfg (device cfg) = Ok b).
Proof.
  intros Hm. pose proof (bert_init_named rt cfg m Hm) as Hname.
  pose proof (bert_init_ok_allocated rt cfg m Hm) as Halloc.
  rewrite (bert_init_via_meta rt cfg Hname Halloc), (bert_init_meta rt cfg Hname) in Hm.
  rewrite (bert_block_init_device rt cfg (device cfg) Halloc).
  destruct (Dropout_init_cases (emb_pdrop cfg)) as [[Hp Hd]|[_ Hd]];
    rewrite Hd in Hm; cbn [rbind] in Hm; [|discriminate].
  split; [exact Hp|].
  destruct (rmapM _ _) as [blocks|] eqn:Hb; cbn [rbind] in Hm; [|discriminate].
  apply rmapM_const in Hb as [Hlen Hall]. rewrite length_seq in Hlen.
  destruct blocks as [|b blocks]; [left; symmetry; exact Hlen|].
  right. exists b. inversion Hall; subst. assumption.
Qed.

End Stacks.

(** The configuration of the end-to-end scenario builds, on every
    device that the machine allocates on and with either attention
    layer. *)
Lemma scenario_gpt_builds (rt : nn.runtime) (attn_impl device : string) :
  nn.allocate rt device = Ok tt ->
  attn_impl = "torch"%string \/ attn_impl = "flash"%string ->
  exists m, gpt_old.GPT.__init__ rt (scenario "gpt" attn_impl) device = Ok m.
Proof.
  intros Halloc Hsel. apply gpt_init_returns; [exact Halloc | |].
  - simpl. lra.
  - right. apply gpt_block_returns;
      [exact Halloc | apply scenario_layers_accept | exact Hsel].
Qed.

Lemma scenario_bert_builds :
  exists m, mosaic_bert.MosaicBert.__init__ every_device
              (scenario "mosaic_bert" "flash") = Ok m.
Proof.
  apply bert_init_returns.
  - reflexivity.
  - reflexivity.
  - simpl. lra.
  - right. apply bert_block_returns;
      [reflexivity | reflexivity | apply scenario_layers_accept | reflexivity].
Qed.

(** X13.  The first thing the constructor of the decoder stack does is
    to allocate the token embedding table on the device: on a device that
    the machine refuses it raises what the machine raises.  On a device
    that the machine allocates on, and with a standard deviation that the
    initialisation pass can draw from (the pass runs on every device but
    ['meta'], and the library draws from no negative deviation), the
    constructor returns exactly when the embedding dropout rate is a
    probability and, if the stack has a layer, the constructor of a block
    returns.  An error it raises then is the error of the dropout layer,
    which quotes the rate, or the error of the block constructor: the
    pass that follows adds none, also for [n_layers = 0], where the
    residual standard deviation would divide by zero. *)
Theorem gpt_constructor_fails_with_its_layers (rt : nn.runtime) (cfg : Config)
    (device : string) :
  (forall e, nn.allocate rt device = Raise e ->
     gpt_old.GPT.__init__ rt cfg device = Raise e) /\
  (nn.allocate rt device = Ok tt ->
   device = "meta"%string \/ (0 <= init_std cfg)%R ->
   ((exists m, gpt_old.GPT.__init__ rt cfg device = Ok m) <->
    (0 <= emb_pdrop cfg <= 1)%R /\
    (n_layers cfg = 0%nat \/
     exists b, gpt_old.GPTBlock.__init__ rt cfg device = Ok b)) /\
   (forall e, gpt_old.GPT.__init__ rt cfg device = Raise e ->
      (~ (0 <= emb_pdrop cfg <= 1)%R /\
       e = ValueErrorOf "dropout probability has to be between 0 and 1, but got "
             (emb_pdrop cfg)) \/
      ((0 <= emb_pdrop cfg <= 1)%R /\ n_layers cfg <> 0%nat /\
       gpt_old.GPTBlock.__init__ rt cfg device = Raise e))).
Proof.
  split; [exact (gpt_init_refused rt cfg device)|].
  intros Halloc _. split; [split|].
  - intros [m Hm]. exact (gpt_init_needs rt cfg device m Hm).
  - intros [Hp Hblocks]. exact (gpt_init_returns rt cfg device Halloc Hp Hblocks).
  - intros e He. exact (gpt_init_raises rt cfg device e Halloc He).
Qed.

Lemma gpt_constructor_fails_with_its_layers_witness :
  exists m, gpt_old.GPT.__init__ every_device (scenario "gpt" "torch") "cpu" = Ok m.
Proof.
  destruct (proj2 (gpt_constructor_fails_with_its_layers every_device
                     (scenario "gpt" "torch") "cpu")) as [Hiff _];
    [reflexivity | right; simpl; lra |].
  apply (proj2 Hiff). split.
  - simpl. lra.
  - right. apply gpt_block_returns;
      [reflexivity | apply scenario_layers_accept | left; reflexivity].
Defined.

(** X14.  The constructor of the encoder stack checks the name of the
    configuration before anything else, the device included.  With the
    right name it then allocates the token embedding table on
    [cfg.device], and raises what the machine raises on a device that it
    refuses.  On a device that the machine allocates on, and with a
    standard deviation that the initialisation pass can draw from, it
    returns exactly when the embedding dropout rate is a probability and,
    if the stack has a layer, the constructor of a block returns; an error
    it raises then is the error of the dropout layer, which quotes the
    rate, or the error of the block constructor. *)
Theorem bert_constructor_checks_name_first (rt : nn.runtime) (cfg : Config) :
  (name cfg <> "mosaic_bert"%string ->
   mosaic_bert.MosaicBert.__init__ rt cfg = Raise (name_error cfg)) /\
  (name cfg = "mosaic_bert"%string ->
   (forall e, nn.allocate rt (device cfg) = Raise e ->
      mosaic_bert.MosaicBert.__init__ rt cfg = Raise e) /\
   (nn.allocate rt (device cfg) = Ok tt ->
    device cfg = "meta"%string \/ (0 <= init_std cfg)%R ->
    ((exists m, mosaic_bert.MosaicBert.__init__ rt cfg = Ok m) <->
     (0 <= emb_pdrop cfg <= 1)%R /\
     (n_layers cfg = 0%nat \/
      exists b, mosaic_bert.BERTBlock.__init__ rt cfg (device cfg) = Ok b)) /\
    (forall e, mosaic_bert.MosaicBert.__init__ rt cfg = Raise e ->
       (~ (0 <= emb_pdrop cfg <= 1)%R /\
        e = ValueErrorOf "dropout probability has to be between 0 and 1, but got "
              (emb_pdrop cfg)) \/
       ((0 <= emb_pdrop cfg <= 1)%R /\ n_layers cfg <> 0%nat /\
        mosaic_bert.BERTBlock.__init__ rt cfg (device cfg) = Raise e)))).
Proof.
  split.
  - intros Hname. unfold mosaic_bert.MosaicBert.__init__.
    destruct (String.eqb_spec (name cfg) "mosaic_bert"); [contradiction|].
    reflexivity.
  - intros Hname. split; [exact (fun e => bert_init_refused rt cfg e Hname)|].
    intros Halloc _. split; [split|].
    + intros [m Hm]. exact (bert_init_needs rt cfg m Hm).
    + intros [Hp Hblocks]. exact (bert_init_returns rt cfg Hname Halloc Hp Hblocks).
    + intros e He. exact (bert_init_raises rt cfg e Hname Halloc He).
Qed.

Lemma bert_constructor_checks_name_first_witness :
  mosaic_bert.MosaicBert.__init__ no_gpu
    (with_device (scenario "gpt" "flash") "cuda")
  = Raise (AssertionError "Tried to build MosaicBert model with cfg.name=gpt").
Proof.
  apply (proj1 (bert_constructor_checks_name_first no_gpu
                  (with_device (scenario "gpt" "flash") "cuda"))).
  simpl. discriminate.
Defined.

(** X15.  On the devices that the machine allocates on, and with a
    standard deviation that the initialisation pass can draw from, the
    device decides the contents of the parameters and nothing else.  With
    ['meta'] the constructors leave every parameter as the library
    constructors made it: no initialisation pass runs.  With another such
    device the constructor raises the same error if ['meta'] raises one,
    and otherwise returns a model of the same architecture (classes,
    shapes, residual tags, children): the pass completes on every model
    the constructor builds.  ['meta'] itself allocates nothing, so that
    the first part holds on every machine. *)
Theorem device_decides_the_fill_only (rt : nn.runtime) (cfg : Config)
    (device : string) :
  (forall m0, gpt_old.GPT.__init__ rt cfg "meta" = Ok m0 -> architecture m0 = m0) /\
  (forall m0, mosaic_bert.MosaicBert.__init__ rt (with_device cfg "meta") = Ok m0 ->
     architecture m0 = m0) /\
  (nn.allocate rt device = Ok tt ->
   device = "meta"%string \/ (0 <= init_std cfg)%R ->
   (forall e, gpt_old.GPT.__init__ rt cfg "meta" = Raise e ->
              gpt_old.GPT.__init__ rt cfg device = Raise e) /\
   (forall m0, gpt_old.GPT.__init__ rt cfg "meta" = Ok m0 ->
      exists m, gpt_old.GPT.__init__ rt cfg device = Ok m /\ architecture m = m0) /\
   (forall e, mosaic_bert.MosaicBert.__init__ rt (with_device cfg "meta") = Raise e ->
              mosaic_bert.MosaicBert.__init__ rt (with_device cfg device) = Raise e) /\
   (forall m0, mosaic_bert.MosaicBert.__init__ rt (with_device cfg "meta") = Ok m0 ->
      exists m, mosaic_bert.MosaicBert.__init__ rt (with_device cfg device) = Ok m /\
                architecture m = m0)).
Proof.
  assert (Hgpt : forall m0, gpt_old.GPT.__init__ rt cfg "meta" = Ok m0 ->
            exists blocks, m0 = stack_tree nn.GPT cfg blocks /\
                           architecture m0 = m0 /\ length blocks = n_layers cfg).
  { intros m0 H0.
    destruct (gpt_init_inv rt cfg "meta" m0 H0) as (blocks & Hmeta & Harch & Hlen & _).
    rewrite H0 in Hmeta. injection Hmeta as ->. eauto. }
  assert (Hbert : forall m0,
            mosaic_bert.MosaicBert.__init__ rt (with_device cfg "meta") = Ok m0 ->
            name cfg = "mosaic_bert"%string /\
            exists blocks, m0 = stack_tree nn.MosaicBert cfg blocks /\
                           architecture m0 = m0 /\ length blocks = n_layers cfg).
  { intros m0 H0.
    destruct (bert_init_inv rt (with_device cfg "meta") m0 H0)
      as (Hname & blocks & Hmeta & Harch & Hlen & _).
    change (with_device (with_device cfg "meta") "meta")
      with (with_device cfg "meta") in Hmeta.
    rewrite H0 in Hmeta. injection Hmeta as ->.
    split; [exact Hname|]. exists blocks. split; [reflexivity|].
    split; [exact Harch | exact Hlen]. }
  split; [|split].
  - intros m0 H0. destruct (Hgpt m0 H0) as (_ & _ & H & _). exact H.
  - intros m0 H0. destruct (Hbert m0 H0) as (_ & _ & _ & H & _). exact H.
  - intros Halloc _. split; [|split; [|split]].
    + intros e He. rewrite (gpt_init_via_meta rt cfg device Halloc), He. reflexivity.
    + intros m0 H0. destruct (Hgpt m0 H0) as (blocks & -> & Harch & Hlen).
      rewrite (gpt_init_via_meta rt cfg device Halloc), H0. cbn [rbind].
      destruct (negb _); [|eauto].
      destruct (pass_on_stack_tree cfg nn.GPT blocks Hlen) as [m Hm].
      exists m. split; [exact Hm|].
      rewrite (apply_param_init_fn_architecture _ _ _ Hm). exact Harch.
    + intros e He.
      destruct (String.eqb_spec (name cfg) "mosaic_bert") as [Hname|Hname].
      * rewrite (bert_init_via_meta rt (with_device cfg device) Hname Halloc).
        change (with_device (with_device cfg device) "meta")
          with (with_device cfg "meta").
        rewrite He. reflexivity.
      * revert He. unfold mosaic_bert.MosaicBert.__init__. cbn [with_device name].
        destruct (String.eqb_spec (name cfg) "mosaic_bert"); [contradiction|].
        cbn [negb]. intros He. exact He.
    + intros m0 H0. destruct (Hbert m0 H0) as (Hname & blocks & -> & Harch & Hlen).
      rewrite (bert_init_via_meta rt (with_device cfg device) Hname Halloc).
      change (with_device (with_device cfg device) "meta")
        with (with_device cfg "meta").
      rewrite H0. cbn [rbind].
      destruct (negb _); [|eauto].
      rewrite param_init_fn_same.
      destruct (pass_on_stack_tree (with_device cfg device) nn.MosaicBert blocks Hlen)
        as [m Hm].
      exists m. split; [exact Hm|].
      rewrite (apply_param_init_fn_architecture _ _ _ Hm). exact Harch.
Qed.

Lemma device_decides_the_fill_only_witness :
  exists m0 m,
    gpt_old.GPT.__init__ every_device (scenario "gpt" "flash") "meta" = Ok m0 /\
    architecture m0 = m0 /\
    gpt_old.GPT.__init__ every_device (scenario "gpt" "flash") "cpu" = Ok m /\
    architecture m = m0.
Proof.
  destruct (scenario_gpt_builds every_device "flash" "meta" eq_refl) as [m0 H0];
    [right; reflexivity|].
  pose proof (device_decides_the_fill_only every_device (scenario "gpt" "flash") "cpu")
    as (Hfixed & _ & Hrest).
  destruct Hrest as (_ & Hsame & _); [reflexivity | right; simpl; lra |].
  destruct (Hsame m0 H0) as (m & Hm & Hmm).
  exists m0, m. split; [exact H0|]. split; [exact (Hfixed m0 H0)|].
  split; assumption.
Defined.

Lemma fsdp_wrap_fn_architecture (x : nn.module) :
  gpt_old.GPT.fsdp_wrap_fn (architecture x) = gpt_old.GPT.fsdp_wrap_fn x.
Proof. destruct x; reflexivity. Qed.

Lemma bert_fsdp_wrap_fn_architecture (x : nn.module) :
  mosaic_bert.MosaicBert.fsdp_wrap_fn (architecture x)
  = mosaic_bert.MosaicBert.fsdp_wrap_fn x.
Proof. destruct x; reflexivity. Qed.

Lemma is_residual_architecture (x : nn.module) :
  is_residual (architecture x) = is_residual x.
Proof. destruct x; reflexivity. Qed.

(** Counting in a model of the architecture of a constructor's tree:
    what holds of none of the modules around the blocks is counted block
    by block. *)
Lemma count_in_stack (p : nn.module -> bool) (cls : nn.pyclass) (cfg : Config)
    (blocks : list nn.module) (c : nat) (m : nn.module) :
  (forall x, p (architecture x) = p x) ->
  architecture m = stack_tree cls cfg blocks ->
  Forall (fun b => architecture b = b) blocks ->
  Forall (fun b => count_modules p b = c) blocks ->
  Forall (fun x => p x = false)
    [stack_tree cls cfg blocks; transformer_tree cfg blocks;
     nn.Embedding_new (vocab_size cfg) (d_model cfg);
     nn.Embedding_new (max_seq_len cfg) (d_model cfg);
     nn.Composite nn.Dropout [] []; block_list blocks;
     nn.LayerNorm_new (d_model cfg);
     nn.Linear_new (d_model cfg) (vocab_size cfg) false] ->
  count_modules p m = (length blocks * c)%nat.
Proof.
  intros Hp Harch Hfixed Hblocks Hrest.
  rewrite <- (stack_tree_architecture cls cfg blocks Hfixed) in Harch.
  rewrite (count_modules_architecture p _ _ Hp Harch).
  unfold count_modules. rewrite stack_tree_modules, !List.filter_app, !length_app.
  rewrite (count_flat_map p c blocks Hblocks).
  repeat match goal with
         | H : Forall _ (_ :: _) |- _ =>
             let Hx := fresh "Hx" in
             apply Forall_cons in H as [Hx H]; cbn beta in Hx
         end.
  cbn [List.filter]. rewrite Hx, Hx0, Hx1, Hx2, Hx3, Hx4, Hx5, Hx6.
  cbn [length]. lia.
Qed.

(** X16.  A model that a constructor returned has one block per layer, and
    no module besides is wrapped or checkpointed: the two predicates
    select exactly [n_layers] modules of it. *)
Theorem one_wrapped_unit_per_layer (rt : nn.runtime) (cfg : Config) :
  (forall device m,
     gpt_old.GPT.__init__ rt cfg device = Ok m ->
     count_modules gpt_old.GPT.fsdp_wrap_fn m = n_layers cfg /\
     count_modules gpt_old.GPT.activation_checkpointing_fn m = n_layers cfg) /\
  (forall m,
     mosaic_bert.MosaicBert.__init__ rt cfg = Ok m ->
     count_modules mosaic_bert.MosaicBert.fsdp_wrap_fn m = n_layers cfg /\
     count_modules mosaic_bert.MosaicBert.activation_checkpointing_fn m
     = n_layers cfg).
Proof.
  split.
  - intros device m Hm.
    destruct (gpt_init_inv rt cfg device m Hm) as (blocks & _ & Harch & Hlen & Hall).
    assert (Hcount : count_modules gpt_old.GPT.fsdp_wrap_fn m = n_layers cfg).
    { rewrite (count_in_stack _ nn.GPT cfg blocks 1 m fsdp_wrap_fn_architecture Harch).
      - lia.
      - eapply Forall_impl; [exact Hall|]. intros b Hb.
        exact (proj1 (gpt_block_built rt _ _ Hb)).
      - eapply Forall_impl; [exact Hall|]. intros b Hb.
        exact (proj1 (proj2 (gpt_block_built rt _ _ Hb))).
      - repeat constructor. }
    split; exact Hcount.
  - intros m Hm.
    destruct (bert_init_inv rt cfg m Hm) as (_ & blocks & _ & Harch & Hlen & Hall).
    assert (Hcount : count_modules mosaic_bert.MosaicBert.fsdp_wrap_fn m
                     = n_layers cfg).
    { rewrite (count_in_stack _ nn.MosaicBert cfg blocks 1 m
                 bert_fsdp_wrap_fn_architecture Harch).
      - lia.
      - eapply Forall_impl; [exact Hall|]. intros b Hb.
        exact (proj1 (bert_block_built rt _ _ Hb)).
      - eapply Forall_impl; [exact Hall|]. intros b Hb.
        exact (proj1 (proj2 (bert_block_built rt _ _ Hb))).
      - repeat constructor. }
    split; exact Hcount.
Qed.

Lemma one_wrapped_unit_per_layer_witness :
  exists m,
    gpt_old.GPT.__init__ every_device (scenario "gpt" "flash") "cpu" = Ok m /\
    count_modules gpt_old.GPT.fsdp_wrap_fn m = 2%nat.
Proof.
  destruct (scenario_gpt_builds every_device "flash" "cpu" eq_refl) as [m Hm];
    [right; reflexivity|].
  exists m. split; [exact Hm|].
  exact (proj1 (proj1 (one_wrapped_unit_per_layer every_device (scenario "gpt" "flash"))
                      "cpu"%string m Hm)).
Defined.

(** X17.  A model that a constructor returned has two [Linear] modules
    tagged residual per layer (the output projection of the attention
    layer and [mlp_down]) and none besides: [2 * n_layers], the number
    under the square root of the residual standard deviation, counts them. *)
Theorem two_residual_projections_per_layer (rt : nn.runtime) (cfg : Config) :
  (forall device m,
     gpt_old.GPT.__init__ rt cfg device = Ok m ->
     count_modules is_residual m = (2 * n_layers cfg)%nat) /\
  (forall m,
     mosaic_bert.MosaicBert.__init__ rt cfg = Ok m ->
     count_modules is_residual m = (2 * n_layers cfg)%nat).
Proof.
  split.
  - intros device m Hm.
    destruct (gpt_init_inv rt cfg device m Hm) as (blocks & _ & Harch & Hlen & Hall).
    rewrite (count_in_stack _ nn.GPT cfg blocks 2 m is_residual_architecture Harch).
    + lia.
    + eapply Forall_impl; [exact Hall|]. intros b Hb.
      exact (proj1 (gpt_block_built rt _ _ Hb)).
    + eapply Forall_impl; [exact Hall|]. intros b Hb.
      exact (proj2 (proj2 (gpt_block_built rt _ _ Hb))).
    + repeat constructor.
  - intros m Hm.
    destruct (bert_init_inv rt cfg m Hm) as (_ & blocks & _ & Harch & Hlen & Hall).
    rewrite (count_in_stack _ nn.MosaicBert cfg blocks 2 m is_residual_architecture
               Harch).
    + lia.
    + eapply Forall_impl; [exact Hall|]. intros b Hb.
      exact (proj1 (bert_block_built rt _ _ Hb)).
    + eapply Forall_impl; [exact Hall|]. intros b Hb.
      exact (proj2 (proj2 (bert_block_built rt _ _ Hb))).
    + repeat constructor.
Qed.

Lemma two_residual_projections_per_layer_witness :
  exists m,
    mosaic_bert.MosaicBert.__init__ every_device (scenario "mosaic_bert" "flash") = Ok m /\
    count_modules is_residual m = 4%nat.
Proof.
  destruct scenario_bert_builds as [m Hm].
  exists m. split; [exact Hm|].
  exact (proj2 (two_residual_projections_per_layer every_device
                  (scenario "mosaic_bert" "flash"))
               m Hm).
Defined.

Section PassAndComposites.

Variable cfg : Config.

Lemma param_init_fn_leaf (m m' : nn.module) :
  gpt_old.GPT.param_init_fn cfg m = Ok m' ->
  match m, m' with
  | nn.Composite _ _ _, _ => True
  | _, nn.Composite _ _ _ => False
  | _, _ => True
  end.
Proof.
  destruct m as [w b r|w|w b|c0 ps0 ch0].
  - unfold gpt_old.GPT.param_init_fn.
    destruct r as [[|]|]; cbn [default from_option id];
      try destruct (2 * n_layers cfg =? 0)%nat; cbn [rbind];
      intros H; inversion H; exact I.
  - rewrite param_init_fn_Embedding. intros H; inversion H; exact I.
  - rewrite param_init_fn_LayerNorm. intros H; inversion H; exact I.
  - intros _. exact I.
Qed.

(** The pass over a module of another class than the three it
    initialises: the module keeps its class and its own parameters, and
    the pass has run over its children. *)
Lemma apply_Composite_inv c ps ch (m' : nn.module) :
  nn.apply (gpt_old.GPT.param_init_fn cfg) (nn.Composite c ps ch) = Ok m' ->
  exists ch',
    m' = nn.Composite c ps ch' /\
    Forall2 (fun p p' => nn.apply (gpt_old.GPT.param_init_fn cfg) (snd p) = Ok (snd p'))
            ch ch'.
Proof.
  cbn [nn.apply].
  match goal with
  | |- context [rbind (?f ch) _] =>
      assert (Hch : forall ch', f ch = Ok ch' ->
                Forall2 (fun p p' =>
                           nn.apply (gpt_old.GPT.param_init_fn cfg) (snd p)
                           = Ok (snd p')) ch ch');
      [|destruct (f ch) as [ch'|e] eqn:Hf]
  end.
  - induction ch as [|[n s] l IH]; intros ch'.
    + intros H; inversion H; constructor.
    + destruct (nn.apply (gpt_old.GPT.param_init_fn cfg) s) as [s'|] eqn:Es;
        cbn [rbind]; [|discriminate].
      match goal with
      | |- context [rbind ?r _] => destruct r as [l'|] eqn:El
      end; cbn [rbind]; [|discriminate].
      intros H; inversion H; subst ch'.
      constructor; [exact Es | exact (IH l' eq_refl)].
  - cbn [rbind]. rewrite param_init_fn_Composite.
    intros H; inversion H; subst m'. exists ch'. split; [reflexivity|].
    exact (Hch ch' eq_refl).
  - cbn [rbind]. discriminate.
Qed.

Lemma apply_composites_back (m m' : nn.module) :
  nn.apply (gpt_old.GPT.param_init_fn cfg) m = Ok m' ->
  forall c ps ch', In (nn.Composite c ps ch') (nn.modules m') ->
  exists ch, In (nn.Composite c ps ch) (nn.modules m).
Proof.
  revert m'. induction m as [w b r|w|w b|c0 ps0 ch0 IH] using module_tree_ind;
    intros m' Hm c ps ch' Hin.
  1-3: cbn [nn.apply] in Hm; apply param_init_fn_leaf in Hm;
       destruct m'; try contradiction;
       cbn in Hin; destruct Hin as [Hin|[]]; discriminate Hin.
  apply apply_Composite_inv in Hm as (ch0' & -> & Hch).
  rewrite modules_Composite in Hin |- *. destruct Hin as [Heq|Hin].
  - injection Heq as -> -> ->. exists ch0. left. reflexivity.
  - apply in_flat_map in Hin as (p' & Hp' & Hin).
    assert (Hex : exists ch,
               In (nn.Composite c ps ch)
                  (flat_map (fun p => nn.modules (snd p)) ch0)).
    { clear -IH Hch Hp' Hin.
      induction Hch as [|p q l l' Hpq _ IHl]; [destruct Hp'|].
      apply Forall_cons in IH as [IHp IHrest].
      destruct Hp' as [->|Hp'].
      - destruct (IHp _ Hpq _ _ _ Hin) as [ch Hch]. exists ch.
        cbn [flat_map]. apply in_or_app. left. exact Hch.
      - destruct (IHl IHrest Hp') as [ch Hch]. exists ch.
        cbn [flat_map]. apply in_or_app. right. exact Hch. }
    destruct Hex as [ch Hex]. exists ch. right. exact Hex.
Qed.

Lemma apply_composites_forth (m m' : nn.module) :
  nn.apply (gpt_old.GPT.param_init_fn cfg) m = Ok m' ->
  forall c ps ch, In (nn.Composite c ps ch) (nn.modules m) ->
  exists ch', In (nn.Composite c ps ch') (nn.modules m').
Proof.
  revert m'. induction m as [w b r|w|w b|c0 ps0 ch0 IH] using module_tree_ind;
    intros m' Hm c ps ch Hin.
  1-3: cbn in Hin; destruct Hin as [Hin|[]]; discriminate Hin.
  apply apply_Composite_inv in Hm as (ch0' & -> & Hch).
  rewrite modules_Composite in Hin |- *. destruct Hin as [Heq|Hin].
  - injection Heq as -> -> ->. exists ch0'. left. reflexivity.
  - apply in_flat_map in Hin as (p & Hp & Hin).
    assert (Hex : exists ch',
               In (nn.Composite c ps ch')
                  (flat_map (fun p => nn.modules (snd p)) ch0')).
    { clear -IH Hch Hp Hin.
      induction Hch as [|p0 q l l' Hpq _ IHl]; [destruct Hp|].
      apply Forall_cons in IH as [IHp IHrest].
      destruct Hp as [->|Hp].
      - destruct (IHp _ Hpq _ _ _ Hin) as [ch' Hch']. exists ch'.
        cbn [flat_map]. apply in_or_app. left. exact Hch'.
      - destruct (IHl IHrest Hp) as [ch' Hch']. exists ch'.
        cbn [flat_map]. apply in_or_app. right. exact Hch'. }
    destruct Hex as [ch' Hex]. exists ch'. right. exact Hex.
Qed.

End PassAndComposites.

Lemma architecture_fixed_modules (m : nn.module) :
  architecture m = m -> Forall (fun x => architecture x = x) (nn.modules m).
Proof.
  induction m as [w b r|w|w b|c ps ch IH] using module_tree_ind; intros Hm.
  1-3: constructor; [exact Hm | constructor].
  rewrite modules_Composite. constructor; [exact Hm|].
  rewrite architecture_Composite in Hm. injection Hm as _ Hch.
  clear -IH Hch. induction IH as [|[n s] l Hs _ IHl]; [constructor|].
  cbn [map fst snd] in Hch. injection Hch as Hs' Hl.
  cbn [flat_map snd]. apply Forall_app. split; [exact (Hs Hs') | exact (IHl Hl)].
Qed.

Lemma fixed_own_parameters c ps ch :
  architecture (nn.Composite c ps ch) = nn.Composite c ps ch ->
  Forall (fun p => nn.fill (snd p) = nn.Default) ps.
Proof.
  rewrite architecture_Composite. intros H. injection H as Hps _.
  induction ps as [|[n [sh f]] ps IH]; [constructor|].
  cbn [map fst snd nn.shape] in Hps. injection Hps as <- Hps.
  constructor; [reflexivity | exact (IH Hps)].
Qed.

Lemma torch_block_has_in_proj (rt : nn.runtime) (cfg : Config) (b : nn.module) :
  attn_impl cfg = "torch"%string ->
  gpt_old.GPTBlock.__init__ rt cfg "meta" = Ok b ->
  exists ch,
    In (nn.Composite nn.MultiheadAttention
          [("in_proj_weight"%string,
            nn.mkParam [(3 * d_model cfg)%nat; d_model cfg] nn.Default);
           ("in_proj_bias"%string, nn.mkParam [(3 * d_model cfg)%nat] nn.Default)]
          ch)
       (nn.modules b).
Proof.
  intros Hsel. rewrite (GPTBlock_init_allocated rt "meta" (allocate_meta rt)), Hsel.
  cbn [String.eqb Ascii.eqb Bool.eqb].
  unfold gpt_old.TorchCausalAttention.__init__.
  rewrite (MultiheadAttention_init_allocated rt "meta" (allocate_meta rt)).
  destruct (n_heads cfg =? 0)%nat; [discriminate|].
  destruct (negb _); [discriminate|]. cbn [rbind].
  destruct (nn.Dropout_init (resid_pdrop cfg)); cbn [rbind]; [|discriminate].
  intros H. injection H as <-. eexists.
  do 3 right. left. reflexivity.
Qed.

(** X18.  The pass initialises the [Linear], [Embedding] and [LayerNorm]
    modules and no other: in a model that the decoder's constructor
    returned, on whatever device, a parameter that belongs to a module of
    another class is as the library constructor left it.  With the torch
    attention layer there are such parameters: the input projection weight
    and bias of [nn.MultiheadAttention] in every block are not drawn from
    [normal(0, init_std)]. *)
Theorem pass_skips_attention_in_proj (rt : nn.runtime) (cfg : Config)
    (device : string) (m : nn.module) :
  gpt_old.GPT.__init__ rt cfg device = Ok m ->
  (forall c ps ch, In (nn.Composite c ps ch) (nn.modules m) ->
     Forall (fun p => nn.fill (snd p) = nn.Default) ps) /\
  (attn_impl cfg = "torch"%string -> n_layers cfg <> 0%nat ->
   exists ch,
     In (nn.Composite nn.MultiheadAttention
           [("in_proj_weight"%string,
             nn.mkParam [(3 * d_model cfg)%nat; d_model cfg] nn.Default);
            ("in_proj_bias"%string, nn.mkParam [(3 * d_model cfg)%nat] nn.Default)]
           ch)
        (nn.modules m)).
Proof.
  intros Hm.
  destruct (gpt_init_inv rt cfg device m Hm) as (blocks & Hmeta & Harch & Hlen & Hall).
  assert (Hfixed : architecture (stack_tree nn.GPT cfg blocks)
                   = stack_tree nn.GPT cfg blocks).
  { apply stack_tree_architecture. eapply Forall_impl; [exact Hall|].
    intros b Hb. exact (proj1 (gpt_block_built rt _ _ Hb)). }
  rewrite (gpt_init_via_meta rt cfg device
             (gpt_init_ok_allocated rt cfg device m Hm)), Hmeta in Hm.
  cbn [rbind] in Hm.
  split.
  - intros c ps ch Hin.
    assert (Hself : exists ch0,
               In (nn.Composite c ps ch0) (nn.modules (stack_tree nn.GPT cfg blocks))).
    { destruct (negb _).
      - exact (apply_composites_back cfg _ _ Hm c ps ch Hin).
      - injection Hm as <-. eauto. }
    destruct Hself as [ch0 Hself].
    pose proof (architecture_fixed_modules _ Hfixed) as Hmods.
    rewrite List.Forall_forall in Hmods.
    exact (fixed_own_parameters c ps ch0 (Hmods _ Hself)).
  - intros Hsel HL.
    destruct blocks as [|b blocks]; [exfalso; apply HL; rewrite <- Hlen; reflexivity|].
    apply Forall_cons in Hall as [Hb _].
    destruct (torch_block_has_in_proj rt cfg b Hsel Hb) as [ch Hch].
    assert (Hself : In (nn.Composite nn.MultiheadAttention
                          [("in_proj_weight"%string,
                            nn.mkParam [(3 * d_model cfg)%nat; d_model cfg] nn.Default);
                           ("in_proj_bias"%string,
                            nn.mkParam [(3 * d_model cfg)%nat] nn.Default)] ch)
                       (nn.modules (stack_tree nn.GPT cfg (b :: blocks)))).
    { rewrite stack_tree_modules. apply in_or_app. right. apply in_or_app. left.
      cbn [flat_map]. apply in_or_app. left. exact Hch. }
    destruct (negb _).
    + exact (apply_composites_forth cfg _ _ Hm _ _ _ Hself).
    + injection Hm as <-. eauto.
Qed.

Lemma pass_skips_attention_in_proj_witness :
  exists m ch,
    gpt_old.GPT.__init__ every_device (scenario "gpt" "torch") "cpu" = Ok m /\
    In (nn.Composite nn.MultiheadAttention
          [("in_proj_weight"%string, nn.mkParam [96%nat; 32%nat] nn.Default);
           ("in_proj_bias"%string, nn.mkParam [96%nat] nn.Default)]
          ch)
       (nn.modules m).
Proof.
  destruct (scenario_gpt_builds every_device "torch" "cpu" eq_refl) as [m Hm];
    [left; reflexivity|].
  destruct (proj2 (pass_skips_attention_in_proj every_device (scenario "gpt" "torch")
                     "cpu" m Hm))
    as [ch Hch].
  - reflexivity.
  - simpl. lia.
  - exists m, ch. split; [exact Hm | exact Hch].
Defined.

(** ** The loss of the causal adapters: edge cases *)

Section CausalTargets.

(** What [get_targets] computes from the labels [d] of sequences of [S]
    positions. *)
Lemma causal_targets_lookup (d : list Z) (S k : nat) :
  (0 < S)%nat -> (k < length d)%nat -> (length d mod S = 0)%nat ->
  imap (fun k x => if decide (k mod S = S - 1)%nat then -100 else x)
       (torch.roll_flat d (-1)) !! k
  = Some (if decide (k mod S = S - 1)%nat then -100 else default 0 (d !! (k + 1)%nat)).
Proof.
  intros HS Hk Hmod. rewrite list_lookup_imap.
  destruct (torch.roll_flat d (-1) !! k) as [x|] eqn:Hx.
  - cbn [fmap option_fmap option_map].
    destruct (decide (k mod S = S - 1)%nat) as [Hlast|Hlast]; [reflexivity|].
    assert (Hnext : (Datatypes.S k < length d)%nat).
    { destruct (Nat.eq_dec (Datatypes.S k) (length d)) as [Heq|Hne]; [|lia].
      exfalso. apply Hlast.
      apply Nat.Div0.div_exact in Hmod.
      assert (Hq : (0 < length d / S)%nat) by nia.
      replace k with ((S - 1) + (length d / S - 1) * S)%nat by nia.
      rewrite Nat.Div0.mod_add. apply Nat.mod_small. lia. }
    rewrite roll_flat_left_lookup in Hx by exact Hnext.
    replace (k + 1)%nat with (Datatypes.S k) by lia. rewrite Hx. reflexivity.
  - apply lookup_ge_None in Hx. rewrite roll_flat_length in Hx. lia.
Qed.

Lemma causal_targets_length (d : list Z) (S : nat) :
  length (imap (fun k x => if decide (k mod S = S - 1)%nat then -100 else x)
               (torch.roll_flat d (-1))) = length d.
Proof. rewrite length_imap. apply roll_flat_length. Qed.

(** The loss of the causal adapters, once the targets are known. *)
Lemma causal_loss_run (outputs : tensor3) (batch : Batch) (h : heap) (d : list Z) :
  h !! data_ptr (labels batch) = Some d ->
  (0 < size1 (labels batch))%nat ->
  fst (loss_of gpt.ComposerGPT.get_targets outputs batch h)
  = F.cross_entropy (concat outputs)
      (imap (fun k x => if decide (k mod size1 (labels batch)
                                   = size1 (labels batch) - 1)%nat
                        then -100 else x)
            (torch.roll_flat d (-1))) (-100).
Proof.
  intros Hd HS.
  pose proof (get_targets_run h batch HS) as Hrun. cbv zeta in Hrun.
  rewrite Hd in Hrun. change (default [] (Some d)) with d in Hrun.
  erewrite loss_of_run.
  2: exact Hrun.
  2: cbn [data_ptr]; apply lookup_insert_eq.
  reflexivity.
Qed.

Lemma get_targets_frame (h : heap) (batch : Batch) (l : loc) :
  is_Some (h !! l) ->
  snd (gpt.ComposerGPT.get_targets batch h) !! l = h !! l.
Proof.
  intros Hl. pose proof (fresh_not_live h l Hl) as Hne.
  destruct (Nat.eq_dec (size1 (labels batch)) 0%nat) as [HS|HS].
  - destruct (get_targets_run_empty h batch HS) as [msg ->].
    cbn [snd]. by rewrite lookup_insert_ne.
  - rewrite get_targets_run by lia.
    cbn [snd]. by rewrite !lookup_insert_ne.
Qed.

End CausalTargets.

(** X10.  Sequences of one position have no next token: all targets of the
    causal adapters are then the sentinel, and the loss is not a number,
    whatever the logits and the labels are. *)
Theorem causal_loss_of_single_positions_is_nan
    (loss : tensor3 -> Batch -> M scalar)
    (outputs : tensor3) (batch : Batch) (h : heap) (d : list Z) :
  (exists self, loss = gpt_old.ComposerGPT.loss self) \/
  (exists self, loss = gpt.ComposerGPT.loss self) ->
  h !! data_ptr (labels batch) = Some d ->
  size1 (labels batch) = 1%nat ->
  length (concat outputs) = length d ->
  fst (loss outputs batch h) = Ok NaN.
Proof.
  intros Hadapter Hd HS Hlen.
  assert (loss = loss_of gpt.ComposerGPT.get_targets) as ->.
  { destruct Hadapter as [(self & ->)|(self & ->)]; reflexivity. }
  rewrite (causal_loss_run outputs batch h d Hd) by lia.
  rewrite HS.
  set (targets := imap _ _).
  assert (Hall : Forall (fun t => t = IGNORE) targets).
  { apply Forall_lookup. intros k t. unfold targets. rewrite list_lookup_imap.
    destruct (torch.roll_flat d (-1) !! k); [|discriminate].
    cbn [fmap option_fmap option_map]. rewrite Nat.mod_1_r. cbn.
    intros H. injection H as <-. reflexivity. }
  assert (Hlen' : length (concat outputs) = length targets).
  { unfold targets. rewrite causal_targets_length. exact Hlen. }
  rewrite cross_entropy_is_mean_over_included.
  - unfold mean_over_included.
    rewrite (proj2 (included_nil _ _ Hlen') Hall). reflexivity.
  - exact Hlen'.
  - intros n x t _ Ht Hne. exfalso. apply Hne.
    rewrite Forall_lookup in Hall. exact (Hall n t Ht).
Qed.

Lemma causal_loss_of_single_positions_is_nan_witness :
  fst (gpt_old.ComposerGPT.loss (gpt_old.ComposerGPT.mk (tiny_flash_gpt (fun x => x)))
         [[[1; 2]]; [[3; 4]]]%R
         (mkBatch (mkLong 1 2 1) (mkLong 2 2 1) (mkLong 3 2 1))
         {[ 3%positive := [0; 1] ]})
  = Ok NaN.
Proof.
  apply (causal_loss_of_single_positions_is_nan
           (gpt_old.ComposerGPT.loss
              (gpt_old.ComposerGPT.mk (tiny_flash_gpt (fun x => x))))
           [[[1; 2]]; [[3; 4]]]%R
           (mkBatch (mkLong 1 2 1) (mkLong 2 2 1) (mkLong 3 2 1))
           {[ 3%positive := [0; 1] ]} [0; 1]).
  - left. eexists. reflexivity.
  - reflexivity.
  - reflexivity.
  - reflexivity.
Defined.

Lemma next_not_first (S k : nat) :
  (0 < S)%nat -> (k mod S <> S - 1)%nat -> ((k + 1) mod S <> 0)%nat.
Proof.
  intros HS Hk Hz. apply Hk.
  apply Nat.Div0.div_exact in Hz.
  assert (Hq : (0 < (k + 1) / S)%nat) by nia.
  replace k with ((S - 1) + ((k + 1) / S - 1) * S)%nat by nia.
  rewrite Nat.Div0.mod_add. apply Nat.mod_small. lia.
Qed.

(** X9.  The first label of a sequence is the target of no position: the
    loss of the causal adapters is the same for two label tensors that
    differ in their first column only. *)
Theorem causal_loss_ignores_first_labels
    (loss : tensor3 -> Batch -> M scalar)
    (outputs : tensor3) (batch : Batch) (h : heap) (d d' : list Z) :
  (exists self, loss = gpt_old.ComposerGPT.loss self) \/
  (exists self, loss = gpt.ComposerGPT.loss self) ->
  h !! data_ptr (labels batch) = Some d ->
  length d = (size0 (labels batch) * size1 (labels batch))%nat ->
  length d' = length d ->
  (forall k, (k mod size1 (labels batch) <> 0)%nat -> d' !! k = d !! k) ->
  fst (loss outputs batch (<[data_ptr (labels batch) := d']> h))
  = fst (loss outputs batch h).
Proof.
  intros Hadapter Hd Hlen Hlen' Hsame.
  assert (loss = loss_of gpt.ComposerGPT.get_targets) as ->.
  { destruct Hadapter as [(self & ->)|(self & ->)]; reflexivity. }
  set (S := size1 (labels batch)) in *.
  destruct (Nat.eq_dec S 0%nat) as [HS0|HS0].
  - assert (d = []) as -> by (apply length_zero_iff_nil; nia).
    assert (d' = []) as -> by (apply length_zero_iff_nil; exact Hlen').
    rewrite insert_id by exact Hd. reflexivity.
  - assert (HS : (0 < S)%nat) by lia.
    rewrite (causal_loss_run outputs batch h d Hd HS).
    rewrite (causal_loss_run outputs batch _ d' (lookup_insert_eq _ _ _) HS).
    fold S. f_equal.
    assert (Hmod : (length d mod S = 0)%nat).
    { rewrite Hlen. apply Nat.Div0.mod_mul. }
    apply list_eq. intros k.
    destruct (Nat.lt_ge_cases k (length d)) as [Hk|Hk].
    + rewrite !causal_targets_lookup by (try rewrite Hlen'; assumption).
      destruct (decide (k mod S = S - 1)%nat) as [Hlast|Hlast]; [reflexivity|].
      rewrite (Hsame (k + 1)%nat) by (apply next_not_first; assumption).
      reflexivity.
    + rewrite !(proj2 (lookup_ge_None _ _)); [reflexivity| |];
        rewrite causal_targets_length; lia.
Qed.

Lemma causal_loss_ignores_first_labels_witness :
  fst (gpt.ComposerGPT.loss (gpt.ComposerGPT.mk (fun _ _ => Ok []))
         [[zeros 8; zeros 8]]
         (mkBatch (mkLong 1 1 2) (mkLong 2 1 2) (mkLong 3 1 2))
         (<[3%positive := [7; 6]]> {[ 3%positive := [5; 6] ]}))
  = fst (gpt.ComposerGPT.loss (gpt.ComposerGPT.mk (fun _ _ => Ok []))
           [[zeros 8; zeros 8]]
           (mkBatch (mkLong 1 1 2) (mkLong 2 1 2) (mkLong 3 1 2))
           {[ 3%positive := [5; 6] ]}).
Proof.
  apply (causal_loss_ignores_first_labels
           (gpt.ComposerGPT.loss (gpt.ComposerGPT.mk (fun _ _ => Ok [])))
           [[zeros 8; zeros 8]]
           (mkBatch (mkLong 1 1 2) (mkLong 2 1 2) (mkLong 3 1 2))
           {[ 3%positive := [5; 6] ]} [5; 6] [7; 6]).
  - right. eexists. reflexivity.
  - reflexivity.
  - reflexivity.
  - reflexivity.
  - intros [|[|k]] Hk; cbn in Hk |- *; [lia | reflexivity | reflexivity].
Defined.

(** X12.  Computing the loss modifies no tensor that was live before the
    call, whatever the outputs and whether it returns or raises, in all
    three adapters: the batch (labels, input ids, attention mask) is as it
    was, and the shift and the write of [-100] of the causal adapters go
    to storage that the call allocates. *)
Theorem loss_leaves_live_tensors
    (loss : tensor3 -> Batch -> M scalar)
    (outputs : tensor3) (batch : Batch) (h : heap) (l : loc) :
  (exists self, loss = gpt_old.ComposerGPT.loss self) \/
  (exists self, loss = mosaic_bert.ComposerMosaicBert.loss self) \/
  (exists self, loss = gpt.ComposerGPT.loss self) ->
  is_Some (h !! l) ->
  snd (loss outputs batch h) !! l = h !! l.
Proof.
  intros Hadapter Hl.
  assert (Hloss : loss = loss_of gpt.ComposerGPT.get_targets \/
                  loss = loss_of mosaic_bert.ComposerMosaicBert.get_targets).
  { destruct Hadapter as [(self & ->)|[(self & ->)|(self & ->)]];
      [left | right | left]; reflexivity. }
  destruct Hloss as [-> | ->].
  - pose proof (get_targets_frame h batch l Hl) as Hframe.
    unfold loss_of, bind, torch.view_flat, load, lift.
    destruct (gpt.ComposerGPT.get_targets batch h) as [[t|e] h1];
      cbn [snd] in Hframe |- *; exact Hframe.
  - reflexivity.
Qed.

Lemma loss_leaves_live_tensors_witness :
  snd (gpt_old.ComposerGPT.loss (gpt_old.ComposerGPT.mk (tiny_flash_gpt (fun x => x)))
         [[zeros 2; zeros 2]]
         (mkBatch (mkLong 1 1 2) (mkLong 2 1 2) (mkLong 3 1 2))
         {[ 3%positive := [0; 1] ]}) !! 3%positive
  = ({[ 3%positive := [0; 1] ]} : heap) !! 3%positive.
Proof.
  apply (loss_leaves_live_tensors
           (gpt_old.ComposerGPT.loss
              (gpt_old.ComposerGPT.mk (tiny_flash_gpt (fun x => x))))
           [[zeros 2; zeros 2]]
           (mkBatch (mkLong 1 1 2) (mkLong 2 1 2) (mkLong 3 1 2))
           {[ 3%positive := [0; 1] ]} 3%positive).
  - left. eexists. reflexivity.
  - eexists. reflexivity.
Defined.

(** ** A training step: [forward], then [loss] *)

Section TrainingStep.

Lemma has_shape_concat (B S V : nat) (x : tensor3) :
  has_shape B S V x ->
  length (concat x) = (B * S)%nat /\ Forall (fun v => length v = V) (concat x).
Proof.
  intros [HB Hx]. subst B. induction Hx as [|s x [Hs Hv] _ [IHlen IHall]].
  - split; [reflexivity | constructor].
  - cbn [concat length]. rewrite length_app, IHlen, Hs. split; [lia|].
    apply Forall_app. split; assumption.
Qed.

Lemma roll_flat_Forall (P : Z -> Prop) (d : list Z) (s : Z) :
  Forall P d -> Forall P (torch.roll_flat d s).
Proof.
  intros H. unfold torch.roll_flat. destruct d as [|z d]; [constructor|].
  apply Forall_app. split; [apply Forall_drop | apply Forall_take]; exact H.
Qed.

Lemma causal_targets_Forall (P : Z -> Prop) (d : list Z) (S : nat) :
  P (-100) -> Forall P d ->
  Forall P (imap (fun k x => if decide (k mod S = S - 1)%nat then -100 else x)
                 (torch.roll_flat d (-1))).
Proof.
  intros H100 Hd. apply Forall_lookup. intros k t. rewrite list_lookup_imap.
  destruct (torch.roll_flat d (-1) !! k) as [x|] eqn:Hx; [|discriminate].
  cbn [fmap option_fmap option_map]. intros H. injection H as <-.
  destruct (decide _); [exact H100|].
  pose proof (roll_flat_Forall P d (-1) Hd) as Hr.
  rewrite Forall_lookup in Hr. exact (Hr k x Hx).
Qed.

(** Logits of shape [(B, S, V)] against targets that are the sentinel or
    a token: the loss returns. *)
Lemma cross_entropy_of_logits (B S V : nat) (outputs : tensor3) (targets : list Z) :
  has_shape B S V outputs ->
  length targets = (B * S)%nat ->
  Forall (fun t => t = -100 \/ 0 <= t < Z.of_nat V) targets ->
  F.cross_entropy (concat outputs) targets (-100)
  = Ok (mean_over_included (concat outputs) targets).
Proof.
  intros Hshape Hlen Hrange.
  destruct (has_shape_concat B S V outputs Hshape) as [Hlen' Hall].
  apply cross_entropy_is_mean_over_included; [lia|].
  intros n x t Hx Ht Hne.
  rewrite Forall_lookup in Hall. rewrite Forall_lookup in Hrange.
  rewrite (Hall n x Hx). destruct (Hrange n t Ht) as [->|Hin]; [contradiction|].
  exact Hin.
Qed.

End TrainingStep.

(** X11.  Sequences of no position have no last position: in the causal
    adapters the write [targets[:, -1] = -100] raises, and [loss] with it,
    whatever the outputs are; the cross-entropy is not reached. *)
Theorem causal_loss_of_empty_sequences_raises
    (loss : tensor3 -> Batch -> M scalar)
    (outputs : tensor3) (batch : Batch) (h : heap) :
  (exists self, loss = gpt_old.ComposerGPT.loss self) \/
  (exists self, loss = gpt.ComposerGPT.loss self) ->
  size1 (labels batch) = 0%nat ->
  fst (loss outputs batch h)
  = Raise (IndexError "index -1 is out of bounds for dimension 1 with size 0").
Proof.
  intros Hadapter HS.
  assert (loss = loss_of gpt.ComposerGPT.get_targets) as ->.
  { destruct Hadapter as [(self & ->)|(self & ->)]; reflexivity. }
  unfold loss_of, gpt.ComposerGPT.get_targets, torch.roll, torch.setitem_column.
  unfold bind, load, alloc, store, ret, lift. cbn [data_ptr size0 size1].
  rewrite HS. reflexivity.
Qed.

Lemma causal_loss_of_empty_sequences_raises_witness :
  fst (gpt.ComposerGPT.loss (gpt.ComposerGPT.mk (fun _ _ => Ok [])) [[]; []]
         (mkBatch (mkLong 1 2 0) (mkLong 2 2 0) (mkLong 3 2 0))
         {[ 3%positive := [] ]})
  = Raise (IndexError "index -1 is out of bounds for dimension 1 with size 0").
Proof.
  apply (causal_loss_of_empty_sequences_raises
           (gpt.ComposerGPT.loss (gpt.ComposerGPT.mk (fun _ _ => Ok []))) [[]; []]
           (mkBatch (mkLong 1 2 0) (mkLong 2 2 0) (mkLong 3 2 0))
           {[ 3%positive := [] ]}).
  - right. eexists. reflexivity.
  - reflexivity.
Defined.

(** ** Attention and the keys that the mask rules out *)

Section AllowedKeys.

(** The attention output of a query is computed from the keys and values
    that the boolean mask allows: what a masked position holds does not
    matter, as long as its value has the same length. *)
Lemma attention_row_ext (attn_bias : nat -> R) (allowed allowed' : nat -> bool)
    (drop_scale : nat -> R) (scaling : R) (hd : nat) (q : vec)
    (ks ks' vs vs' : list vec) :
  length ks' = length ks ->
  (forall j, (j < length ks)%nat -> allowed' j = allowed j) ->
  (forall j, allowed j = true -> ks' !! j = ks !! j) ->
  (forall j, allowed j = true -> vs' !! j = vs !! j) ->
  (forall j v v', vs !! j = Some v -> vs' !! j = Some v' -> length v' = length v) ->
  length vs' = length vs ->
  F.attention_row attn_bias allowed' drop_scale scaling hd q ks' vs'
  = F.attention_row attn_bias allowed drop_scale scaling hd q ks vs.
Proof.
  intros Hlen Hallowed Hks Hvs Hvlen Hvslen.
  unfold F.attention_row, F.attention_weights.
  set (g := fun (j : nat) (k : vec) =>
              if allowed j then exp (dot q k * scaling + attn_bias j) else 0%R).
  assert (He : imap (fun j k => if allowed' j
                                then exp (dot q k * scaling + attn_bias j)
                                else 0%R) ks'
               = imap g ks).
  { apply list_eq. intros j. rewrite !list_lookup_imap.
    destruct (ks !! j) as [k|] eqn:Hk.
    - pose proof (lookup_lt_Some _ _ _ Hk) as Hj.
      destruct (ks' !! j) as [k'|] eqn:Hk'.
      + cbn. f_equal. unfold g. rewrite (Hallowed j Hj).
        destruct (allowed j) eqn:Ha; [|reflexivity].
        rewrite (Hks j Ha), Hk in Hk'. injection Hk' as <-. reflexivity.
      + apply lookup_ge_None in Hk'. lia.
    - apply lookup_ge_None in Hk.
      rewrite (proj2 (lookup_ge_None ks' j)) by lia. reflexivity. }
  rewrite He. set (e := imap g ks). f_equal.
  apply list_eq. intros j. rewrite !lookup_zip_with.
  unfold F.dropout. rewrite list_lookup_imap, map_fmap, list_lookup_fmap.
  unfold e. rewrite list_lookup_imap. fold e.
  destruct (ks !! j) as [k|] eqn:Hk; [|reflexivity].
  cbn [fmap option_fmap option_map mbind option_bind].
  destruct (vs !! j) as [v|] eqn:Hv.
  - destruct (vs' !! j) as [v'|] eqn:Hv'.
    + cbn. f_equal. unfold g. destruct (allowed j) eqn:Ha.
      * rewrite (Hvs j Ha), Hv in Hv'. injection Hv' as <-. reflexivity.
      * replace (0 / vsum e * drop_scale j)%R with 0%R
          by (unfold Rdiv; rewrite !Rmult_0_l; reflexivity).
        rewrite !vscale_0, (Hvlen j v v' Hv Hv'). reflexivity.
    + apply lookup_ge_None in Hv'. apply lookup_lt_Some in Hv. lia.
  - apply lookup_ge_None in Hv.
    rewrite (proj2 (lookup_ge_None vs' j)) by lia. reflexivity.
Qed.

Lemma multi_head_attention_allowed_ext (H hd : nat) (attn_bias : nat -> nat -> R)
    (allowed allowed' : nat -> nat -> bool) (drop_scale : nat -> nat -> nat -> R)
    (qs ks vs : list vec) :
  (forall i j, (j < length ks)%nat -> allowed' i j = allowed i j) ->
  F.multi_head_attention H hd attn_bias allowed' drop_scale qs ks vs
  = F.multi_head_attention H hd attn_bias allowed drop_scale qs ks vs.
Proof.
  intros Hallowed. unfold F.multi_head_attention.
  apply imap_ext. intros i q _. cbn beta. f_equal. apply map_ext. intros h.
  apply attention_row_ext; try reflexivity.
  - intros j Hj. rewrite length_map in Hj. exact (Hallowed i j Hj).
  - intros j v v' Hv Hv'. congruence.
Qed.

(** A key padding mask that marks every position of a sequence valid is
    no mask. *)
Lemma FlashMHA_attend_all_valid (m : FlashMHA.t) (kp : list (list bool)) (b : nat)
    (x : list vec) :
  (forall j, (j < length x)%nat -> nth j (nth b kp []) false = true) ->
  FlashMHA.attend m (Some kp) b x = FlashMHA.attend m None b x.
Proof.
  intros Hfull. unfold FlashMHA.attend. f_equal.
  rewrite (multi_head_attention_allowed_ext _ _ _
             (FlashMHA.allowed m None b) (FlashMHA.allowed m (Some kp) b)).
  - apply imap_ext. intros i c Hi. cbn beta.
    apply lookup_lt_Some in Hi. unfold F.multi_head_attention in Hi.
    rewrite length_imap, !length_map in Hi.
    cbn [FlashMHA.valid]. rewrite (Hfull i Hi). reflexivity.
  - intros i j Hj. rewrite !length_map in Hj.
    unfold FlashMHA.allowed. cbn [FlashMHA.valid]. rewrite (Hfull j Hj). reflexivity.
Qed.

End AllowedKeys.

Section FullMask.

Variables (B S : nat) (kp : list (list bool)).
Hypothesis Hfull : full_mask B S kp.

Lemma flash_forward_full_mask (m : FlashMHA.t) (x : tensor3) :
  has_dims B S x ->
  FlashMHA.forward m x (Some kp) = FlashMHA.forward m x None.
Proof.
  intros Hx. apply has_dims_lookup in Hx as [HB HS].
  unfold FlashMHA.forward. f_equal. apply imap_ext. intros b s Hb.
  apply FlashMHA_attend_all_valid. intros j Hj.
  apply Hfull; [apply lookup_lt_Some in Hb; lia | rewrite (HS b s Hb) in Hj; exact Hj].
Qed.

Lemma gpt_block_forward_full_mask (blk : gpt_old.GPTBlock.t) (x : tensor3) :
  has_dims B S x ->
  gpt_old.GPTBlock.forward blk S x (Some kp) = gpt_old.GPTBlock.forward blk S x None.
Proof.
  intros Hx. unfold gpt_old.GPTBlock.forward.
  destruct (gpt_old.GPTBlock.causal_attn blk) as [a|a]; [reflexivity|].
  cbn [gpt_old.GPTBlock.attend]. unfold gpt_old.FlashCausalAttention.forward.
  rewrite flash_forward_full_mask by (apply has_dims_tmap; exact Hx). reflexivity.
Qed.

Lemma gpt_block_forward_dims (blk : gpt_old.GPTBlock.t) (x y : tensor3) kpm :
  has_dims B S x -> gpt_old.GPTBlock.forward blk S x kpm = Ok y -> has_dims B S y.
Proof.
  intros Hx Hy. destruct (block_accepts_dec S blk) as [Hacc|Hrej].
  - destruct (proj1 (block_forward_accepts blk B S x kpm Hx) Hacc) as (y' & Hy' & Hd).
    congruence.
  - destruct (proj2 (block_forward_accepts blk B S x kpm Hx) Hrej) as (msg & Hmsg).
    congruence.
Qed.

Lemma gpt_run_blocks_full_mask (bs : list gpt_old.GPTBlock.t) (x : tensor3) :
  has_dims B S x ->
  gpt_old.GPT.run_blocks bs S x (Some kp) = gpt_old.GPT.run_blocks bs S x None.
Proof.
  revert x. induction bs as [|blk bs IH]; intros x Hx; [reflexivity|].
  cbn [gpt_old.GPT.run_blocks]. rewrite (gpt_block_forward_full_mask blk x Hx).
  destruct (gpt_old.GPTBlock.forward blk S x None) as [y|] eqn:Hy; [|reflexivity].
  cbn [rbind]. apply IH. exact (gpt_block_forward_dims blk x y None Hx Hy).
Qed.

Lemma bert_block_forward_full_mask (blk : mosaic_bert.BERTBlock.t) (x : tensor3) :
  has_dims B S x ->
  mosaic_bert.BERTBlock.forward blk x (Some kp) = mosaic_bert.BERTBlock.forward blk x None.
Proof.
  intros Hx. unfold mosaic_bert.BERTBlock.forward,
    mosaic_bert.FlashNonCausalAttention.forward.
  rewrite flash_forward_full_mask by (apply has_dims_tmap; exact Hx). reflexivity.
Qed.

Lemma bert_run_blocks_full_mask (bs : list mosaic_bert.BERTBlock.t) (x : tensor3) :
  has_dims B S x ->
  mosaic_bert.MosaicBert.run_blocks bs x (Some kp)
  = mosaic_bert.MosaicBert.run_blocks bs x None.
Proof.
  unfold mosaic_bert.MosaicBert.run_blocks. revert x.
  induction bs as [|blk bs IH]; intros x Hx; [reflexivity|].
  cbn [fold_left]. rewrite (bert_block_forward_full_mask blk x Hx).
  apply IH, bert_block_dims, Hx.
Qed.

End FullMask.

Section EmbeddedDims.

Lemma rmapM_length {A B} (f : A -> result B) (l : list A) (e : list B) :
  rmapM f l = Ok e -> length e = length l.
Proof.
  revert e. induction l as [|x l IH]; intros e.
  - cbn. intros H. injection H as <-. reflexivity.
  - cbn [rmapM]. destruct (f x); cbn [rbind]; [|discriminate].
    destruct (rmapM f l) as [r|]; cbn [rbind]; [|discriminate].
    intros H. injection H as <-. cbn [length]. f_equal. apply IH. reflexivity.
Qed.

(** Whatever the token ids are: when the lookups return, they return
    [B] sequences of [S] rows. *)
Lemma token_embeddings_dims (W : list vec) (B S : nat) (ids : list Z) (tok : tensor3) :
  length ids = (B * S)%nat ->
  rmapM (fun r => F.embedding r W) (rows B S ids) = Ok tok ->
  has_dims B S tok.
Proof.
  intros Hlen Htok. apply has_dims_lookup. split.
  - rewrite (rmapM_length _ _ _ Htok). unfold rows. rewrite length_map, length_seq.
    reflexivity.
  - intros b s Hs. pose proof (rmapM_lookup _ _ _ b Htok) as Hb.
    unfold rows in Hb. rewrite map_fmap, list_lookup_fmap in Hb.
    destruct (seq 0 B !! b) as [b'|] eqn:Hseq; cbn in Hb; [|congruence].
    apply lookup_seq in Hseq as [-> HbB]. destruct Hb as (y & Hy & Hys).
    assert (y = s) as -> by congruence.
    unfold F.embedding in Hy. rewrite (rmapM_length _ _ _ Hy).
    apply (row_length _ _ _ B); assumption.
Qed.

Lemma position_embeddings_length (W : list vec) (S : nat) (pos : list vec) :
  F.embedding (map Z.of_nat (seq 0 S)) W = Ok pos -> length pos = S.
Proof.
  intros H. unfold F.embedding in H.
  rewrite (rmapM_length _ _ _ H), length_map, length_seq. reflexivity.
Qed.

End EmbeddedDims.

(** X3.  An attention mask without a zero is no mask: for a batch whose
    [attention_mask] marks every position, [forward] of the adapters is
    [forward] of the model on the token ids with [key_padding_mask=None],
    result or exception alike, and the store is left alone. *)
Theorem full_attention_mask_is_no_mask (batch : Batch) (h : heap) (ids am : list Z) :
  h !! data_ptr (input_ids batch) = Some ids ->
  h !! data_ptr (attention_mask batch) = Some am ->
  size0 (attention_mask batch) = size0 (input_ids batch) ->
  size1 (attention_mask batch) = size1 (input_ids batch) ->
  length ids = (size0 (input_ids batch) * size1 (input_ids batch))%nat ->
  length am = (size0 (input_ids batch) * size1 (input_ids batch))%nat ->
  Forall (fun z => z <> 0) am ->
  (forall self : gpt_old.ComposerGPT.t,
     gpt_old.ComposerGPT.forward self batch h
     = (gpt_old.GPT.forward (gpt_old.ComposerGPT.model self)
          (mkValue (size0 (input_ids batch)) (size1 (input_ids batch)) ids) None, h)) /\
  (forall self : mosaic_bert.ComposerMosaicBert.t,
     mosaic_bert.ComposerMosaicBert.forward self batch h
     = (mosaic_bert.MosaicBert.forward (mosaic_bert.ComposerMosaicBert.model self)
          (mkValue (size0 (input_ids batch)) (size1 (input_ids batch)) ids) None, h)).
Proof.
  intros Hids Ham HB HS Hlen Hamlen Hall.
  set (B := size0 (input_ids batch)) in *. set (S := size1 (input_ids batch)) in *.
  assert (Hfull : full_mask B S (rows B S (torch.to_bool am))).
  { intros b j Hb Hj. unfold rows.
    rewrite !nth_lookup, map_fmap, list_lookup_fmap, lookup_seq_lt by exact Hb.
    cbn [fmap option_fmap option_map default from_option id Nat.add].
    unfold Datatypes.id.
    rewrite row_lookup by exact Hj. unfold torch.to_bool.
    rewrite map_fmap, list_lookup_fmap.
    destruct (am !! (b * S + j)%nat) as [z|] eqn:Hz.
    - cbn. rewrite Forall_lookup in Hall. specialize (Hall _ _ Hz). cbn in Hall.
      destruct (Z.eqb_spec z 0); [contradiction | reflexivity].
    - apply lookup_ge_None in Hz. nia. }
  split; intros self.
  - unfold gpt_old.ComposerGPT.forward, bind, load, lift. rewrite Hids, Ham, HB, HS.
    change (default [] (Some ?x)) with x. fold B S. f_equal.
    unfold gpt_old.GPT.forward. cbn [shape0 shape1 flat].
    destruct (negb _); [reflexivity|].
    unfold Embedding.forward at 1 3.
    destruct (rmapM _ (rows B S ids)) as [tok|] eqn:Htok; [|reflexivity].
    cbn [rbind]. unfold Embedding.forward.
    destruct (F.embedding (map Z.of_nat (seq 0 S)) _) as [pos|] eqn:Hpos;
      [|reflexivity].
    cbn [rbind].
    rewrite (gpt_run_blocks_full_mask B S _ Hfull); [reflexivity|].
    apply embedded_dims.
    + exact (token_embeddings_dims _ B S ids tok Hlen Htok).
    + exact (position_embeddings_length _ S pos Hpos).
  - unfold mosaic_bert.ComposerMosaicBert.forward, bind, load, lift.
    rewrite Hids, Ham, HB, HS.
    change (default [] (Some ?x)) with x. fold B S. f_equal.
    unfold mosaic_bert.MosaicBert.forward. cbn [shape0 shape1 flat].
    destruct (negb _); [reflexivity|].
    unfold Embedding.forward at 1 3.
    destruct (rmapM _ (rows B S ids)) as [tok|] eqn:Htok; [|reflexivity].
    cbn [rbind]. unfold Embedding.forward.
    destruct (F.embedding (map Z.of_nat (seq 0 S)) _) as [pos|] eqn:Hpos;
      [|reflexivity].
    cbn [rbind].
    rewrite (bert_run_blocks_full_mask B S _ Hfull); [reflexivity|].
    apply embedded_dims.
    + exact (token_embeddings_dims _ B S ids tok Hlen Htok).
    + exact (position_embeddings_length _ S pos Hpos).
Qed.

Lemma full_attention_mask_is_no_mask_witness :
  gpt_old.ComposerGPT.forward (gpt_old.ComposerGPT.mk (tiny_flash_gpt (fun x => x)))
    (mkBatch (mkLong 1 1 2) (mkLong 2 1 2) (mkLong 3 1 2))
    {[ 1%positive := [0; 1]; 2%positive := [1; 1]; 3%positive := [0; 1] ]}
  = (gpt_old.GPT.forward (tiny_flash_gpt (fun x => x)) (mkValue 1 2 [0; 1]) None,
     {[ 1%positive := [0; 1]; 2%positive := [1; 1]; 3%positive := [0; 1] ]}).
Proof.
  refine (proj1 (full_attention_mask_is_no_mask
                   (mkBatch (mkLong 1 1 2) (mkLong 2 1 2) (mkLong 3 1 2))
                   {[ 1%positive := [0; 1]; 2%positive := [1; 1];
                      3%positive := [0; 1] ]}
                   [0; 1] [1; 1] _ _ _ _ _ _ _)
                (gpt_old.ComposerGPT.mk (tiny_flash_gpt (fun x => x)))).
  - reflexivity.
  - reflexivity.
  - reflexivity.
  - reflexivity.
  - reflexivity.
  - reflexivity.
  - repeat constructor; discriminate.
Defined.

(** ** Padded positions *)

Section AgreeOn.

Variable v : nat -> bool.






End AgreeOn.

Section PaddedKeys.






End PaddedKeys.

Section EncoderBySequence.





End EncoderBySequence.



(** ** The logits that [forward] returns *)

Section ReturnedLogits.

Lemma gpt_run_blocks_dims (bs : list gpt_old.GPTBlock.t) (B S : nat)
    (x y : tensor3) kpm :
  has_dims B S x -> gpt_old.GPT.run_blocks bs S x kpm = Ok y -> has_dims B S y.
Proof.
  revert x. induction bs as [|blk bs IH]; intros x Hx.
  - cbn [gpt_old.GPT.run_blocks]. intros H. injection H as <-. exact Hx.
  - cbn [gpt_old.GPT.run_blocks].
    destruct (gpt_old.GPTBlock.forward blk S x kpm) as [x'|] eqn:Hblk; cbn [rbind];
      [|discriminate].
    apply IH. exact (gpt_block_forward_dims B S blk x x' kpm Hx Hblk).
Qed.

(** What a call of [forward] that returns has done: the length check
    passed, and the logits are the output projection of the normalised
    output of the last block, one row per position of the batch. *)
Lemma gpt_forward_returned (self : gpt_old.GPT.t) (ids : LongValue) kpm
    (logits : tensor3) :
  length (flat ids) = (shape0 ids * shape1 ids)%nat ->
  gpt_old.GPT.forward self ids kpm = Ok logits ->
  (shape1 ids <= max_seq_len (gpt_old.GPT.cfg self))%nat /\
  exists x, has_dims (shape0 ids) (shape1 ids) x /\
            logits = tmap (Linear.forward (gpt_old.GPT.lm_head self))
                          (tmap (LayerNorm.forward (gpt_old.GPT.ln_f self)) x).
Proof.
  intros Hlen. unfold gpt_old.GPT.forward.
  destruct (Nat.leb_spec (shape1 ids) (max_seq_len (gpt_old.GPT.cfg self))) as [HS|];
    cbn [negb]; [|discriminate].
  unfold Embedding.forward.
  destruct (rmapM _ _) as [tok|] eqn:Htok; cbn [rbind]; [|discriminate].
  destruct (F.embedding _ _) as [pos|] eqn:Hpos; cbn [rbind]; [|discriminate].
  destruct (gpt_old.GPT.run_blocks _ _ _ _) as [y|] eqn:Hy; cbn [rbind]; [|discriminate].
  intros H. injection H as <-. split; [exact HS|]. exists y. split; [|reflexivity].
  apply (gpt_run_blocks_dims _ _ _ _ _ _ (embedded_dims _ _ _ tok pos
           (token_embeddings_dims _ _ _ _ _ Hlen Htok)
           (position_embeddings_length _ _ _ Hpos)) Hy).
Qed.

Lemma bert_forward_returned (self : mosaic_bert.MosaicBert.t) (ids : LongValue) kpm
    (logits : tensor3) :
  length (flat ids) = (shape0 ids * shape1 ids)%nat ->
  mosaic_bert.MosaicBert.forward self ids kpm = Ok logits ->
  (shape1 ids <= max_seq_len (mosaic_bert.MosaicBert.cfg self))%nat /\
  exists x, has_dims (shape0 ids) (shape1 ids) x /\
            logits = tmap (Linear.forward (mosaic_bert.MosaicBert.lm_head self))
                          (tmap (LayerNorm.forward (mosaic_bert.MosaicBert.ln_f self)) x).
Proof.
  intros Hlen. unfold mosaic_bert.MosaicBert.forward.
  destruct (Nat.leb_spec (shape1 ids) (max_seq_len (mosaic_bert.MosaicBert.cfg self)))
    as [HS|]; cbn [negb]; [|discriminate].
  unfold Embedding.forward.
  destruct (rmapM _ _) as [tok|] eqn:Htok; cbn [rbind]; [|discriminate].
  destruct (F.embedding _ _) as [pos|] eqn:Hpos; cbn [rbind]; [|discriminate].
  intros H. injection H as <-. split; [exact HS|]. eexists. split; [|reflexivity].
  apply bert_run_blocks_dims, embedded_dims.
  - exact (token_embeddings_dims _ _ _ _ _ Hlen Htok).
  - exact (position_embeddings_length _ _ _ Hpos).
Qed.

(** [forward] of the adapters reads the store and writes nothing. *)
Lemma composer_gpt_forward_run (self : gpt_old.ComposerGPT.t) (batch : Batch)
    (h h' : heap) (outputs : tensor3) :
  gpt_old.ComposerGPT.forward self batch h = (Ok outputs, h') ->
  h' = h /\
  exists kpm,
    gpt_old.GPT.forward (gpt_old.ComposerGPT.model self)
      (mkValue (size0 (input_ids batch)) (size1 (input_ids batch))
               (default [] (h !! data_ptr (input_ids batch)))) kpm
    = Ok outputs.
Proof.
  unfold gpt_old.ComposerGPT.forward, bind, load, lift.
  intros H. injection H as Hout <-. split; [reflexivity|]. eauto.
Qed.

Lemma composer_bert_forward_run (self : mosaic_bert.ComposerMosaicBert.t)
    (batch : Batch) (h h' : heap) (outputs : tensor3) :
  mosaic_bert.ComposerMosaicBert.forward self batch h = (Ok outputs, h') ->
  h' = h /\
  exists kpm,
    mosaic_bert.MosaicBert.forward (mosaic_bert.ComposerMosaicBert.model self)
      (mkValue (size0 (input_ids batch)) (size1 (input_ids batch))
               (default [] (h !! data_ptr (input_ids batch)))) kpm
    = Ok outputs.
Proof.
  unfold mosaic_bert.ComposerMosaicBert.forward, bind, load, lift.
  intros H. injection H as Hout <-. split; [reflexivity|]. eauto.
Qed.

(** The encoder of the scenario has the tables of its configuration. *)
Lemma scenario_bert_sized (act : R -> R) :
  tables_sized (scenario "mosaic_bert" "flash")
    (mosaic_bert.MosaicBert.wte (scenario_bert act))
    (mosaic_bert.MosaicBert.wpe (scenario_bert act))
    (mosaic_bert.MosaicBert.lm_head (scenario_bert act)).
Proof.
  unfold tables_sized, scenario_bert, zero_matrix.
  cbn [mosaic_bert.MosaicBert.wte mosaic_bert.MosaicBert.wpe
       mosaic_bert.MosaicBert.lm_head Embedding.weight Linear.weight Linear.bias
       scenario vocab_size max_seq_len].
  rewrite !length_replicate. repeat split.
Qed.

End ReturnedLogits.

(** X5.  The logits that the encoder stack returns have the shape of
    the batch: for token ids of shape [(batch, seq)] and an output
    projection without bias, a call of [forward] that returns has passed
    the length check, [seq <= max_seq_len], and returns one row of logits
    per position, as long as the output projection has rows.  The
    statement is about the calls that return; it does not say which calls
    do. *)
Theorem bert_logits_have_batch_shape (self : mosaic_bert.MosaicBert.t)
    (ids : LongValue) kpm (logits : tensor3) :
  length (flat ids) = (shape0 ids * shape1 ids)%nat ->
  Linear.bias (mosaic_bert.MosaicBert.lm_head self) = None ->
  mosaic_bert.MosaicBert.forward self ids kpm = Ok logits ->
  (shape1 ids <= max_seq_len (mosaic_bert.MosaicBert.cfg self))%nat /\
  has_shape (shape0 ids) (shape1 ids)
            (length (Linear.weight (mosaic_bert.MosaicBert.lm_head self))) logits.
Proof.
  intros Hlen Hbias Hrun.
  destruct (bert_forward_returned self ids kpm logits Hlen Hrun) as (HS & x & Hx & ->).
  split; [exact HS|]. apply logits_shape; [reflexivity | exact Hbias | exact Hx].
Qed.

Lemma bert_logits_have_batch_shape_witness :
  exists logits,
    mosaic_bert.MosaicBert.forward (scenario_bert (fun x => x))
      (mkValue 2 3 [5; 7; 0; 99; 1; 0])
      (Some [[true; true; false]; [true; true; false]]) = Ok logits /\
    has_shape 2 3 100 logits.
Proof.
  destruct (bert_forward_in_range (scenario_bert (fun x => x))
              (mkValue 2 3 [5; 7; 0; 99; 1; 0])
              (Some [[true; true; false]; [true; true; false]]))
    as (logits & Hrun & _).
  - apply scenario_bert_sized.
  - split; [reflexivity|]. cbn. repeat constructor; lia.
  - cbn. lia.
  - exists logits. split; [exact Hrun|].
    refine (eq_rect _ (fun V => has_shape 2 3 V logits)
              (proj2 (bert_logits_have_batch_shape (scenario_bert (fun x => x))
                        (mkValue 2 3 [5; 7; 0; 99; 1; 0])
                        (Some [[true; true; false]; [true; true; false]])
                        logits eq_refl eq_refl Hrun)) _ _).
    apply length_replicate.
Defined.

(** X6.  The logits that the decoder stack returns have the shape of
    the batch, with the torch or the flash attention layer in its blocks:
    for token ids of shape [(batch, seq)] and an output projection without
    bias, a call of [forward] that returns has passed the length check
    and returns one row of logits per position, as long as the output
    projection has rows.  The statement is about the calls that return;
    it does not say which calls do. *)
Theorem gpt_logits_have_batch_shape (self : gpt_old.GPT.t)
    (ids : LongValue) kpm (logits : tensor3) :
  length (flat ids) = (shape0 ids * shape1 ids)%nat ->
  Linear.bias (gpt_old.GPT.lm_head self) = None ->
  gpt_old.GPT.forward self ids kpm = Ok logits ->
  (shape1 ids <= max_seq_len (gpt_old.GPT.cfg self))%nat /\
  has_shape (shape0 ids) (shape1 ids)
            (length (Linear.weight (gpt_old.GPT.lm_head self))) logits.
Proof.
  intros Hlen Hbias Hrun.
  destruct (gpt_forward_returned self ids kpm logits Hlen Hrun) as (HS & x & Hx & ->).
  split; [exact HS|]. apply logits_shape; [reflexivity | exact Hbias | exact Hx].
Qed.

Lemma gpt_logits_have_batch_shape_witness :
  exists logits,
    gpt_old.GPT.forward (tiny_torch_gpt (fun x => x)) (mkValue 1 2 [0; 1]) None
    = Ok logits /\
    has_shape 1 2 2 logits.
Proof.
  destruct (proj1 (gpt_forward_in_range (tiny_torch_gpt (fun x => x))
                     (mkValue 1 2 [0; 1]) None
                     ltac:(repeat split)
                     ltac:(split; [reflexivity | cbn; repeat constructor; lia])
                     ltac:(cbn; lia)))
    as (logits & Hrun & _).
  - constructor; [reflexivity | constructor].
  - exists logits. split; [exact Hrun|].
    exact (proj2 (gpt_logits_have_batch_shape (tiny_torch_gpt (fun x => x))
                    (mkValue 1 2 [0; 1]) None logits eq_refl eq_refl Hrun)).
Defined.

(** X4.  What [forward] returns fits [loss].  Take a batch whose token
    ids and labels are in the store with one shape [(B, S)], each label a
    token below [V] or the sentinel, and an adapter whose output
    projection has [V] rows and no bias.  If [forward] on the batch
    returns, it has left the store as it was and its outputs have shape
    [(B, S, V)]; [loss] on these outputs and the batch then returns the
    mean over the included positions, against the shifted labels in the
    decoder adapter (for [1 <= S], with either attention layer) and
    against the labels in the encoder adapter: no shape error and no
    index error between the two calls.  The statement is about the steps
    whose [forward] returns; it does not say which do. *)
Theorem forward_outputs_fit_the_loss (batch : Batch) (h : heap) (ids lab : list Z)
    (V : nat) :
  h !! data_ptr (input_ids batch) = Some ids ->
  h !! data_ptr (labels batch) = Some lab ->
  length ids = (size0 (input_ids batch) * size1 (input_ids batch))%nat ->
  size0 (labels batch) = size0 (input_ids batch) ->
  size1 (labels batch) = size1 (input_ids batch) ->
  length lab = (size0 (labels batch) * size1 (labels batch))%nat ->
  Forall (fun t => t = -100 \/ 0 <= t < Z.of_nat V) lab ->
  (forall (self : gpt_old.ComposerGPT.t) (outputs : tensor3) (h' : heap),
     length (Linear.weight (gpt_old.GPT.lm_head (gpt_old.ComposerGPT.model self))) = V ->
     Linear.bias (gpt_old.GPT.lm_head (gpt_old.ComposerGPT.model self)) = None ->
     (0 < size1 (input_ids batch))%nat ->
     gpt_old.ComposerGPT.forward self batch h = (Ok outputs, h') ->
     h' = h /\
     has_shape (size0 (input_ids batch)) (size1 (input_ids batch)) V outputs /\
     fst (gpt_old.ComposerGPT.loss self outputs batch h')
     = Ok (mean_over_included (concat outputs)
             (imap (fun k x => if decide (k mod size1 (labels batch)
                                          = size1 (labels batch) - 1)%nat
                               then -100 else x)
                   (torch.roll_flat lab (-1))))) /\
  (forall (self : mosaic_bert.ComposerMosaicBert.t) (outputs : tensor3) (h' : heap),
     length (Linear.weight
               (mosaic_bert.MosaicBert.lm_head (mosaic_bert.ComposerMosaicBert.model self)))
     = V ->
     Linear.bias
       (mosaic_bert.MosaicBert.lm_head (mosaic_bert.ComposerMosaicBert.model self))
     = None ->
     mosaic_bert.ComposerMosaicBert.forward self batch h = (Ok outputs, h') ->
     h' = h /\
     has_shape (size0 (input_ids batch)) (size1 (input_ids batch)) V outputs /\
     fst (mosaic_bert.ComposerMosaicBert.loss self outputs batch h')
     = Ok (mean_over_included (concat outputs) lab)).
Proof.
  intros Hids Hlab Hlen HB HS Hlablen Hrange. split.
  - intros self outputs h' HV Hbias Hpos Hrun.
    apply composer_gpt_forward_run in Hrun as (-> & kpm & Hrun).
    rewrite Hids in Hrun. change (default [] (Some ids)) with ids in Hrun.
    destruct (gpt_forward_returned (gpt_old.ComposerGPT.model self)
                (mkValue (size0 (input_ids batch)) (size1 (input_ids batch)) ids)
                kpm _ Hlen Hrun) as (_ & x & Hx & ->).
    cbn [shape0 shape1] in Hx.
    pose proof (logits_shape (gpt_old.GPT.ln_f (gpt_old.ComposerGPT.model self))
                  _ _ _ V x HV Hbias Hx) as Hshape.
    split; [reflexivity|]. split; [exact Hshape|].
    change (gpt_old.ComposerGPT.loss self) with (loss_of gpt.ComposerGPT.get_targets).
    rewrite (causal_loss_run _ batch h lab Hlab) by lia.
    apply (cross_entropy_of_logits _ _ V _ _ Hshape).
    + rewrite causal_targets_length. lia.
    + apply causal_targets_Forall; [left; reflexivity | exact Hrange].
  - intros self outputs h' HV Hbias Hrun.
    apply composer_bert_forward_run in Hrun as (-> & kpm & Hrun).
    rewrite Hids in Hrun. change (default [] (Some ids)) with ids in Hrun.
    destruct (bert_forward_returned (mosaic_bert.ComposerMosaicBert.model self)
                (mkValue (size0 (input_ids batch)) (size1 (input_ids batch)) ids)
                kpm _ Hlen Hrun) as (_ & x & Hx & ->).
    cbn [shape0 shape1] in Hx.
    pose proof (logits_shape
                  (mosaic_bert.MosaicBert.ln_f (mosaic_bert.ComposerMosaicBert.model self))
                  _ _ _ V x HV Hbias Hx) as Hshape.
    split; [reflexivity|]. split; [exact Hshape|].
    unfold mosaic_bert.ComposerMosaicBert.loss,
      mosaic_bert.ComposerMosaicBert.get_targets, bind, ret, torch.view_flat,
      load, lift.
    rewrite Hlab. change (default [] (Some lab)) with lab. cbn [fst].
    apply (cross_entropy_of_logits _ _ V _ _ Hshape); [lia | exact Hrange].
Qed.

Lemma forward_outputs_fit_the_loss_witness :
  exists outputs,
    mosaic_bert.ComposerMosaicBert.forward
      (mosaic_bert.ComposerMosaicBert.mk (scenario_bert (fun x => x)))
      (mkBatch (mkLong 1 1 2) (mkLong 2 1 2) (mkLong 3 1 2))
      {[ 1%positive := [5; 7]; 2%positive := [1; 1]; 3%positive := [-100; 7] ]}
    = (Ok outputs,
       {[ 1%positive := [5; 7]; 2%positive := [1; 1]; 3%positive := [-100; 7] ]}) /\
    has_shape 1 2 100 outputs /\
    fst (mosaic_bert.ComposerMosaicBert.loss
           (mosaic_bert.ComposerMosaicBert.mk (scenario_bert (fun x => x))) outputs
           (mkBatch (mkLong 1 1 2) (mkLong 2 1 2) (mkLong 3 1 2))
           {[ 1%positive := [5; 7]; 2%positive := [1; 1]; 3%positive := [-100; 7] ]})
    = Ok (mean_over_included (concat outputs) [-100; 7]).
Proof.
  destruct (bert_forward_in_range (scenario_bert (fun x => x)) (mkValue 1 2 [5; 7])
              (Some [[true; true]])) as (outputs & Hrun & _).
  - apply scenario_bert_sized.
  - split; [reflexivity|]. cbn. repeat constructor; lia.
  - cbn. lia.
  - exists outputs.
    assert (Hfwd : mosaic_bert.ComposerMosaicBert.forward
                     (mosaic_bert.ComposerMosaicBert.mk (scenario_bert (fun x => x)))
                     (mkBatch (mkLong 1 1 2) (mkLong 2 1 2) (mkLong 3 1 2))
                     {[ 1%positive := [5; 7]; 2%positive := [1; 1];
                        3%positive := [-100; 7] ]}
                   = (Ok outputs,
                      {[ 1%positive := [5; 7]; 2%positive := [1; 1];
                         3%positive := [-100; 7] ]})).
    { rewrite <- Hrun. reflexivity. }
    split; [exact Hfwd|].
    refine (proj2 (proj2 (forward_outputs_fit_the_loss
                     (mkBatch (mkLong 1 1 2) (mkLong 2 1 2) (mkLong 3 1 2))
                     {[ 1%positive := [5; 7]; 2%positive := [1; 1];
                        3%positive := [-100; 7] ]}
                     [5; 7] [-100; 7] 100 _ _ _ _ _ _ _)
                   (mosaic_bert.ComposerMosaicBert.mk (scenario_bert (fun x => x)))
                   outputs _ _ _ Hfwd)).
    + reflexivity.
    + reflexivity.
    + reflexivity.
    + reflexivity.
    + reflexivity.
    + reflexivity.
    + constructor; [left; reflexivity|]. constructor; [right; lia|]. constructor.
    + apply length_replicate.
    + reflexivity.
Defined.
